
(** * YOLOv8 pose detection in the browser: the detection pipeline of
    [utils/detect.js] (preprocess, detect, detectVideo) and the
    states, handlers and model warm-up of [App.jsx], embedded in Rocq.

    Conventions of the embedding.
    - A [tf.Tensor] is a shape and a row-major buffer.  In the pipeline
      ([preprocess], [detect]) the entries are exact rationals: what is
      proved there is about shapes, about which entry goes where, about
      scopes and calls, and about bounds that rounding keeps.
    - The box block of [detect] is embedded a second time on tensors of
      IEEE-754 binary32 numbers ([Tensor32], [Decoder32]), with the
      single-precision operations of the standard library's [SpecFloat]
      (round to nearest, ties to even, as the CPU and WebAssembly backends
      compute); the values of a box are stated there.
    - The two scale ratios, which the program computes with plain
      JavaScript division, are IEEE-754 binary64 values with the
      operations of the standard library's [SpecFloat].
    - The timestamps of the frame scheduler are exact rationals; what the
      scheduler divides can be zero, so its quotients live in the
      rationals extended by the infinities and NaN.
    - TensorFlow.js operations follow their documented behaviour; where
      TensorFlow.js rejects its arguments the model returns [None].
    - [detect] and the scheduler run in a state-and-exception monad over
      the page: the engine's scope stack and live tensors, the calls made
      so far, the pending animation frames, the metric shown, the timer
      and the variables of the streaming session. *)

From Stdlib Require Import List ZArith QArith Qround Qabs Lia Lqa Bool Arith PeanoNat.
From Stdlib Require Import Strings.Byte.
From Stdlib Require Import Floats.SpecFloat.
Import ListNotations.

Set Implicit Arguments.

(** * Part I: the program *)

(** ** Row-major buffers *)

Module Index.

(** The buffer [f 0; f 1; ...; f (n-1)]. *)
Definition tabulate (n : nat) (f : nat -> Q) : list Q := map f (seq 0 n).

End Index.

(** ** Tensors *)

Module Tensor.
Import Index.

Record tensor : Type := mk { shape : list nat; data : list Q }.

Definition numel (sh : list nat) : nat := fold_right Nat.mul 1%nat sh.

(** Entry [k] of the buffer. *)
Definition get (t : tensor) (k : nat) : Q := nth k (data t) 0.

(** [t.transpose([0, 2, 1])]: rank 3 only. *)
Definition transpose021 (t : tensor) : option tensor :=
  match shape t with
  | [b; r; c] =>
      Some (mk [b; c; r]
              (tabulate (b * c * r)
                 (fun k => get t ((k / (c * r) * r + k mod r) * c + (k / r) mod c))))
  | _ => None
  end.

(** One dimension of [slice]: extent [sz] from [b], where [-1] asks for
    everything up to the end of the dimension. *)
Definition slice_len (dim b : nat) (sz : Z) : option nat :=
  if (sz =? -1)%Z then
    if (b <=? dim)%nat then Some (dim - b)%nat else None
  else if ((0 <=? sz)%Z && (b + Z.to_nat sz <=? dim)%nat)%bool
       then Some (Z.to_nat sz) else None.

(** [t.slice([b0, b1, b2], [s0, s1, s2])] on a rank-3 tensor. *)
Definition slice3 (t : tensor) (b0 b1 b2 : nat) (s0 s1 s2 : Z) : option tensor :=
  match shape t with
  | [d0; d1; d2] =>
      match slice_len d0 b0 s0, slice_len d1 b1 s1, slice_len d2 b2 s2 with
      | Some n0, Some n1, Some n2 =>
          Some (mk [n0; n1; n2]
                  (tabulate (n0 * n1 * n2)
                     (fun k => get t (((b0 + k / (n1 * n2)) * d1
                                       + (b1 + (k / n2) mod n1)) * d2
                                      + (b2 + k mod n2)))))
      | _, _, _ => None
      end
  | _ => None
  end.

(** [t.squeeze()]: every dimension of extent 1 is dropped. *)
Definition squeeze (t : tensor) : tensor :=
  mk (filter (fun d => negb (d =? 1)%nat) (shape t)) (data t).

(** Element-wise [tf.sub] and [tf.add]; in [detect] both operands are
    always slices of one tensor with the same begin-less extents, the only
    case modelled. *)
Definition zip (op : Q -> Q -> Q) (a b : tensor) : option tensor :=
  if list_eq_dec Nat.eq_dec (shape a) (shape b) then
    Some (mk (shape a) (tabulate (numel (shape a)) (fun k => op (get a k) (get b k))))
  else None.

Definition sub := zip Qminus.

Definition add := zip Qplus.

(** [tf.div(t, c)] and [t.div(c)] with a scalar [c]. *)
Definition div_scalar (a : tensor) (c : Q) : tensor :=
  mk (shape a) (tabulate (numel (shape a)) (fun k => get a k / c)).

Definition last_dim (t : tensor) : nat := last (shape t) 0%nat.

(** Entry [k] of row [r] of the concatenation of [ts] along the last axis. *)
Fixpoint concat_pick (ts : list tensor) (r k : nat) : Q :=
  match ts with
  | [] => 0
  | t :: ts' =>
      if (k <? last_dim t)%nat then get t (r * last_dim t + k)
      else concat_pick ts' r (k - last_dim t)
  end.

(** [tf.concat(ts, 2)] for rank-3 tensors that agree on the first two
    dimensions. *)
Definition concat2 (ts : list tensor) : option tensor :=
  match ts with
  | [] => None
  | t0 :: _ =>
      match shape t0 with
      | [d0; d1; _] =>
          if forallb (fun t => match shape t with
                               | [e0; e1; _] => (e0 =? d0)%nat && (e1 =? d1)%nat
                               | _ => false
                               end) ts
          then
            let c := list_sum (map last_dim ts) in
            Some (mk [d0; d1; c]
                    (tabulate (d0 * d1 * c) (fun k => concat_pick ts (k / c) (k mod c))))
          else None
      | _ => None
      end
  end.

(** [t.gather(indices, 0)]: the listed slices along the first axis. *)
Definition gather0 (t : tensor) (idx : list nat) : option tensor :=
  match shape t with
  | d0 :: rest =>
      if forallb (fun i => (i <? d0)%nat) idx then
        let m := numel rest in
        Some (mk (length idx :: rest)
                (tabulate (length idx * m)
                   (fun k => get t (nth (k / m) idx 0%nat * m + k mod m))))
      else None
  | [] => None
  end.

(** The shape [tf.reshape] infers from a requested shape with at most one
    [-1] ([util.inferFromImplicitShape]): the scan returns the product of the
    explicit extents and the position of the [-1], if any. *)
Fixpoint implicit_scan (req : list Z) (pos : nat) : option (nat * option nat) :=
  match req with
  | [] => Some (1%nat, None)
  | d :: req' =>
      match implicit_scan req' (S pos) with
      | None => None
      | Some (p, hole) =>
          if (0 <=? d)%Z then Some ((Z.to_nat d * p)%nat, hole)
          else if (d =? -1)%Z then
                 match hole with
                 | None => Some (p, Some pos)
                 | Some _ => None
                 end
               else None
      end
  end.

Fixpoint fill_hole (req : list Z) (v : nat) : list nat :=
  match req with
  | [] => []
  | d :: req' => (if (d =? -1)%Z then v else Z.to_nat d) :: fill_hole req' v
  end.

Definition infer_shape (req : list Z) (size : nat) : option (list nat) :=
  match implicit_scan req 0 with
  | None => None
  | Some (p, None) =>
      if ((0 <? size)%nat && negb (size =? p)%nat)%bool then None
      else Some (fill_hole req 0)
  | Some (p, Some _) =>
      if (p =? 0)%nat then None
      else if (size mod p =? 0)%nat then Some (fill_hole req (size / p))
           else None
  end.

(** [tf.reshape(values, req)] applied to a flat typed array. *)
Definition reshape_flat (values : list Q) (req : list Z) : option tensor :=
  match infer_shape req (length values) with
  | Some sh => Some (mk sh values)
  | None => None
  end.

(** [t.expandDims(0)]. *)
Definition expandDims0 (t : tensor) : tensor := mk (1%nat :: shape t) (data t).

(** [t.dataSync()]: the buffer as a typed array. *)
Definition dataSync (t : tensor) : list Q := data t.

End Tensor.

(** ** The decoder: the three [tf.tidy] blocks of [detect] *)

Module Decoder.
Import Index Tensor.

Local Notation "x <- c ;; k" := (match c with Some x => k | None => None end)
  (at level 61, c at next level, right associativity).

(** Lines 56-73: the corner-form boxes [y1, x1, y2, x2]. *)
Definition decode_boxes (transRes : tensor) : option tensor :=
  w <- slice3 transRes 0 0 2 (-1) (-1) 1 ;;
  h <- slice3 transRes 0 0 3 (-1) (-1) 1 ;;
  cx <- slice3 transRes 0 0 0 (-1) (-1) 1 ;;
  x1 <- sub cx (div_scalar w 2) ;;
  cy <- slice3 transRes 0 0 1 (-1) (-1) 1 ;;
  y1 <- sub cy (div_scalar h 2) ;;
  y2 <- add y1 h ;;
  x2 <- add x1 w ;;
  c <- concat2 [y1; x1; y2; x2] ;;
  Some (squeeze c).

(** Lines 75-78: the score column, attribute 4. *)
Definition decode_scores (transRes : tensor) : option tensor :=
  rawScores <- slice3 transRes 0 0 4 (-1) (-1) 1 ;;
  Some (squeeze rawScores).

(** Lines 80-82: the keypoint attributes, 5 onward. *)
Definition decode_landmarks (transRes : tensor) : option tensor :=
  l <- slice3 transRes 0 0 5 (-1) (-1) (-1) ;;
  Some (squeeze l).

(** Lines 88-91: gather the selected rows, read them back, reshape. *)
Definition landmarks_data (landmarks : tensor) (nms : list nat) : option tensor :=
  g <- gather0 landmarks nms ;;
  reshape_flat (dataSync g) [-1; 3; 17]%Z.

(** Lines 86-87. *)
Definition boxes_data (boxes : tensor) (nms : list nat) : option (list Q) :=
  g <- gather0 boxes nms ;; Some (dataSync g).

Definition scores_data (scores : tensor) (nms : list nat) : option (list Q) :=
  g <- gather0 scores nms ;; Some (dataSync g).

(** The columns of a [1, n, a] tensor. *)
Definition column (t : tensor) (n a c : nat) : tensor :=
  mk [1; n; 1]%nat (tabulate (1 * n * 1) (fun k =>
     get t (((0 + k / (n * 1)) * n + (0 + (k / 1) mod n)) * a + (c + k mod 1)))).

End Decoder.

(** ** Single-precision numbers: the entries of a [float32] tensor *)

Module Float32.

(** IEEE 754 binary32: 24 bits of precision, exponents below 128. *)
Definition float32 : Type := spec_float.

Definition prec : Z := 24.

Definition emax : Z := 128.

Definition add : float32 -> float32 -> float32 := SFadd prec emax.

Definition sub : float32 -> float32 -> float32 := SFsub prec emax.

Definition div : float32 -> float32 -> float32 := SFdiv prec emax.

(** [x <= y] of JavaScript: false as soon as one side is [NaN]. *)
Definition leb : float32 -> float32 -> bool := SFleb.

(** An integer literal as a single-precision number. *)
Definition of_Z (z : Z) : float32 := binary_normalize prec emax z 0 false.

Definition zero : float32 := S754_zero false.

(** The scalar [2] of [tf.div(w, 2)]. *)
Definition two : float32 := of_Z 2.

(** The values a [Float32Array] can hold. *)
Definition is_value (x : float32) : bool := valid_binary prec emax x.

(** Neither [NaN] nor an infinity. *)
Definition finite (x : float32) : bool :=
  match x with
  | S754_zero _ | S754_finite _ _ _ => is_value x
  | S754_infinity _ | S754_nan => false
  end.

(** The rational a finite number stands for. *)
Definition to_Q (x : float32) : Q :=
  match x with
  | S754_finite s m e => inject_Z (if s then Zneg m else Zpos m) * Qpower 2 e
  | _ => 0
  end.

End Float32.

(** ** Tensors of single-precision numbers *)

Module Tensor32.
Import Float32.

Record tensor : Type := mk { shape : list nat; data : list float32 }.

(** The buffer [f 0; f 1; ...; f (n-1)]. *)
Definition tabulate (n : nat) (f : nat -> float32) : list float32 := map f (seq 0 n).

(** Entry [k] of the buffer; a typed array has no entry past its end,
    and what is read there is not a number. *)
Definition get (t : tensor) (k : nat) : float32 := nth k (data t) S754_nan.

(** [t.slice([b0, b1, b2], [s0, s1, s2])] on a rank-3 tensor. *)
Definition slice3 (t : tensor) (b0 b1 b2 : nat) (s0 s1 s2 : Z) : option tensor :=
  match shape t with
  | [d0; d1; d2] =>
      match Tensor.slice_len d0 b0 s0, Tensor.slice_len d1 b1 s1,
            Tensor.slice_len d2 b2 s2 with
      | Some n0, Some n1, Some n2 =>
          Some (mk [n0; n1; n2]
                  (tabulate (n0 * n1 * n2)
                     (fun k => get t (((b0 + k / (n1 * n2)) * d1
                                       + (b1 + (k / n2) mod n1)) * d2
                                      + (b2 + k mod n2)))))
      | _, _, _ => None
      end
  | _ => None
  end.

(** [t.squeeze()]: every dimension of extent 1 is dropped. *)
Definition squeeze (t : tensor) : tensor :=
  mk (filter (fun d => negb (d =? 1)%nat) (shape t)) (data t).

(** Element-wise [tf.sub] and [tf.add] on operands of one shape, each
    entry rounded to single precision. *)
Definition zip (op : float32 -> float32 -> float32) (a b : tensor) : option tensor :=
  if list_eq_dec Nat.eq_dec (shape a) (shape b) then
    Some (mk (shape a)
            (tabulate (Tensor.numel (shape a)) (fun k => op (get a k) (get b k))))
  else None.

Definition sub := zip Float32.sub.

Definition add := zip Float32.add.

(** [tf.div(t, c)] with a scalar [c], which is converted to a
    single-precision tensor and broadcast. *)
Definition div_scalar (a : tensor) (c : float32) : tensor :=
  mk (shape a) (tabulate (Tensor.numel (shape a)) (fun k => Float32.div (get a k) c)).

Definition last_dim (t : tensor) : nat := last (shape t) 0%nat.

(** Entry [k] of row [r] of the concatenation of [ts] along the last axis. *)
Fixpoint concat_pick (ts : list tensor) (r k : nat) : float32 :=
  match ts with
  | [] => S754_nan
  | t :: ts' =>
      if (k <? last_dim t)%nat then get t (r * last_dim t + k)
      else concat_pick ts' r (k - last_dim t)
  end.

(** [tf.concat(ts, 2)] for rank-3 tensors that agree on the first two
    dimensions. *)
Definition concat2 (ts : list tensor) : option tensor :=
  match ts with
  | [] => None
  | t0 :: _ =>
      match shape t0 with
      | [d0; d1; _] =>
          if forallb (fun t => match shape t with
                               | [e0; e1; _] => (e0 =? d0)%nat && (e1 =? d1)%nat
                               | _ => false
                               end) ts
          then
            let c := list_sum (map last_dim ts) in
            Some (mk [d0; d1; c]
                    (tabulate (d0 * d1 * c) (fun k => concat_pick ts (k / c) (k mod c))))
          else None
      | _ => None
      end
  end.

End Tensor32.

(** ** The box block of [detect] in single precision *)

Module Decoder32.
Import Float32 Tensor32.

Local Notation "x <- c ;; k" := (match c with Some x => k | None => None end)
  (at level 61, c at next level, right associativity).

(** Lines 56-73 on a [float32] tensor: the corner-form boxes
    [y1, x1, y2, x2]. *)
Definition decode_boxes (transRes : tensor) : option tensor :=
  w <- slice3 transRes 0 0 2 (-1) (-1) 1 ;;
  h <- slice3 transRes 0 0 3 (-1) (-1) 1 ;;
  cx <- slice3 transRes 0 0 0 (-1) (-1) 1 ;;
  x1 <- sub cx (div_scalar w two) ;;
  cy <- slice3 transRes 0 0 1 (-1) (-1) 1 ;;
  y1 <- sub cy (div_scalar h two) ;;
  y2 <- add y1 h ;;
  x2 <- add x1 w ;;
  c <- concat2 [y1; x1; y2; x2] ;;
  Some (squeeze c).

(** Row [i] of the boxes. *)
Definition box_at (bx : tensor) (i : nat) : float32 * float32 * float32 * float32 :=
  (get bx (i * 4 + 0), get bx (i * 4 + 1), get bx (i * 4 + 2), get bx (i * 4 + 3)).

(** The columns of a [1, n, a] tensor. *)
Definition column (t : tensor) (n a c : nat) : tensor :=
  mk [1; n; 1]%nat (tabulate (1 * n * 1) (fun k =>
     get t (((0 + k / (n * 1)) * n + (0 + (k / 1) mod n)) * a + (c + k mod 1)))).

End Decoder32.

(** ** JavaScript numbers: IEEE-754 binary64 *)

Module Number.

Definition prec : Z := 53.

Definition emax : Z := 1024.

Definition number : Type := spec_float.

(** An integer held in a number (a tensor extent, a literal). *)
Definition of_nat (n : nat) : number := binary_normalize prec emax (Z.of_nat n) 0 false.

Definition div : number -> number -> number := SFdiv prec emax.

Definition mul : number -> number -> number := SFmul prec emax.

(** [a === b] on numbers. *)
Definition eqb : number -> number -> bool := SFeqb.

Definition one : number := of_nat 1.

Definition infinity : number := S754_infinity false.

Definition nan : number := S754_nan.

Definition is_finite (x : number) : bool :=
  match x with
  | S754_zero _ | S754_finite _ _ _ => true
  | _ => false
  end.

End Number.

(** ** The preprocessor *)

Module Preprocessor.
Import Index Tensor.

Local Notation "x <- c ;; k" := (match c with Some x => k | None => None end)
  (at level 61, c at next level, right associativity).

(** The pixels of an image or video element as [tf.browser.fromPixels]
    reads them: [height] rows of [width] pixels, three colour bytes each. *)
Record frame : Type := mkFrame { height : nat; width : nat; pixels : list byte }.

Definition byte_value (b : byte) : Q := inject_Z (Z.of_N (Byte.to_N b)).

Definition well_formed (f : frame) : Prop :=
  length (pixels f) = (height f * width f * 3)%nat.

(** [tf.browser.fromPixels(source)]: shape [[height, width, 3]]. *)
Definition fromPixels (f : frame) : tensor :=
  mk [height f; width f; 3%nat]
     (tabulate (height f * width f * 3) (fun k => byte_value (nth k (pixels f) x00))).

(** [t.pad([[a0, b0], [a1, b1], [a2, b2]])] with the default constant 0. *)
Definition pad3 (t : tensor) (p0 p1 p2 : nat * nat) : option tensor :=
  match shape t with
  | [d0; d1; d2] =>
      let e0 := (fst p0 + d0 + snd p0)%nat in
      let e1 := (fst p1 + d1 + snd p1)%nat in
      let e2 := (fst p2 + d2 + snd p2)%nat in
      Some (mk [e0; e1; e2]
              (tabulate (e0 * e1 * e2) (fun k =>
                 let i := (k / (e1 * e2))%nat in
                 let j := ((k / e2) mod e1)%nat in
                 let c := (k mod e2)%nat in
                 if ((fst p0 <=? i) && (i <? fst p0 + d0)
                     && (fst p1 <=? j) && (j <? fst p1 + d1)
                     && (fst p2 <=? c) && (c <? fst p2 + d2))%nat%bool
                 then get t (((i - fst p0) * d1 + (j - fst p1)) * d2 + (c - fst p2))
                 else 0)))
  | _ => None
  end.

Definition Qnat (n : nat) : Q := inject_Z (Z.of_nat n).

(** [tf.image.resizeBilinear(images, [newHeight, newWidth])] on a rank-3
    image, with the defaults [alignCorners = false] and
    [halfPixelCenters = false]: the first entry of the size pair is the
    number of rows of the result.  When the source has no rows or no
    columns the kernel reads outside the buffer and every entry is NaN;
    the model has 0 there, and nothing below speaks about those entries. *)
Definition resizeBilinear (t : tensor) (newHeight newWidth : nat) : option tensor :=
  match shape t with
  | [oldHeight; oldWidth; numChannels] =>
      let rowRatio := Qnat oldHeight / Qnat newHeight in
      let colRatio := Qnat oldWidth / Qnat newWidth in
      Some (mk [newHeight; newWidth; numChannels]
              (tabulate (newHeight * newWidth * numChannels) (fun k =>
                 let r := (k / (newWidth * numChannels))%nat in
                 let c := ((k / numChannels) mod newWidth)%nat in
                 let d := (k mod numChannels)%nat in
                 let sourceFracRow := rowRatio * Qnat r in
                 let sourceRowFloor := Z.to_nat (Z.max 0 (Qfloor sourceFracRow)) in
                 let rowFrac := sourceFracRow - Qnat sourceRowFloor in
                 let sourceRowCeil :=
                   Z.to_nat (Z.min (Z.of_nat oldHeight - 1) (Qceiling sourceFracRow)) in
                 let sourceFracCol := colRatio * Qnat c in
                 let sourceColFloor := Z.to_nat (Z.max 0 (Qfloor sourceFracCol)) in
                 let colFrac := sourceFracCol - Qnat sourceColFloor in
                 let sourceColCeil :=
                   Z.to_nat (Z.min (Z.of_nat oldWidth - 1) (Qceiling sourceFracCol)) in
                 let at_ i j := get t ((i * oldWidth + j) * numChannels + d) in
                 let topLeft := at_ sourceRowFloor sourceColFloor in
                 let bottomLeft := at_ sourceRowCeil sourceColFloor in
                 let topRight := at_ sourceRowFloor sourceColCeil in
                 let bottomRight := at_ sourceRowCeil sourceColCeil in
                 let top := topLeft + (topRight - topLeft) * colFrac in
                 let bottom := bottomLeft + (bottomRight - bottomLeft) * colFrac in
                 top + (bottom - top) * rowFrac)))
  | _ => None
  end.

(** Lines 20-26: pad to a square, bottom and right only. *)
Definition pad_to_square (img : tensor) : option tensor :=
  match shape img with
  | h :: w :: _ =>
      let maxSize := Nat.max w h in
      pad3 img (0, maxSize - h)%nat (0, maxSize - w)%nat (0, 0)%nat
  | _ => None
  end.

(** Lines 28-29. *)
Definition ratios (img : tensor) : option (Number.number * Number.number) :=
  match shape img with
  | h :: w :: _ =>
      let maxSize := Nat.max w h in
      Some (Number.div (Number.of_nat maxSize) (Number.of_nat w),
            Number.div (Number.of_nat maxSize) (Number.of_nat h))
  | _ => None
  end.

(** [preprocess(source, modelWidth, modelHeight)], lines 13-38: the value
    of the [tf.tidy] block and the two ratios it assigns. *)
Definition preprocess (source : frame) (modelWidth modelHeight : nat)
  : option (tensor * Number.number * Number.number) :=
  let img := fromPixels source in
  imgPadded <- pad_to_square img ;;
  xy <- ratios img ;;
  resized <- resizeBilinear imgPadded modelWidth modelHeight ;;
  Some (expandDims0 (div_scalar resized 255), fst xy, snd xy).

(** [lo <= x <= hi]. *)
Definition in_range (lo hi x : Q) : Prop := lo <= x /\ x <= hi.

End Preprocessor.

(** ** The suppressor *)

Module Suppressor.
Import Tensor.

(** [tf.image.nonMaxSuppressionAsync] is a routine of TensorFlow.js; its
    code is not part of the sources, and section 4.3 of the specification
    describes the suppressor as a component of the system.  The
    definitions of this module follow that section. *)

(** A box, [(y1, x1, y2, x2)]. *)
Definition box : Type := (Q * Q * Q * Q)%type.

(** Row [i] of a [n, 4] box tensor. *)
Definition box_row (boxes : tensor) (i : nat) : box :=
  (get boxes (i * 4 + 0), get boxes (i * 4 + 1), get boxes (i * 4 + 2), get boxes (i * 4 + 3)).

Definition Qmax (a b : Q) : Q := if Qle_bool a b then b else a.

Definition Qmin (a b : Q) : Q := if Qle_bool a b then a else b.

Definition area (b : box) : Q :=
  let '(y1, x1, y2, x2) := b in (y2 - y1) * (x2 - x1).

Definition intersection (a b : box) : Q :=
  let '(ay1, ax1, ay2, ax2) := a in
  let '(by1, bx1, by2, bx2) := b in
  Qmax 0 (Qmin ay2 by2 - Qmax ay1 by1) * Qmax 0 (Qmin ax2 bx2 - Qmax ax1 bx1).

(** Modelled from the spec: the glossary's "overlap ratio between two
    boxes' areas", intersection over union; 0 when the union is empty. *)
Definition iou (a b : box) : Q :=
  let i := intersection a b in
  let u := area a + area b - i in
  if Qle_bool u 0 then 0 else i / u.

(** [x < y] on rationals. *)
Definition Qlt_bool (x y : Q) : bool := negb (Qle_bool y x).

(** Modelled from the spec: "discard any detection with
    [score < scoreThreshold]"; the detections that remain, by index. *)
Definition candidates (scores : tensor) (scoreThreshold : Q) : list nat :=
  filter (fun i => negb (Qlt_bool (get scores i) scoreThreshold))
         (seq 0 (length (data scores))).

(** Insertion into a list ordered by descending score; among equal scores
    the one inserted later goes first. *)
Fixpoint insert (scores : tensor) (i : nat) (l : list nat) : list nat :=
  match l with
  | [] => [i]
  | j :: l' =>
      if Qlt_bool (get scores i) (get scores j) then j :: insert scores i l'
      else i :: l
  end.

(** Modelled from the spec: "sort remaining detections by descending
    score", ties resolved by the original index (the indices arrive in
    ascending order and are inserted from the last one down). *)
Definition sort_by_score (scores : tensor) (l : list nat) : list nat :=
  fold_right (insert scores) [] l.

(** Modelled from the spec: "repeatedly select the highest-scoring
    remaining detection, emit its index, then remove from the candidate
    pool every other detection whose IoU with the selected box exceeds
    [iouThreshold]; stop when the pool is empty or [maxOutputs] detections
    have been emitted". *)
Fixpoint select (boxes : tensor) (iouThreshold : Q) (maxOutputs : nat)
  (pool : list nat) : list nat :=
  match maxOutputs with
  | O => []
  | S m =>
      match pool with
      | [] => []
      | i :: rest =>
          i :: select boxes iouThreshold m
                 (filter (fun j => negb (Qlt_bool iouThreshold
                                           (iou (box_row boxes i) (box_row boxes j))))
                         rest)
      end
  end.

(** Modelled from the spec: [tf.image.nonMaxSuppressionAsync], whose code
    is not part of the sources, as the suppressor of section 4.3:
    [suppress(boxes, scores, maxOutputs, iouThreshold, scoreThreshold)]
    returns the selected indices. *)
Definition nonMaxSuppression (boxes scores : tensor) (maxOutputs : nat)
  (iouThreshold scoreThreshold : Q) : list nat :=
  select boxes iouThreshold maxOutputs
         (sort_by_score scores (candidates scores scoreThreshold)).

End Suppressor.

(** ** Numbers of the frame scheduler

    The timestamps and their sums are finite; what the scheduler divides
    can also be zero, so quotients live in the numbers extended by the
    infinities and NaN.  Finite values are exact rationals. *)

Module JsNum.

Inductive jsnum : Type :=
| Finite (q : Q)
| PosInfinity
| NegInfinity
| NotANumber.

Definition Qlt_bool (x y : Q) : bool := negb (Qle_bool y x).

(** [a / b]. *)
Definition div (a b : jsnum) : jsnum :=
  match a, b with
  | NotANumber, _ | _, NotANumber => NotANumber
  | Finite x, Finite y =>
      if Qeq_bool y 0 then
        if Qeq_bool x 0 then NotANumber
        else if Qlt_bool 0 x then PosInfinity else NegInfinity
      else Finite (x / y)
  | Finite _, _ => Finite 0
  | PosInfinity, Finite y => if Qlt_bool y 0 then NegInfinity else PosInfinity
  | NegInfinity, Finite y => if Qlt_bool y 0 then PosInfinity else NegInfinity
  | _, _ => NotANumber
  end.

(** What an element shows after [el.innerHTML = v] for a number [v] that
    is an integer or NaN. *)
Inductive shown : Type :=
| ShownInt (z : Z)
| ShownNaN.

(** Multiply by 10 until at least 1 (at most [fuel] times). *)
Fixpoint scale_up (fuel : nat) (a : Q) : Q :=
  match fuel with
  | O => a
  | S f => if Qle_bool 1 a then a else scale_up f (a * 10)
  end.

(** Divide by 10 until below 10 (at most [fuel] times). *)
Fixpoint scale_down (fuel : nat) (a : Q) : Q :=
  match fuel with
  | O => a
  | S f => if Qlt_bool a 10 then a else scale_down f (a / 10)
  end.

(** The first significant decimal digit of a positive rational. *)
Definition leading_digit (a : Q) : Z :=
  if Qlt_bool a 1
  then Qfloor (scale_up (Pos.to_nat (Pos.size (Qden a))) a)
  else Qfloor (scale_down (S (Z.to_nat (Z.log2 (Qnum a)))) a).

(** [parseInt(v)] for a number [v]: the number is first converted to a
    string, then the longest integer prefix of the string is read.
    Between 1e-6 and 1e21 the string is plain decimal and the prefix is
    the integer part; outside, the string is in exponent notation
    ("5e-7", "1.5e+21") and the prefix is its first digit.  The digit is
    taken from the exact value. *)
Definition parseInt (v : jsnum) : shown :=
  match v with
  | Finite q =>
      let a := Qabs q in
      let sign := if Qlt_bool q 0 then (-1)%Z else 1%Z in
      if Qeq_bool a 0 then ShownInt 0
      else if (Qle_bool (1 # 1000000) a && Qlt_bool a (inject_Z (10 ^ 21)))%bool
           then ShownInt (sign * Qfloor a)
           else ShownInt (sign * leading_digit a)
  | _ => ShownNaN
  end.

End JsNum.

(** ** The browser and the TensorFlow.js engine as a state *)

Module Runtime.
Import Tensor.

(** A JavaScript exception. *)
Inductive exn : Type :=
| TypeError          (* a property of [null] was read *)
| TfError            (* a TensorFlow.js operation rejected its arguments *)
| AdapterError.      (* the model failed to execute *)

Inductive outcome (A : Type) : Type :=
| Returned (a : A)
| Thrown (e : exn).
Arguments Returned {A} a.
Arguments Thrown {A} e.

(** A tensor object: its engine id and its (immutable) value. *)
Record handle (A : Type) : Type := mkHandle { hid : nat; hval : A }.

(** Calls that leave the program. *)
Inductive event : Type :=
| CallExecute (input : tensor)
| CallNonMaxSuppression (boxes scores : tensor) (maxOutputs : nat)
    (iouThreshold scoreThreshold : Q)
| CallRenderBoxes (landmarks : tensor) (boxes_data scores_data : list Q)
    (xRatio yRatio : Number.number)
| CallClearRect (x y w h : nat)
| CallRequestAnimationFrame
| SetFps (v : JsNum.shown)
| ConsoleLog (ms : Q).

(** The variables of [detectVideo] that [detectFrame] closes over. *)
Record session : Type := mkSession {
  startInferenceTime : Q;
  endInferenceTime : Q;
  inferenceTimeSum : Q;
  numInferences : nat;
  lastFpsRefresh : Q }.

Record world : Type := mkWorld {
  next_id : nat;                (* id of the next tensor *)
  scopes : list (list nat);     (* engine scope stack: live tensors tracked by each scope *)
  untracked : list nat;         (* live tensors made while no scope was open *)
  trace : list event;           (* calls so far, latest first *)
  requested_frames : nat;       (* pending [requestAnimationFrame] callbacks *)
  fps_text : JsNum.shown;       (* [fpsRef.innerHTML] *)
  timer : nat -> Q;             (* successive readings of [performance.now()] *)
  timer_reads : nat;
  vars : session }.

Definition set_engine (n : nat) (sc : list (list nat)) (u : list nat) (w : world) : world :=
  mkWorld n sc u (trace w) (requested_frames w) (fps_text w) (timer w) (timer_reads w) (vars w).

Definition set_trace (t : list event) (w : world) : world :=
  mkWorld (next_id w) (scopes w) (untracked w) t (requested_frames w) (fps_text w)
          (timer w) (timer_reads w) (vars w).

Definition set_requested_frames (n : nat) (w : world) : world :=
  mkWorld (next_id w) (scopes w) (untracked w) (trace w) n (fps_text w)
          (timer w) (timer_reads w) (vars w).

Definition set_fps_text (v : JsNum.shown) (w : world) : world :=
  mkWorld (next_id w) (scopes w) (untracked w) (trace w) (requested_frames w) v
          (timer w) (timer_reads w) (vars w).

Definition set_timer_reads (n : nat) (w : world) : world :=
  mkWorld (next_id w) (scopes w) (untracked w) (trace w) (requested_frames w) (fps_text w)
          (timer w) n (vars w).

Definition set_vars (s : session) (w : world) : world :=
  mkWorld (next_id w) (scopes w) (untracked w) (trace w) (requested_frames w) (fps_text w)
          (timer w) (timer_reads w) s.

(** *** Computations *)
Definition M (A : Type) : Type := world -> outcome A * world.

Definition ret {A} (a : A) : M A := fun w => (Returned a, w).

Definition bind {A B} (c : M A) (k : A -> M B) : M B :=
  fun w => match c w with
           | (Returned a, w') => k a w'
           | (Thrown e, w') => (Thrown e, w')
           end.

Definition throw {A} (e : exn) : M A := fun w => (Thrown e, w).

Local Notation "x <- c ;; k" := (bind c (fun x => k))
  (at level 61, c at next level, right associativity).

Local Notation "c ;; k" := (bind c (fun _ => k))
  (at level 61, right associativity).

Definition emit (e : event) : M unit :=
  fun w => (Returned tt, set_trace (e :: trace w) w).

(** *** The engine: tensors and scopes *)
(** A new tensor is tracked by the innermost open scope. *)
Definition track (id : nat) (sc : list (list nat)) (u : list nat)
  : list (list nat) * list nat :=
  match sc with
  | [] => ([], id :: u)
  | top :: rest => ((id :: top) :: rest, u)
  end.

Definition alloc {A} (v : A) : M (handle A) :=
  fun w => let id := next_id w in
           let '(sc, u) := track id (scopes w) (untracked w) in
           (Returned (mkHandle id v), set_engine (S id) sc u w).

(** [k] intermediate tensors. *)
Fixpoint temporaries (k : nat) : M unit :=
  match k with
  | O => ret tt
  | S k' => _ <- alloc tt ;; temporaries k'
  end.

(** A tensor operation that makes [k] intermediate tensors and then its
    result, or is rejected. *)
Definition compute {A} (k : nat) (v : option A) : M (handle A) :=
  temporaries k ;;
  match v with
  | Some a => alloc a
  | None => throw TfError
  end.

(** [tf.engine().startScope()]. *)
Definition startScope : M unit :=
  fun w => (Returned tt, set_engine (next_id w) ([] :: scopes w) (untracked w) w).

Definition mem (id : nat) (l : list nat) : bool := existsb (Nat.eqb id) l.

(** [tf.engine().endScope(result)]: the innermost scope is closed and its
    tensors are disposed, except those of the result, which pass to the
    enclosing scope. *)
Definition endScope (keep : list nat) : M unit :=
  fun w => match scopes w with
           | [] => (Returned tt, w)
           | top :: rest =>
               let kept := filter (fun id => mem id top) keep in
               let '(sc, u) := fold_right (fun id p => track id (fst p) (snd p))
                                          (rest, untracked w) kept in
               (Returned tt, set_engine (next_id w) sc u w)
           end.

(** [tf.tidy(fn)]: [fn] runs in a scope of its own, closed also when
    [fn] throws. *)
Definition tidy {A} (body : M (handle A)) : M (handle A) :=
  fun w => match (startScope ;; body) w with
           | (Returned h, w') => (Returned h, snd (endScope [hid h] w'))
           | (Thrown e, w') => (Thrown e, snd (endScope [] w'))
           end.

Definition remove_ids (ids : list nat) (l : list nat) : list nat :=
  filter (fun x => negb (mem x ids)) l.

(** [tf.dispose(tensors)]. *)
Definition dispose (ids : list nat) : M unit :=
  fun w => (Returned tt,
            set_engine (next_id w) (map (remove_ids ids) (scopes w))
                       (remove_ids ids (untracked w)) w).

(** Tensors alive in the engine. *)
Definition live (w : world) : list nat := concat (scopes w) ++ untracked w.

(** Every live tensor was made before [next_id]. *)
Definition fresh (w : world) : Prop :=
  Forall (Forall (fun id => (id < next_id w)%nat)) (scopes w) /\
  Forall (fun id => (id < next_id w)%nat) (untracked w).

End Runtime.

(** ** [detect.js] *)

Module Detect.
Import Tensor Runtime.

Local Notation "x <- c ;; k" := (bind c (fun x => k))
  (at level 61, c at next level, right associativity).

Local Notation "c ;; k" := (bind c (fun _ => k))
  (at level 61, right associativity).

(** The model state of [App.jsx]: the loaded graph model, or [null], and
    its input shape.  The network itself is a black box from the input
    tensor to the raw output or an exception. *)
Record model : Type := mkModel {
  net : option (tensor -> outcome tensor);
  inputShape : list nat }.

(** The initial state of [App.jsx], before the model is loaded. *)
Definition initial_model : model := mkModel None [1; 0; 0; 3]%nat.

Record canvas : Type := mkCanvas { canvas_width : nat; canvas_height : nat }.

(** A video element at one instant: the picture it shows and whether a
    media stream is attached. *)
Record video : Type := mkVideo {
  picture : Preprocessor.frame;
  srcObject : option unit }.

Definition videoWidth (v : video) : nat := Preprocessor.width (picture v).

Definition FPSUpdateMilliseconds : Q := 1000.

(** [preprocess], lines 13-38: the [tf.tidy] block makes four intermediate
    tensors (pixels, padded, resized, normalised) and the batched result. *)
Definition preprocess (source : Preprocessor.frame) (modelWidth modelHeight : nat)
  : M (handle tensor * Number.number * Number.number) :=
  match Preprocessor.preprocess source modelWidth modelHeight with
  | Some (t, xRatio, yRatio) =>
      input <- tidy (compute 4 (Some t)) ;;
      ret (input, xRatio, yRatio)
  | None =>
      _ <- tidy (compute 4 (@None tensor)) ;; throw TfError
  end.

(** [model.net.execute(input)]. *)
Definition execute (m : model) (input : handle tensor) : M (handle tensor) :=
  match net m with
  | None => throw TypeError
  | Some f =>
      emit (CallExecute (hval input)) ;;
      match f (hval input) with
      | Returned raw => alloc raw
      | Thrown e => throw e
      end
  end.

(** [await tf.image.nonMaxSuppressionAsync(boxes, scores, k, iou, score)]. *)
Definition nonMaxSuppressionAsync (boxes scores : handle tensor) (maxOutputs : nat)
  (iouThreshold scoreThreshold : Q) : M (handle (list nat)) :=
  emit (CallNonMaxSuppression (hval boxes) (hval scores) maxOutputs
                              iouThreshold scoreThreshold) ;;
  alloc (Suppressor.nonMaxSuppression (hval boxes) (hval scores) maxOutputs
                                      iouThreshold scoreThreshold).

(** [t.gather(nms, 0).dataSync()]: one tensor is made, its buffer read. *)
Definition gathered (v : option (list Q)) : M (list Q) :=
  h <- compute 0 v ;; ret (hval h).

(** Modelled from the spec: [renderBoxes] lives in [utils/renderBox.js],
    which is not among the sources; by section 6 it is the rendering
    collaborator that receives the keypoints, boxes, scores and ratios and
    draws them.  The model records the call. *)
Definition renderBoxes (canvasRef : canvas) (landmarks_data : handle tensor)
  (boxes_data scores_data : list Q) (xRatio yRatio : Number.number) : M unit :=
  emit (CallRenderBoxes (hval landmarks_data) boxes_data scores_data xRatio yRatio).

(** [detect(source, model, canvasRef, callback)], lines 47-99. *)
Definition detect (source : Preprocessor.frame) (m : model) (canvasRef : canvas)
  (callback : M unit) : M unit :=
  let modelWidth := nth 1 (inputShape m) 0%nat in
  let modelHeight := nth 2 (inputShape m) 0%nat in
  startScope ;;
  r <- preprocess source modelWidth modelHeight ;;
  let '(input, xRatio, yRatio) := r in
  res <- execute m input ;;
  transRes <- compute 0 (transpose021 (hval res)) ;;
  boxes <- tidy (compute 11 (Decoder.decode_boxes (hval transRes))) ;;
  scores <- tidy (compute 1 (Decoder.decode_scores (hval transRes))) ;;
  landmarks <- tidy (compute 1 (Decoder.decode_landmarks (hval transRes))) ;;
  nms <- nonMaxSuppressionAsync boxes scores 10 (45 # 100) (3 # 10) ;;
  boxes_data <- gathered (Decoder.boxes_data (hval boxes) (hval nms)) ;;
  scores_data <- gathered (Decoder.scores_data (hval scores) (hval nms)) ;;
  landmarks_data <- compute 1 (Decoder.landmarks_data (hval landmarks) (hval nms)) ;;
  renderBoxes canvasRef landmarks_data boxes_data scores_data xRatio yRatio ;;
  dispose [hid res; hid transRes; hid boxes; hid scores; hid nms] ;;
  callback ;;
  endScope [].

(** [(performance || Date).now()]. *)
Definition now : M Q :=
  fun w => (Returned (timer w (timer_reads w)), set_timer_reads (S (timer_reads w)) w).

Definition get_vars : M session := fun w => (Returned (vars w), w).

Definition put_vars (s : session) : M unit := fun w => (Returned tt, set_vars s w).

(** [fpsRef.innerHTML = v]. *)
Definition set_fps (v : JsNum.shown) : M unit :=
  fun w => (Returned tt, set_trace (SetFps v :: trace w) (set_fps_text v w)).

(** [requestAnimationFrame(detectFrame)]. *)
Definition requestAnimationFrame : M unit :=
  fun w => (Returned tt,
            set_trace (CallRequestAnimationFrame :: trace w)
                      (set_requested_frames (S (requested_frames w)) w)).

Definition is_null {A} (o : option A) : bool :=
  match o with None => true | Some _ => false end.

(** [detectFrame], lines 119-145. *)
Definition detectFrame (vidSource : video) (m : model) (canvasRef : canvas) : M unit :=
  if ((videoWidth vidSource =? 0)%nat && is_null (srcObject vidSource))%bool then
    emit (CallClearRect 0 0 (canvas_width canvasRef) (canvas_height canvasRef))
  else
    t0 <- now ;;
    s <- get_vars ;;
    put_vars (mkSession t0 (endInferenceTime s) (inferenceTimeSum s)
                        (numInferences s) (lastFpsRefresh s)) ;;
    detect (picture vidSource) m canvasRef requestAnimationFrame ;;
    t1 <- now ;;
    s <- get_vars ;;
    let s1 := mkSession (startInferenceTime s) t1
                        (inferenceTimeSum s + (t1 - startInferenceTime s))
                        (S (numInferences s)) (lastFpsRefresh s) in
    put_vars s1 ;;
    emit (ConsoleLog (endInferenceTime s1 - startInferenceTime s1)) ;;
    if Qle_bool FPSUpdateMilliseconds (endInferenceTime s1 - lastFpsRefresh s1) then
      let averageInferenceTime :=
        JsNum.div (JsNum.Finite (inferenceTimeSum s1))
                  (JsNum.Finite (Preprocessor.Qnat (numInferences s1))) in
      put_vars (mkSession (startInferenceTime s1) (endInferenceTime s1) 0 0
                          (endInferenceTime s1)) ;;
      set_fps (JsNum.parseInt (JsNum.div (JsNum.Finite 1000) averageInferenceTime))
    else ret tt.

(** [detectVideo], lines 107-148: fresh variables, the metric set to 0,
    and the first frame. *)
Definition detectVideo (vidSource : video) (m : model) (canvasRef : canvas) : M unit :=
  put_vars (mkSession 0 0 0 0 0) ;;
  set_fps (JsNum.ShownInt 0) ;;
  detectFrame vidSource m canvasRef.

(** The browser runs one requested callback per animation frame, each
    seeing the video element as it is then; an exception in a callback
    ends that callback only.  With nothing requested, nothing runs. *)
Fixpoint animation_frames (snapshots : list video) (m : model) (canvasRef : canvas)
  (w : world) : world :=
  match snapshots with
  | [] => w
  | v :: rest =>
      match requested_frames w with
      | O => w
      | S n =>
          animation_frames rest m canvasRef
            (snd (detectFrame v m canvasRef (set_requested_frames n w)))
      end
  end.

(** A whole session: the play event, then the animation frames. *)
Definition stream (first : video) (snapshots : list video) (m : model)
  (canvasRef : canvas) (w : world) : world :=
  animation_frames snapshots m canvasRef (snd (detectVideo first m canvasRef w)).

End Detect.

(** ** [App.jsx] *)

Module App.
Import Tensor Runtime Detect.

Local Notation "x <- c ;; k" := (bind c (fun x => k))
  (at level 61, c at next level, right associativity).

Local Notation "c ;; k" := (bind c (fun _ => k))
  (at level 61, right associativity).

(** The [loading] state and the [model] state of the component (its
    third state, the model name, is only displayed). *)
Record state : Type := mkState {
  loading : bool;
  progress : Q;
  model : Detect.model }.

(** What [useState] starts from. *)
Definition initial : state := mkState true 0 initial_model.

(** The canvas element: its width and height attributes are entries 1 and
    2 of the model state's input shape. *)
Definition canvasRef (st : state) : canvas :=
  mkCanvas (nth 1 (inputShape (model st)) 0%nat) (nth 2 (inputShape (model st)) 0%nat).

(** [onLoad] of the image element: [detect] with its default callback,
    which does nothing. *)
Definition onLoad (img : Preprocessor.frame) (st : state) : M unit :=
  detect img (model st) (canvasRef st) (ret tt).

(** [onPlay] of either video element. *)
Definition onPlay (vid : video) (st : state) : M unit :=
  detectVideo vid (model st) (canvasRef st).

(** A graph model as [tf.loadGraphModel] delivers it: the shape of its
    first input and its [execute] method. *)
Record graph : Type := mkGraph {
  inputs_shape : list nat;
  graph_execute : tensor -> outcome tensor }.

(** [tf.ones(shape)]. *)
Definition ones (sh : list nat) : tensor := mk sh (repeat 1 (numel sh)).

(** Lines 43-54, what follows the loading of the model: the warm-up run,
    the two state updates, the log of entry 4000 of the warm-up output
    ([undefined], here [None], when the output is shorter) and the release
    of the two tensors.  The computation returns the new states and the
    value logged. *)
Definition warmup (yolov8 : graph) : M (state * option Q) :=
  let m := mkModel (Some (graph_execute yolov8)) (inputs_shape yolov8) in
  dummyInput <- alloc (ones (inputs_shape yolov8)) ;;
  warmupResults <- execute m dummyInput ;;
  let st := mkState false 1 m in
  let logged := nth_error (dataSync (hval warmupResults)) 4000 in
  dispose [hid warmupResults; hid dummyInput] ;;
  ret (st, logged).

(** The states once the callback of [tf.ready()] has run from line 43 on,
    [st] being the states when the model had just been loaded: when the
    warm-up throws, nothing handles the rejection and the states keep
    their values. *)
Definition after_ready (yolov8 : graph) (st : state) (w : world) : state * world :=
  match warmup yolov8 w with
  | (Returned (st', _), w') => (st', w')
  | (Thrown _, w') => (st, w')
  end.

End App.

(** ** Vocabulary for statements about [detect] *)

Module DetectSpec.
Import Tensor Runtime Detect.
Local Open Scope nat_scope.

(** The values one successful detection goes through. *)
Record values : Type := mkValues {
  v_input : tensor;  v_xRatio : Number.number;  v_yRatio : Number.number;
  v_res : tensor;  v_transRes : tensor;
  v_boxes : tensor;  v_scores : tensor;  v_landmarks : tensor;
  v_nms : list nat;
  v_boxes_data : list Q;  v_scores_data : list Q;  v_landmarks_data : tensor }.

Record valid_run (source : Preprocessor.frame) (m : model) (v : values) : Prop := {
  ok_preprocess :
    Preprocessor.preprocess source (nth 1 (inputShape m) 0) (nth 2 (inputShape m) 0)
    = Some (v_input v, v_xRatio v, v_yRatio v);
  ok_execute : exists f, net m = Some f /\ f (v_input v) = Returned (v_res v);
  ok_transpose : transpose021 (v_res v) = Some (v_transRes v);
  ok_boxes : Decoder.decode_boxes (v_transRes v) = Some (v_boxes v);
  ok_scores : Decoder.decode_scores (v_transRes v) = Some (v_scores v);
  ok_landmarks : Decoder.decode_landmarks (v_transRes v) = Some (v_landmarks v);
  ok_nms : v_nms v = Suppressor.nonMaxSuppression (v_boxes v) (v_scores v)
                       10 (45 # 100) (3 # 10);
  ok_boxes_data : Decoder.boxes_data (v_boxes v) (v_nms v) = Some (v_boxes_data v);
  ok_scores_data : Decoder.scores_data (v_scores v) (v_nms v) = Some (v_scores_data v);
  ok_landmarks_data :
    Decoder.landmarks_data (v_landmarks v) (v_nms v) = Some (v_landmarks_data v) }.

(** The three calls a successful detection makes before the callback,
    latest first. *)
Definition calls (v : values) : list event :=
  [CallRenderBoxes (v_landmarks_data v) (v_boxes_data v) (v_scores_data v)
                   (v_xRatio v) (v_yRatio v);
   CallNonMaxSuppression (v_boxes v) (v_scores v) 10 (45 # 100) (3 # 10);
   CallExecute (v_input v)].

(** A loaded pose model: on every input the network returns a raw
    output of shape [[1, 56, n]] (4 box values, 1 score and 17 x 3 keypoint
    values for each of [n] detections, [n] other than 1). *)
Definition pose_model (m : model) : Prop :=
  exists f, net m = Some f /\
    forall t, exists raw n, f t = Returned raw /\ shape raw = [1; 56; n] /\ n <> 1.

(** Calls that [detect] makes: the model, the suppressor with its fixed
    parameters, the renderer, and the next animation frame. *)
Definition detect_event (e : event) : Prop :=
  match e with
  | CallExecute _ | CallRenderBoxes _ _ _ _ _ | CallRequestAnimationFrame => True
  | CallNonMaxSuppression _ _ maxOutputs iouThreshold scoreThreshold =>
      maxOutputs = 10 /\ iouThreshold = 45 # 100 /\ scoreThreshold = 3 # 10
  | CallClearRect _ _ _ _ | SetFps _ | ConsoleLog _ => False
  end.

(** [w'] differs from [w] by engine state, requested frames and calls of
    [detect] only: the metric, the timer and the session variables are
    the same. *)
Definition quiet_step (w w' : world) : Prop :=
  fps_text w' = fps_text w /\ vars w' = vars w /\
  timer w' = timer w /\ timer_reads w' = timer_reads w /\
  requested_frames w <= requested_frames w' /\
  exists new, trace w' = new ++ trace w /\ Forall detect_event new.

Definition quiet {A} (c : M A) : Prop := forall w, quiet_step w (snd (c w)).

(** A callback that makes no tensor and touches no scope, like the two
    callbacks of the program. *)
Definition engine_neutral (callback : M unit) : Prop :=
  forall w, scopes (snd (callback w)) = scopes w /\
            untracked (snd (callback w)) = untracked w.

End DetectSpec.

(** ** Vocabulary for statements about the frame scheduler *)

Module SchedulerSpec.
Import Tensor Runtime Detect DetectSpec JsNum.
Local Open Scope Q_scope.

(** The test at the top of [detectFrame]. *)
Definition source_closed (v : video) : bool :=
  ((videoWidth v =? 0)%nat && is_null (srcObject v))%bool.

(** The world when [detect] is entered: the timer read once, the start
    time stored. *)
Definition started (w : world) : world :=
  set_vars (mkSession (timer w (timer_reads w)) (endInferenceTime (vars w))
                      (inferenceTimeSum (vars w)) (numInferences (vars w))
                      (lastFpsRefresh (vars w)))
           (set_timer_reads (S (timer_reads w)) w).

(** The average of the window that ends with this frame, and the metric
    computed from it. *)
Definition window_total (s : session) (t1 : Q) : Q :=
  inferenceTimeSum s + (t1 - startInferenceTime s).

Definition window_fps (s : session) (t1 : Q) : shown :=
  parseInt (div (Finite 1000)
                (div (Finite (window_total s t1))
                     (Finite (Preprocessor.Qnat (S (numInferences s)))))).

(** The world after the part of [detectFrame] that follows [await detect]. *)
Definition measured (w : world) : world :=
  let t1 := timer w (timer_reads w) in
  let s := vars w in
  let log := ConsoleLog (t1 - startInferenceTime s) in
  if Qle_bool FPSUpdateMilliseconds (t1 - lastFpsRefresh s) then
    mkWorld (next_id w) (scopes w) (untracked w)
            (SetFps (window_fps s t1) :: log :: trace w)
            (requested_frames w) (window_fps s t1) (timer w) (S (timer_reads w))
            (mkSession (startInferenceTime s) t1 0 0 t1)
  else
    mkWorld (next_id w) (scopes w) (untracked w) (log :: trace w)
            (requested_frames w) (fps_text w) (timer w) (S (timer_reads w))
            (mkSession (startInferenceTime s) t1 (window_total s t1)
                       (S (numInferences s)) (lastFpsRefresh s)).

Definition no_metric_write (new : list event) : Prop := forall u, ~ In (SetFps u) new.

(** The page when the first frame of a session is processed: the session
    variables at 0 and the metric showing 0. *)
Definition session_start (w : world) : world :=
  mkWorld (next_id w) (scopes w) (untracked w)
          (SetFps (ShownInt 0) :: trace w) (requested_frames w) (ShownInt 0)
          (timer w) (timer_reads w) (mkSession 0 0 0 0 0).

End SchedulerSpec.

(** ** Vocabulary for statements about failures and whole sessions *)

Module ErrorSpec.
Import Tensor Runtime Detect.

(** The calls [detect] makes before it draws. *)
Definition before_render (e : event) : Prop :=
  match e with
  | CallExecute _ => True
  | CallNonMaxSuppression _ _ maxOutputs iouThreshold scoreThreshold =>
      maxOutputs = 10%nat /\ iouThreshold = 45 # 100 /\ scoreThreshold = 3 # 10
  | _ => False
  end.

(** Calls of the model. *)
Definition is_execute (e : event) : bool :=
  match e with CallExecute _ => true | _ => false end.

(** How many times the model has been executed. *)
Definition executions (w : world) : nat := length (filter is_execute (trace w)).

(** A callback that always returns, like the two callbacks of the
    program. *)
Definition returns (callback : M unit) : Prop :=
  forall w, fst (callback w) = Returned tt.

End ErrorSpec.

Module StreamSpec.
Import JsNum.

(** A metric that shows a number which is not negative, or NaN. *)
Definition shown_nonneg (s : shown) : Prop :=
  match s with
  | ShownInt z => (0 <= z)%Z
  | ShownNaN => True
  end.

End StreamSpec.

(** ** Rounded values *)

Module Float32Spec.
Import Float32.

(** The number with sign [s] and magnitude [m * 2 ^ e], for a mantissa
    [m] of at most 24 bits that a rounding may have carried to [2 ^ 24]:
    the carry is renormalised, an exponent above the largest one gives an
    infinity. *)
Definition pack (s : bool) (m e : Z) : float32 :=
  match m with
  | Z0 => S754_zero s
  | Zpos p =>
      if (m =? 16777216)%Z then
        if (e + 1 <=? 104)%Z then S754_finite s 8388608 (e + 1) else S754_infinity s
      else if (e <=? 104)%Z then S754_finite s p e else S754_infinity s
  | Zneg _ => S754_nan
  end.

(** The magnitude [m * 2 ^ e] in units of the smallest positive number,
    [2 ^ -149]. *)
Definition mag (m : positive) (e : Z) : Z := (Zpos m * 2 ^ (e + 149))%Z.

End Float32Spec.

(** ** Concrete inputs *)

Module Examples.
Import Tensor Runtime Detect.

(** A raw output for three detections whose entry [k] is [k]. *)
Definition example_raw : tensor :=
  mk [1; 56; 3]%nat (Index.tabulate 168 (fun k => inject_Z (Z.of_nat k))).

(** A loaded model with a 2 x 2 input that always answers [example_raw]. *)
Definition example_model : model :=
  mkModel (Some (fun _ => Returned example_raw)) [1; 2; 2; 3]%nat.

(** One row of two pixels. *)
Definition example_frame : Preprocessor.frame :=
  Preprocessor.mkFrame 1 2 [x01; x02; x03; x04; x05; x06].

Definition example_video : video := mkVideo example_frame (Some tt).

Definition example_canvas : canvas := mkCanvas 2 2.

(** A page with no tensors, nothing shown and the given timer. *)
Definition example_world (tm : nat -> Q) : world :=
  mkWorld 0 [] [] [] 0 (JsNum.ShownInt 0) tm 0 (mkSession 0 0 0 0 0).

(** A black frame 7 pixels wide and 29 high. *)
Definition frame_7x29 : Preprocessor.frame :=
  Preprocessor.mkFrame 29 7 (repeat x00 609).

(** A frame of width 0 and height 2. *)
Definition frame_0x2 : Preprocessor.frame := Preprocessor.mkFrame 2 0 [].

(** Three detections of 10, 20 and 30 ms inside one second. *)
Definition timer_10_20_30 (k : nat) : Q :=
  nth k [100; 110; 500; 520; 1000; 1030] 0.

(** One detection that starts at 5000 ms and ends 2 000 000 000 ms later. *)
Definition timer_long (k : nat) : Q :=
  match k with O => 5000 | _ => 2000005000 end.

(** A timer too coarse to see the detection: both readings are 5000 ms. *)
Definition timer_coarse (k : nat) : Q := 5000.

(** The single-precision number nearest to [n / d], for integers that
    single precision holds exactly. *)
Definition decimal32 (n d : Z) : Float32.float32 :=
  Float32.div (Float32.of_Z n) (Float32.of_Z d).

(** One detection with centre (320.4, 200.7), width 100.3 and height
    50.1, as single precision holds them. *)
Definition example_row32 : Tensor32.tensor :=
  Tensor32.mk [1; 1; 4]%nat
     [decimal32 3204 10; decimal32 2007 10; decimal32 1003 10; decimal32 501 10].

(** One detection whose centre is not a number, 4 wide and 6 high. *)
Definition example_row32_nan : Tensor32.tensor :=
  Tensor32.mk [1; 1; 4]%nat [S754_nan; S754_nan; Float32.of_Z 4; Float32.of_Z 6].

(** One detection at (10, 20) of infinite width, 6 high. *)
Definition example_row32_wide : Tensor32.tensor :=
  Tensor32.mk [1; 1; 4]%nat [Float32.of_Z 10; Float32.of_Z 20; S754_infinity false; Float32.of_Z 6].

End Examples.

(** * Part II: facts about the program *)

(** ** Row-major index arithmetic *)

Module IndexFacts.
Import Index.

Lemma tabulate_length n f : length (tabulate n f) = n.
Proof. unfold tabulate. now rewrite length_map, length_seq. Qed.

Lemma nth_tabulate n f k : (k < n)%nat -> nth k (tabulate n f) 0 = f k.
Proof.
  intros Hk. unfold tabulate.
  rewrite nth_indep with (d' := f 0%nat) by (now rewrite length_map, length_seq).
  rewrite map_nth, seq_nth; auto.
Qed.

Lemma nth_tabulate_default n f k : (n <= k)%nat -> nth k (tabulate n f) 0 = 0.
Proof. intros Hk. apply nth_overflow. now rewrite tabulate_length. Qed.

(** Decoding [x * r + i] with [i < r]. *)
Lemma div_flat x r i : (i < r)%nat -> ((x * r + i) / r = x)%nat.
Proof.
  intros Hi. rewrite Nat.add_comm, Nat.div_add by lia.
  rewrite Nat.div_small; auto.
Qed.

Lemma mod_flat x r i : (i < r)%nat -> ((x * r + i) mod r = i)%nat.
Proof.
  intros Hi. rewrite Nat.add_comm, Nat.Div0.mod_add.
  now apply Nat.mod_small.
Qed.

Lemma flat_lt x r i n : (x < n)%nat -> (i < r)%nat -> (x * r + i < n * r)%nat.
Proof. intros. nia. Qed.

End IndexFacts.

(** ** What the decoder computes *)

Module DecoderFacts.
Import Index IndexFacts Tensor Decoder.

Lemma get_tab sh n f k : (k < n)%nat -> get (mk sh (tabulate n f)) k = f k.
Proof. intros. unfold get. simpl. now apply nth_tabulate. Qed.

Lemma slice_len_all d : slice_len d 0 (-1) = Some d.
Proof. unfold slice_len. simpl. now rewrite Nat.sub_0_r. Qed.

Lemma slice_len_rest d b : (b <= d)%nat -> slice_len d b (-1) = Some (d - b)%nat.
Proof.
  intros H. unfold slice_len. simpl.
  now replace (b <=? d)%nat with true by (symmetry; apply Nat.leb_le; lia).
Qed.

Lemma slice_len_one d b : (b < d)%nat -> slice_len d b 1 = Some 1%nat.
Proof.
  intros H. unfold slice_len.
  change (1 =? -1)%Z with false. change (0 <=? 1)%Z with true.
  change (Z.to_nat 1) with 1%nat. cbv iota. rewrite andb_true_l.
  now replace (b + 1 <=? d)%nat with true by (symmetry; apply Nat.leb_le; lia).
Qed.

Lemma slice_column t n a c :
  shape t = [1; n; a]%nat -> (c < a)%nat ->
  slice3 t 0 0 c (-1) (-1) 1 = Some (column t n a c).
Proof.
  intros Hs Hc. unfold slice3. rewrite Hs.
  rewrite !slice_len_all, (slice_len_one Hc). reflexivity.
Qed.

Lemma get_column t n a c i :
  (i < n)%nat -> get (column t n a c) i = get t (i * a + c).
Proof.
  intros Hi. unfold column. rewrite get_tab by lia.
  rewrite Nat.mul_1_r, Nat.div_small, Nat.div_1_r, Nat.mod_small, Nat.mod_1_r by lia.
  f_equal. lia.
Qed.

Lemma zip_same op a b :
  shape a = shape b ->
  zip op a b = Some (mk (shape a) (tabulate (numel (shape a))
                                     (fun k => op (get a k) (get b k)))).
Proof.
  intros H. unfold zip. destruct (list_eq_dec Nat.eq_dec (shape a) (shape b)); congruence.
Qed.

Lemma decode_boxes_spec t n a :
  shape t = [1; n; a]%nat -> (4 <= a)%nat ->
  exists bx,
    decode_boxes t = Some bx /\
    shape bx = filter (fun d => negb (d =? 1)%nat) [1; n; 4]%nat /\
    length (data bx) = (n * 4)%nat.
Proof.
  intros Hs Ha. unfold decode_boxes.
  rewrite !(slice_column _ Hs) by lia.
  unfold sub, add. rewrite !zip_same by reflexivity.
  cbn [shape column div_scalar numel fold_right].
  set (w := column t n a 2). set (h := column t n a 3).
  set (cx := column t n a 0). set (cy := column t n a 1).
  set (x1 := mk _ (tabulate _ (fun k => get cx k - _))).
  set (y1 := mk _ (tabulate _ (fun k => get cy k - _))).
  set (y2 := mk _ (tabulate _ (fun k => get y1 k + _))).
  set (x2 := mk _ (tabulate _ (fun k => get x1 k + _))).
  unfold concat2. cbn [shape y1 x1 y2 x2 forallb map last_dim last list_sum].
  rewrite !Nat.eqb_refl. cbn [andb Nat.add list_sum fold_right].
  eexists. split; [reflexivity|]. split; [reflexivity|].
  cbn [squeeze data]. rewrite tabulate_length. lia.
Qed.

Lemma transpose021_spec r a n :
  shape r = [1; a; n]%nat ->
  exists tr,
    transpose021 r = Some tr /\ shape tr = [1; n; a]%nat /\
    forall i c, (i < n)%nat -> (c < a)%nat -> get tr (i * a + c) = get r (c * n + i).
Proof.
  intros Hs. unfold transpose021. rewrite Hs.
  eexists. split; [reflexivity|]. split; [reflexivity|].
  intros i c Hi Hc. rewrite get_tab by nia.
  rewrite mod_flat, div_flat by assumption.
  rewrite (Nat.mod_small i n) by assumption.
  rewrite (Nat.div_small (i * a + c)) by nia.
  reflexivity.
Qed.

Lemma decode_scores_spec t n a :
  shape t = [1; n; a]%nat -> (5 <= a)%nat ->
  exists sc,
    decode_scores t = Some sc /\
    shape sc = filter (fun d => negb (d =? 1)%nat) [1; n; 1]%nat /\
    length (data sc) = n /\
    forall i, (i < n)%nat -> get sc i = get t (i * a + 4).
Proof.
  intros Hs Ha. unfold decode_scores. rewrite (slice_column _ Hs) by lia.
  eexists. split; [reflexivity|]. split; [reflexivity|].
  split; [cbn [squeeze data column]; rewrite tabulate_length; lia|].
  intros i Hi. change (get (squeeze ?x) i) with (get x i).
  now apply get_column.
Qed.

Lemma decode_landmarks_spec t n a :
  shape t = [1; n; a]%nat -> (5 <= a)%nat ->
  exists lm,
    decode_landmarks t = Some lm /\
    shape lm = filter (fun d => negb (d =? 1)%nat) [1; n; a - 5]%nat /\
    length (data lm) = (n * (a - 5))%nat /\
    forall i j, (i < n)%nat -> (j < a - 5)%nat ->
      get lm (i * (a - 5) + j) = get t (i * a + (5 + j)).
Proof.
  intros Hs Ha. unfold decode_landmarks, slice3. rewrite Hs.
  rewrite !slice_len_all, slice_len_rest by lia.
  eexists. split; [reflexivity|]. split; [reflexivity|].
  split; [cbn [squeeze data]; rewrite tabulate_length; lia|].
  intros i j Hi Hj. change (get (squeeze ?x) ?k) with (get x k).
  rewrite get_tab by nia.
  rewrite mod_flat, div_flat by assumption.
  rewrite (Nat.mod_small i n) by assumption.
  rewrite (Nat.div_small (i * (a - 5) + j)) by nia.
  reflexivity.
Qed.

Lemma gather0_spec t d0 rest idx :
  shape t = d0 :: rest -> Forall (fun i => (i < d0)%nat) idx ->
  exists g,
    gather0 t idx = Some g /\ shape g = length idx :: rest /\
    length (data g) = (length idx * numel rest)%nat /\
    forall p q, (p < length idx)%nat -> (q < numel rest)%nat ->
      get g (p * numel rest + q) = get t (nth p idx 0%nat * numel rest + q).
Proof.
  intros Hs Hidx. unfold gather0. rewrite Hs.
  replace (forallb _ idx) with true.
  2:{ symmetry. apply forallb_forall. intros x Hx.
      rewrite Forall_forall in Hidx. apply Nat.ltb_lt. auto. }
  eexists. split; [reflexivity|]. split; [reflexivity|].
  split; [cbn [data]; now rewrite tabulate_length|].
  intros p q Hp Hq. rewrite get_tab by nia.
  now rewrite mod_flat, div_flat by assumption.
Qed.

Lemma squeeze_shape n c :
  n <> 1%nat -> c <> 1%nat ->
  filter (fun d => negb (d =? 1)%nat) [1; n; c]%nat = [n; c]%nat.
Proof.
  intros Hn Hc. cbn.
  apply Nat.eqb_neq in Hn, Hc. now rewrite Hn, Hc.
Qed.

Lemma squeeze_shape1 n :
  n <> 1%nat -> filter (fun d => negb (d =? 1)%nat) [1; n; 1]%nat = [n].
Proof. intros Hn. cbn. apply Nat.eqb_neq in Hn. now rewrite Hn. Qed.

Lemma landmarks_data_spec lm n idx :
  shape lm = [n; 51]%nat -> Forall (fun i => (i < n)%nat) idx ->
  exists kp,
    landmarks_data lm idx = Some kp /\
    shape kp = [length idx; 3; 17]%nat /\
    length (data kp) = (length idx * 51)%nat /\
    forall p q, (p < length idx)%nat -> (q < 51)%nat ->
      get kp (p * 51 + q) = get lm (nth p idx 0%nat * 51 + q).
Proof.
  intros Hs Hidx. unfold landmarks_data.
  destruct (gather0_spec _ Hs Hidx) as (g & -> & Hg & Hlen & Hget).
  change (numel [51%nat]) with 51%nat in *.
  unfold reshape_flat, infer_shape, dataSync.
  change (implicit_scan [-1; 3; 17]%Z 0) with (Some (51%nat, Some 0%nat)).
  cbv iota beta. change (51 =? 0)%nat with false. cbv iota.
  rewrite Hlen, Nat.Div0.mod_mul, Nat.div_mul by lia.
  change (0 =? 0)%nat with true. cbv iota.
  eexists. split; [reflexivity|]. split; [reflexivity|]. split; [exact Hlen|].
  intros p q Hp Hq. apply Hget; assumption.
Qed.

Lemma gather0_data t d0 rest idx :
  shape t = d0 :: rest -> Forall (fun i => (i < d0)%nat) idx ->
  exists g, gather0 t idx = Some g.
Proof. intros Hs Hi. destruct (gather0_spec _ Hs Hi) as (g & -> & _). eauto. Qed.

End DecoderFacts.

(** ** Facts about binary64 used for the ratios *)

Module NumberFacts.
Import Number.

Lemma digits2_pos_iter p k :
  digits2_pos (Pos.iter xO p k) = (digits2_pos p + k)%positive.
Proof.
  revert p. induction k using Pos.peano_ind; intros p.
  - cbn. lia.
  - rewrite Pos.iter_succ. cbn [digits2_pos]. rewrite IHk. lia.
Qed.

Lemma digits2_pos_bound p k :
  (0 <= k)%Z -> (Zpos p < 2 ^ k)%Z -> (Zpos (digits2_pos p) <= k)%Z.
Proof.
  revert k. induction p as [p IH|p IH|]; intros k Hk Hp; cbn [digits2_pos].
  - assert (k <> 0)%Z by (intros ->; cbn in Hp; lia).
    replace k with (Z.succ (k - 1)) in Hp by lia. rewrite Z.pow_succ_r in Hp by lia.
    specialize (IH (k - 1)%Z). lia.
  - assert (k <> 0)%Z by (intros ->; cbn in Hp; lia).
    replace k with (Z.succ (k - 1)) in Hp by lia. rewrite Z.pow_succ_r in Hp by lia.
    specialize (IH (k - 1)%Z). lia.
  - assert (k <> 0)%Z by (intros ->; cbn in Hp; lia). lia.
Qed.

(** A 53-bit mantissa with an exponent in range is already rounded. *)
Lemma binary_round_aux_canonical m e :
  Zpos (digits2_pos m) = 53%Z -> (-1074 <= e <= 971)%Z ->
  binary_round_aux prec emax false (Zpos m) e loc_Exact = S754_finite false m e.
Proof.
  intros Hd He. unfold binary_round_aux, shr_fexp.
  cbn [Zdigits2 shr_record_of_loc]. rewrite Hd.
  replace (fexp prec emax (53 + e)) with e by (unfold fexp, emin, prec, emax; lia).
  rewrite Z.sub_diag. cbn [shr shr_m loc_of_shr_record round_nearest_even Zdigits2].
  rewrite Hd.
  replace (fexp prec emax (53 + e)) with e by (unfold fexp, emin, prec, emax; lia).
  rewrite Z.sub_diag. cbn [shr shr_m].
  replace (e <=? emax - prec)%Z with true; [reflexivity|].
  symmetry. apply Z.leb_le. unfold emax, prec. lia.
Qed.

(** Extents below 2^53 are held exactly, as positive finite numbers. *)
Lemma of_nat_finite n :
  (0 < n)%nat -> (Z.of_nat n < 2 ^ 53)%Z ->
  exists m e, of_nat n = S754_finite false m e.
Proof.
  intros Hn Hb. unfold of_nat, binary_normalize.
  destruct (Z.of_nat n) as [|p|p] eqn:E; try lia.
  pose proof (@digits2_pos_bound p 53 ltac:(lia) Hb) as Hd.
  unfold binary_round, shl_align.
  replace (fexp prec emax (Zpos (digits2_pos p) + 0)) with (Zpos (digits2_pos p) - 53)%Z
    by (unfold fexp, emin, prec, emax; lia).
  rewrite Z.sub_0_r.
  destruct (Zpos (digits2_pos p) - 53)%Z as [|d|d] eqn:Ed; try lia.
  - exists p, 0%Z. apply binary_round_aux_canonical; lia.
  - exists (Pos.iter xO p d), (Zneg d). apply binary_round_aux_canonical; [|lia].
    rewrite digits2_pos_iter. lia.
Qed.

(** A positive finite number divided by itself is exactly 1. *)
Lemma div_self m e :
  div (S754_finite false m e) (S754_finite false m e) = one.
Proof.
  unfold div, SFdiv, SFdiv_core_binary. cbn [xorb Zdigits2].
  rewrite !Z.sub_diag.
  change (Z.min (fexp prec emax 0) 0) with (-53)%Z.
  change (0 - -53)%Z with 53%Z. cbv iota.
  destruct (Z.div_eucl (Z.shiftl (Zpos m) 53) (Zpos m)) as [q r] eqn:E.
  assert (Hq : q = (2 ^ 53)%Z).
  { change q with (fst (q, r)). rewrite <- E.
    change (fst (Z.div_eucl ?a ?b)) with (a / b)%Z.
    rewrite Z.shiftl_mul_pow2, Z.mul_comm by lia. apply Z.div_mul. lia. }
  assert (Hr : r = 0%Z).
  { change r with (snd (q, r)). rewrite <- E.
    change (snd (Z.div_eucl ?a ?b)) with (a mod b)%Z.
    rewrite Z.shiftl_mul_pow2, Z.mul_comm by lia. apply Z.mod_mul. lia. }
  subst q r.
  replace (new_location (Zpos m) 0) with loc_Exact
    by (unfold new_location; destruct (Z.even (Zpos m)); reflexivity).
  reflexivity.
Qed.

Lemma div_of_nat_self n :
  (0 < n)%nat -> (Z.of_nat n < 2 ^ 53)%Z -> div (of_nat n) (of_nat n) = one.
Proof.
  intros Hn Hb. destruct (of_nat_finite Hn Hb) as (m & e & ->). apply div_self.
Qed.

Lemma of_nat_canonical n :
  (0 < n)%nat -> (Z.of_nat n < 2 ^ 53)%Z ->
  exists m e, of_nat n = S754_finite false m e /\
              Zpos (digits2_pos m) = 53%Z /\ (-52 <= e <= 0)%Z.
Proof.
  intros Hn Hb. unfold of_nat, binary_normalize.
  destruct (Z.of_nat n) as [|p|p] eqn:E; try lia.
  pose proof (@digits2_pos_bound p 53 ltac:(lia) Hb) as Hd.
  unfold binary_round, shl_align.
  replace (fexp prec emax (Zpos (digits2_pos p) + 0)) with (Zpos (digits2_pos p) - 53)%Z
    by (unfold fexp, emin, prec, emax; lia).
  rewrite Z.sub_0_r.
  destruct (Zpos (digits2_pos p) - 53)%Z as [|d|d] eqn:Ed; try lia.
  - exists p, 0%Z. split; [apply binary_round_aux_canonical; lia | lia].
  - exists (Pos.iter xO p d), (Zneg d).
    assert (Zpos (digits2_pos (Pos.iter xO p d)) = 53%Z)
      by (rewrite digits2_pos_iter; lia).
    split; [apply binary_round_aux_canonical; lia | lia].
Qed.

Lemma mul_one_canonical m e :
  Zpos (digits2_pos m) = 53%Z -> (-1074 <= e <= 971)%Z ->
  mul one (S754_finite false m e) = S754_finite false m e.
Proof.
  intros Hd He.
  change one with (S754_finite false 4503599627370496 (-52)).
  unfold mul, SFmul. cbn [xorb].
  change (4503599627370496 * m)%positive with (Pos.iter xO m 52).
  unfold binary_round_aux, shr_fexp. cbn [Zdigits2 shr_record_of_loc].
  rewrite digits2_pos_iter.
  replace (fexp prec emax (Zpos (digits2_pos m + 52) + (-52 + e))) with e
    by (unfold fexp, emin, prec, emax; lia).
  replace (e - (-52 + e))%Z with 52%Z by lia.
  cbn [shr Pos.iter iter_pos shr_1 orb shr_m loc_of_shr_record round_nearest_even Zdigits2].
  rewrite Hd.
  replace (-52 + e + 52)%Z with e by lia.
  replace (fexp prec emax (53 + e)) with e by (unfold fexp, emin, prec, emax; lia).
  rewrite Z.sub_diag. cbn [shr shr_m].
  replace (e <=? emax - prec)%Z with true; [reflexivity|].
  symmetry. apply Z.leb_le. unfold emax, prec. lia.
Qed.

Lemma eqb_refl_finite s m e : eqb (S754_finite s m e) (S754_finite s m e) = true.
Proof.
  unfold eqb, SFeqb, SFcompare. rewrite Z.compare_refl, Pos.compare_cont_refl.
  destruct s; reflexivity.
Qed.

(** For an extent below 2^53, [(n / n) * n === n]. *)
Lemma ratio_self_exact n :
  (0 < n)%nat -> (Z.of_nat n < 2 ^ 53)%Z ->
  eqb (mul (div (of_nat n) (of_nat n)) (of_nat n)) (of_nat n) = true.
Proof.
  intros Hn Hb. rewrite div_of_nat_self by assumption.
  destruct (of_nat_canonical Hn Hb) as (m & e & -> & Hd & He).
  rewrite mul_one_canonical by (try assumption; lia).
  apply eqb_refl_finite.
Qed.

End NumberFacts.

(** ** Rounding in single precision *)

Module Float32Facts.
Import Float32 Float32Spec.
Local Open Scope Z_scope.
Local Unset Implicit Arguments.

Lemma pow2_pos k : 0 <= k -> 0 < 2 ^ k.
Proof. intros. apply Z.pow_pos_nonneg; lia. Qed.

Lemma pow2_le a b : a <= b -> 2 ^ a <= 2 ^ b.
Proof. intros. apply Z.pow_le_mono_r; lia. Qed.

Lemma pow2_add a b : 0 <= a -> 0 <= b -> 2 ^ (a + b) = 2 ^ a * 2 ^ b.
Proof. intros. apply Z.pow_add_r; lia. Qed.

Lemma fexp_eq e : fexp prec emax e = Z.max (e - 24) (-149).
Proof. reflexivity. Qed.

Lemma iter_pos_nat (A : Type) (f : A -> A) p x :
  iter_pos f p x = Nat.iter (Pos.to_nat p) f x.
Proof.
  revert x. induction p as [p IH|p IH|]; intros x; cbn [iter_pos].
  - rewrite !IH, <- Nat.iter_add, <- Nat.iter_succ_r. f_equal. lia.
  - rewrite !IH, <- Nat.iter_add. f_equal. lia.
  - reflexivity.
Qed.

Lemma shr_1_m mrs : 0 <= shr_m mrs -> shr_m (shr_1 mrs) = shr_m mrs / 2.
Proof.
  destruct mrs as [m r s]. cbn [shr_m]. intros Hm.
  destruct m as [|[p|p|]|p]; cbn [shr_1 shr_m]; try lia.
  - reflexivity.
  - apply Z.div_unique with (r := 1); lia.
  - apply Z.div_unique with (r := 0); lia.
  - reflexivity.
Qed.

Lemma shr_iter_m k : forall mrs, 0 <= shr_m mrs ->
  shr_m (Nat.iter k shr_1 mrs) = shr_m mrs / 2 ^ Z.of_nat k.
Proof.
  induction k as [|k IH]; intros mrs Hm.
  - cbn. now rewrite Z.div_1_r.
  - rewrite Nat.iter_succ_r, IH.
    + rewrite shr_1_m by assumption.
      rewrite Z.div_div by (try apply pow2_pos; lia).
      rewrite Nat2Z.inj_succ, Z.pow_succ_r by lia. reflexivity.
    + rewrite shr_1_m by assumption. apply Z.div_pos; lia.
Qed.

Lemma shr_1_even m :
  0 <= m -> m mod 2 = 0 ->
  shr_1 (Build_shr_record m false false) = Build_shr_record (m / 2) false false.
Proof.
  intros Hm He. destruct m as [|[p|p|]|p]; cbn [shr_1 orb]; try lia.
  - reflexivity.
  - rewrite Pos2Z.inj_xI in He. rewrite Z.add_comm, Z.mul_comm, Z.mod_add in He by lia.
    discriminate.
  - f_equal. apply Z.div_unique with (r := 0); lia.
  - discriminate.
Qed.

Lemma shr_iter_exact k : forall m, 0 <= m -> m mod 2 ^ Z.of_nat k = 0 ->
  Nat.iter k shr_1 (Build_shr_record m false false)
  = Build_shr_record (m / 2 ^ Z.of_nat k) false false.
Proof.
  induction k as [|k IH]; intros m Hm Hd.
  - cbn. now rewrite Z.div_1_r.
  - rewrite Nat2Z.inj_succ, Z.pow_succ_r in * by lia.
    pose proof (pow2_pos (Z.of_nat k) ltac:(lia)) as Hp.
    apply Z.mod_divide in Hd; [|lia]. destruct Hd as [q Hq].
    assert (H2 : m / 2 = q * 2 ^ Z.of_nat k).
    { symmetry. apply Z.div_unique with (r := 0); lia. }
    rewrite Nat.iter_succ_r, shr_1_even; [| assumption |].
    + rewrite IH.
      * f_equal. rewrite Z.div_div by lia. reflexivity.
      * apply Z.div_pos; lia.
      * rewrite H2. apply Z.mod_mul. lia.
    + apply Z.mod_divide; [lia|]. exists (q * 2 ^ Z.of_nat k). lia.
Qed.

Lemma shr_spec m l e n :
  0 <= m -> 0 <= n ->
  exists mrs,
    shr (shr_record_of_loc m l) e n = (mrs, e + n) /\
    shr_m mrs = m / 2 ^ n /\
    (l = loc_Exact -> m mod 2 ^ n = 0 -> loc_of_shr_record mrs = loc_Exact).
Proof.
  intros Hm Hn. unfold shr. destruct n as [|p|p]; [| |lia].
  - exists (shr_record_of_loc m l). rewrite Z.add_0_r. split; [reflexivity|]. split.
    + destruct l as [|[]]; cbn; now rewrite Z.div_1_r.
    + intros -> _. reflexivity.
  - exists (iter_pos shr_1 p (shr_record_of_loc m l)). split; [reflexivity|].
    rewrite iter_pos_nat. split.
    + rewrite shr_iter_m by (destruct l as [|[]]; exact Hm).
      rewrite positive_nat_Z. destruct l as [|[]]; reflexivity.
    + intros -> Hd. cbn [shr_record_of_loc].
      rewrite shr_iter_exact; [reflexivity | exact Hm | now rewrite positive_nat_Z].
Qed.

Lemma shr_nonpos mrs e n : n <= 0 -> shr mrs e n = (mrs, e).
Proof. intros Hn. unfold shr. destruct n; [reflexivity | lia | reflexivity]. Qed.

Lemma digits2_pos_spec p :
  2 ^ (Zpos (digits2_pos p) - 1) <= Zpos p < 2 ^ Zpos (digits2_pos p).
Proof.
  induction p as [p IH|p IH|]; cbn [digits2_pos]; rewrite ?Pos2Z.inj_succ.
  - replace (Z.succ (Zpos (digits2_pos p)) - 1) with (Z.succ (Zpos (digits2_pos p) - 1)) by lia.
    rewrite !Z.pow_succ_r by lia. lia.
  - replace (Z.succ (Zpos (digits2_pos p)) - 1) with (Z.succ (Zpos (digits2_pos p) - 1)) by lia.
    rewrite !Z.pow_succ_r by lia. lia.
  - cbn. lia.
Qed.

Lemma Zdigits2_spec m :
  0 < m -> 0 < Zdigits2 m /\ 2 ^ (Zdigits2 m - 1) <= m < 2 ^ Zdigits2 m.
Proof.
  intros Hm. destruct m as [|p|p]; try lia. cbn [Zdigits2].
  split; [lia | apply digits2_pos_spec].
Qed.

Lemma Zdigits2_nonneg m : 0 <= Zdigits2 m.
Proof. destruct m; cbn; lia. Qed.

Lemma Zdigits2_le m k : 0 <= m -> 0 <= k -> m < 2 ^ k -> Zdigits2 m <= k.
Proof.
  intros Hm Hk Hlt. destruct m as [|p|p]; try lia; cbn [Zdigits2]; [lia|].
  now apply NumberFacts.digits2_pos_bound.
Qed.

Lemma Zdigits2_ge m k : 0 < m -> 2 ^ (k - 1) <= m -> k <= Zdigits2 m.
Proof.
  intros Hm Hk. destruct (Zdigits2_spec m Hm) as (Hd & _ & Hlt).
  destruct (Z_le_gt_dec k (Zdigits2 m)) as [|Hgt]; [assumption|].
  pose proof (pow2_le (Zdigits2 m) (k - 1) ltac:(lia)). lia.
Qed.

Lemma bounded_iff p e :
  bounded prec emax p e = true <->
  Z.max (Zpos (digits2_pos p) + e - 24) (-149) = e /\ e <= 104.
Proof.
  unfold bounded, canonical_mantissa. rewrite andb_true_iff, Z.eqb_eq, Z.leb_le.
  rewrite fexp_eq. change (emax - prec) with 104. reflexivity.
Qed.

Lemma bounded_mantissa p e :
  bounded prec emax p e = true ->
  -149 <= e <= 104 /\ Zpos p < 2 ^ 24 /\ (-149 < e -> 2 ^ 23 <= Zpos p).
Proof.
  intros H. apply bounded_iff in H as [Hc He].
  pose proof (digits2_pos_spec p) as [Hlo Hhi].
  split; [lia|]. split.
  - pose proof (pow2_le (Zpos (digits2_pos p)) 24 ltac:(lia)). lia.
  - intros Hn. replace (Zpos (digits2_pos p) - 1) with 23 in Hlo by lia. exact Hlo.
Qed.

Lemma mag_pos p e : -149 <= e -> 0 < mag p e.
Proof. intros. unfold mag. pose proof (pow2_pos (e + 149) ltac:(lia)). nia. Qed.

Lemma mag_small p e :
  bounded prec emax p e = true -> mag p e < 2 ^ 24 * 2 ^ (e + 149).
Proof.
  intros H. apply bounded_mantissa in H as (He & Hp & _).
  unfold mag. pose proof (pow2_pos (e + 149) ltac:(lia)). nia.
Qed.

Lemma mag_big p e :
  bounded prec emax p e = true -> -149 < e -> 2 ^ 23 * 2 ^ (e + 149) <= mag p e.
Proof.
  intros H Hn. apply bounded_mantissa in H as (He & _ & Hp). specialize (Hp Hn).
  unfold mag. pose proof (pow2_pos (e + 149) ltac:(lia)). nia.
Qed.

(** Among numbers in canonical form, the order of the magnitudes is the
    order of the pairs (exponent, mantissa). *)
Lemma canonical_order p1 e1 p2 e2 :
  bounded prec emax p1 e1 = true -> bounded prec emax p2 e2 = true ->
  mag p1 e1 <= mag p2 e2 ->
  e1 < e2 \/ (e1 = e2 /\ (p1 <= p2)%positive).
Proof.
  intros H1 H2 Hle.
  destruct (Z.lt_trichotomy e1 e2) as [Hlt|[Heq|Hgt]].
  - now left.
  - right. split; [assumption|]. subst e2. unfold mag in Hle.
    apply bounded_mantissa in H1 as (He & _).
    pose proof (pow2_pos (e1 + 149) ltac:(lia)). nia.
  - exfalso. pose proof (bounded_mantissa _ _ H2) as (He2 & _).
    pose proof (mag_small _ _ H2). pose proof (mag_big p1 e1 H1 ltac:(lia)).
    pose proof (pow2_pos (e2 + 149) ltac:(lia)).
    replace (e1 + 149) with (e1 - e2 - 1 + 1 + (e2 + 149)) in * by lia.
    rewrite !pow2_add in * by lia.
    pose proof (pow2_pos (e1 - e2 - 1) ltac:(lia)).
    change (2 ^ 1) with 2 in *. change (2 ^ 24) with (2 * 2 ^ 23) in *.
    nia.
Qed.

Lemma leb_pos p1 e1 p2 e2 :
  bounded prec emax p1 e1 = true -> bounded prec emax p2 e2 = true ->
  mag p1 e1 <= mag p2 e2 ->
  leb (S754_finite false p1 e1) (S754_finite false p2 e2) = true.
Proof.
  intros H1 H2 Hle. unfold leb, SFleb, SFcompare.
  destruct (canonical_order _ _ _ _ H1 H2 Hle) as [Hlt|[-> Hp]].
  - apply Z.compare_lt_iff in Hlt. now rewrite Hlt.
  - rewrite Z.compare_refl. change (Pos.compare_cont Eq p1 p2) with (p1 ?= p2)%positive.
    destruct (p1 ?= p2)%positive eqn:E; try reflexivity.
    apply Pos.compare_gt_iff, Pos.lt_nle in E. contradiction.
Qed.

Lemma leb_neg p1 e1 p2 e2 :
  bounded prec emax p1 e1 = true -> bounded prec emax p2 e2 = true ->
  mag p2 e2 <= mag p1 e1 ->
  leb (S754_finite true p1 e1) (S754_finite true p2 e2) = true.
Proof.
  intros H1 H2 Hle. unfold leb, SFleb, SFcompare.
  destruct (canonical_order _ _ _ _ H2 H1 Hle) as [Hlt|[-> Hp]].
  - apply Z.compare_gt_iff in Hlt. now rewrite Hlt.
  - rewrite Z.compare_refl. change (Pos.compare_cont Eq p1 p2) with (p1 ?= p2)%positive.
    destruct (p1 ?= p2)%positive eqn:E; try reflexivity.
    apply Pos.compare_lt_iff, Pos.lt_nle in E. contradiction.
Qed.

Lemma leb_refl x : x <> S754_nan -> leb x x = true.
Proof.
  intros Hx. unfold leb, SFleb, SFcompare. destruct x as [s|s| |s m e].
  - reflexivity.
  - now destruct s.
  - congruence.
  - rewrite Z.compare_refl, Pos.compare_cont_refl. now destruct s.
Qed.

(** *** Rounding *)

Lemma binary_round_aux_spec s mx ex lx :
  0 <= mx -> ex <= fexp prec emax (Zdigits2 mx + ex) ->
  let E := fexp prec emax (Zdigits2 mx + ex) in
  let m1 := mx / 2 ^ (E - ex) in
  exists m2,
    m1 <= m2 <= m1 + 1 /\
    (lx = loc_Exact -> mx mod 2 ^ (E - ex) = 0 -> m2 = m1) /\
    0 <= m1 < 2 ^ 24 /\ (-149 < E -> 2 ^ 23 <= m1) /\
    binary_round_aux prec emax s mx ex lx = pack s m2 E.
Proof.
  intros Hm He E m1.
  assert (HE : -149 <= E) by (unfold E; rewrite fexp_eq; lia).
  pose proof (pow2_pos (E - ex) ltac:(lia)) as Hpow.
  destruct (shr_spec mx lx ex (E - ex) Hm ltac:(lia)) as (mrs & Hshr & Hsm & Hex).
  replace (ex + (E - ex)) with E in Hshr by lia.
  fold m1 in Hsm.
  assert (Hm1 : 0 <= m1 < 2 ^ 24 /\ (-149 < E -> 2 ^ 23 <= m1)).
  { destruct (Z.eq_dec mx 0) as [->|Hnz].
    - unfold m1. rewrite Z.div_0_l by lia. split; [cbn; lia|].
      unfold E. cbn [Zdigits2] in *. rewrite fexp_eq in *. lia.
    - destruct (Zdigits2_spec mx ltac:(lia)) as (Hd & Hlo & Hhi).
      unfold m1, E in *. rewrite fexp_eq in *.
      set (d := Zdigits2 mx) in *. set (n := Z.max (d + ex - 24) (-149) - ex) in *.
      split; [split|].
      + apply Z.div_pos; lia.
      + apply Z.div_lt_upper_bound; [lia|].
        pose proof (pow2_le d (n + 24) ltac:(lia)).
        rewrite pow2_add in * by lia. lia.
      + intros Hn. apply Z.div_le_lower_bound; [lia|].
        replace (d - 1) with (n + 23) in Hlo by lia.
        rewrite pow2_add in Hlo by lia. lia. }
  exists (round_nearest_even (shr_m mrs) (loc_of_shr_record mrs)).
  set (m2 := round_nearest_even (shr_m mrs) (loc_of_shr_record mrs)).
  assert (H12 : m1 <= m2 <= m1 + 1).
  { unfold m2, round_nearest_even. rewrite Hsm.
    destruct (loc_of_shr_record mrs) as [|[]]; try destruct (Z.even m1); lia. }
  split; [exact H12|]. split.
  { intros Hl Hd. unfold m2. rewrite (Hex Hl Hd). exact Hsm. }
  split; [apply Hm1|]. split; [apply Hm1|].
  unfold binary_round_aux, shr_fexp. fold E. rewrite Hshr. fold m2.
  destruct (Z.eq_dec m2 16777216) as [Heq|Hne].
  - rewrite Heq. cbn [Zdigits2 digits2_pos Pos.succ].
    rewrite fexp_eq. replace (Z.max (25 + E - 24) (-149) - E) with 1 by lia.
    cbn. change (emax - prec) with 104. reflexivity.
  - assert (Hlt : m2 < 2 ^ 24) by (change (2 ^ 24) with 16777216 in *; lia).
    rewrite shr_nonpos.
    + cbn [shr_record_of_loc shr_m]. unfold pack.
      destruct m2 as [|p|p]; [reflexivity| |lia].
      apply Z.eqb_neq in Hne. rewrite Hne. change (emax - prec) with 104. reflexivity.
    + pose proof (Zdigits2_le m2 24 ltac:(lia) ltac:(lia) Hlt).
      rewrite fexp_eq. lia.
Qed.

Lemma pack_valid s m E :
  -149 <= E -> 0 <= m <= 2 ^ 24 -> (-149 < E -> 2 ^ 23 <= m) ->
  is_value (pack s m E) = true /\ pack s m E <> S754_nan.
Proof.
  intros HE Hm Hbig. unfold pack.
  destruct m as [|p|p]; [split; [reflexivity | discriminate] | | lia].
  destruct (Zpos p =? 16777216) eqn:Heq.
  - destruct (E + 1 <=? 104) eqn:Hle; [|split; [reflexivity | discriminate]].
    split; [|discriminate]. apply Z.leb_le in Hle.
    unfold is_value, valid_binary. apply bounded_iff.
    change (Zpos (digits2_pos 8388608)) with 24. lia.
  - destruct (E <=? 104) eqn:Hle; [|split; [reflexivity | discriminate]].
    split; [|discriminate]. apply Z.leb_le in Hle. apply Z.eqb_neq in Heq.
    unfold is_value, valid_binary. apply bounded_iff.
    change (2 ^ 24) with 16777216 in Hm.
    pose proof (@NumberFacts.digits2_pos_bound p 24 ltac:(lia)
                  ltac:(change (2 ^ 24) with 16777216; lia)) as Hd.
    split; [|exact Hle].
    destruct (Z.eq_dec E (-149)) as [->|Hn]; [lia|].
    pose proof (Zdigits2_ge (Zpos p) 24 ltac:(lia) (Hbig ltac:(lia))) as Hd'.
    cbn [Zdigits2] in Hd'. lia.
Qed.

Lemma iter_xO_mul m d : Zpos (Pos.iter xO m d) = Zpos m * 2 ^ Zpos d.
Proof.
  induction d as [|d IH] using Pos.peano_ind.
  - cbn. lia.
  - rewrite Pos.iter_succ, Pos2Z.inj_xO, IH, Pos2Z.inj_succ, Z.pow_succ_r by lia. lia.
Qed.

Lemma shl_align_spec m e e' :
  exists mz ez,
    shl_align m e e' = (mz, ez) /\ ez = Z.min e e' /\
    Zpos mz = Zpos m * 2 ^ (e - ez) /\
    Zpos (digits2_pos mz) + ez = Zpos (digits2_pos m) + e.
Proof.
  unfold shl_align. destruct (e' - e) as [|d|d] eqn:Hd.
  - exists m, e. repeat split; try lia. rewrite Z.sub_diag. cbn. lia.
  - exists m, e. repeat split; try lia. rewrite Z.sub_diag. cbn. lia.
  - exists (Pos.iter xO m d), e'. repeat split; try lia.
    + rewrite iter_xO_mul. f_equal. f_equal. lia.
    + rewrite NumberFacts.digits2_pos_iter. lia.
Qed.

Lemma shl_align_fst m e ez :
  ez <= e -> Zpos (fst (shl_align m e ez)) = Zpos m * 2 ^ (e - ez).
Proof.
  intros Hle. destruct (shl_align_spec m e ez) as (mz & ez' & -> & Hez & Hmz & _).
  cbn [fst]. rewrite Hmz. f_equal. f_equal. lia.
Qed.

(** [binary_round] gives a value of the format (or an infinity) that no
    value of the format separates from the exact one. *)
Lemma binary_round_spec s m e :
  -149 <= e ->
  exists m2 E,
    -149 <= E /\ 0 <= m2 <= 2 ^ 24 /\ (-149 < E -> 2 ^ 23 <= m2) /\
    binary_round prec emax s m e = pack s m2 E /\
    forall p q, bounded prec emax p q = true ->
      (mag p q <= mag m e -> mag p q <= m2 * 2 ^ (E + 149)) /\
      (mag m e <= mag p q -> m2 * 2 ^ (E + 149) <= mag p q).
Proof.
  intros He.
  destruct (shl_align_spec m e (fexp prec emax (Zpos (digits2_pos m) + e)))
    as (mz & ez & Hsh & Hez & Hmz & Hdig).
  unfold binary_round. rewrite Hsh.
  assert (HE0 : fexp prec emax (Zdigits2 (Zpos mz) + ez)
                = fexp prec emax (Zpos (digits2_pos m) + e))
    by (cbn [Zdigits2]; now rewrite Hdig).
  assert (Hpre : ez <= fexp prec emax (Zdigits2 (Zpos mz) + ez)) by (rewrite HE0; lia).
  destruct (binary_round_aux_spec s (Zpos mz) ez loc_Exact ltac:(lia) Hpre)
    as (m2 & H12 & Hex & Hm1 & Hbig & Hres).
  set (E := fexp prec emax (Zdigits2 (Zpos mz) + ez)) in *.
  set (m1 := Zpos mz / 2 ^ (E - ez)) in *.
  assert (HE : -149 <= E) by (unfold E; rewrite fexp_eq; lia).
  assert (Hz : -149 <= ez) by (rewrite HE0 in Hpre; rewrite fexp_eq in *; lia).
  exists m2, E. split; [exact HE|]. split; [lia|]. split; [intros Hn; specialize (Hbig Hn); lia|].
  split; [exact Hres|].
  pose proof (pow2_pos (E - ez) ltac:(lia)) as Hn.
  pose proof (pow2_pos (ez + 149) ltac:(lia)) as Hc.
  pose proof (pow2_pos (E + 149) ltac:(lia)) as Ha.
  assert (Hsplit : 2 ^ (E + 149) = 2 ^ (E - ez) * 2 ^ (ez + 149))
    by (rewrite <- pow2_add by lia; f_equal; lia).
  assert (Hv : mag m e = Zpos mz * 2 ^ (ez + 149)).
  { unfold mag. rewrite Hmz. replace (e + 149) with (e - ez + (ez + 149)) by lia.
    rewrite pow2_add by lia. lia. }
  assert (Hfloor : m1 * 2 ^ (E - ez) <= Zpos mz < (m1 + 1) * 2 ^ (E - ez)).
  { unfold m1. pose proof (Z.mul_div_le (Zpos mz) (2 ^ (E - ez)) Hn).
    pose proof (Z.mul_succ_div_gt (Zpos mz) (2 ^ (E - ez)) Hn). lia. }
  assert (Hexact : Zpos mz = m1 * 2 ^ (E - ez) -> m2 = m1).
  { intros Heq. apply Hex; [reflexivity|]. rewrite Heq. apply Z.mod_mul. lia. }
  intros p q Hb.
  pose proof (bounded_mantissa _ _ Hb) as (Hq & _).
  pose proof (mag_small _ _ Hb) as Hsmall.
  pose proof (pow2_pos (q + 149) ltac:(lia)) as Hqp.
  destruct (Z_le_gt_dec E q) as [Hge|Hlt].
  - assert (Hk : mag p q = (Zpos p * 2 ^ (q - E)) * 2 ^ (E + 149)).
    { unfold mag. replace (q + 149) with (q - E + (E + 149)) by lia.
      rewrite pow2_add by lia. lia. }
    set (k := Zpos p * 2 ^ (q - E)) in *.
    rewrite Hk, Hv, Hsplit. split; intros Hle.
    + assert (k <= m1) by nia. nia.
    + destruct (Z.eq_dec (Zpos mz) (m1 * 2 ^ (E - ez))) as [Heq|Hne].
      * rewrite (Hexact Heq). nia.
      * assert (m1 + 1 <= k) by nia. nia.
  - pose proof (Hbig ltac:(lia)) as Hb1. specialize (Hm1).
    assert (Hlow : 2 ^ 24 * 2 ^ (q + 149) <= 2 ^ 23 * 2 ^ (E + 149)).
    { replace (E + 149) with (E - q - 1 + 1 + (q + 149)) by lia.
      rewrite (pow2_add (E - q - 1 + 1) (q + 149)), (pow2_add (E - q - 1) 1) by lia.
      pose proof (pow2_pos (E - q - 1) ltac:(lia)).
      change (2 ^ 1) with 2. change (2 ^ 24) with (2 * 2 ^ 23). nia. }
    rewrite Hv. split; intros Hle.
    + nia.
    + exfalso. rewrite Hsplit in Hlow. nia.
Qed.

(** What [pack] is next to a number of the format. *)
Lemma pack_above p q m E :
  bounded prec emax p q = true ->
  -149 <= E -> 0 <= m <= 2 ^ 24 -> (-149 < E -> 2 ^ 23 <= m) ->
  mag p q <= m * 2 ^ (E + 149) ->
  leb (S754_finite false p q) (pack false m E) = true.
Proof.
  intros Hb HE Hm Hbig Hle.
  destruct (pack_valid false _ _ HE Hm Hbig) as [Hv _].
  pose proof (bounded_mantissa _ _ Hb) as (Hq & _).
  pose proof (mag_pos p q ltac:(lia)).
  unfold pack in *. destruct m as [|r|r]; [lia| |lia].
  destruct (Zpos r =? 16777216) eqn:Heq.
  - apply Z.eqb_eq in Heq. destruct (E + 1 <=? 104); [|reflexivity].
    apply leb_pos; [exact Hb | exact Hv |].
    unfold mag at 2. replace (E + 1 + 149) with (1 + (E + 149)) by lia.
    rewrite pow2_add by lia. rewrite Heq in Hle. change (2 ^ 1) with 2. lia.
  - destruct (E <=? 104); [|reflexivity].
    apply leb_pos; [exact Hb | exact Hv | exact Hle].
Qed.

Lemma pack_below p q m E :
  bounded prec emax p q = true ->
  -149 <= E -> 0 <= m <= 2 ^ 24 -> (-149 < E -> 2 ^ 23 <= m) ->
  m * 2 ^ (E + 149) <= mag p q ->
  leb (S754_finite true p q) (pack true m E) = true.
Proof.
  intros Hb HE Hm Hbig Hle.
  destruct (pack_valid true _ _ HE Hm Hbig) as [Hv _].
  pose proof (bounded_mantissa _ _ Hb) as (Hq & _).
  pose proof (mag_small _ _ Hb) as Hsmall.
  pose proof (pow2_pos (E + 149) ltac:(lia)) as Ha.
  assert (Hover : forall e, 104 < e -> e <= E + 1 ->
            2 ^ 24 * 2 ^ (q + 149) <= 2 ^ 23 * 2 ^ (e + 149)).
  { intros e He1 He2. replace (e + 149) with (e - q - 1 + 1 + (q + 149)) by lia.
    rewrite (pow2_add (e - q - 1 + 1) (q + 149)), (pow2_add (e - q - 1) 1) by lia.
    pose proof (pow2_pos (e - q - 1) ltac:(lia)).
    pose proof (pow2_pos (q + 149) ltac:(lia)).
    change (2 ^ 1) with 2. change (2 ^ 24) with (2 * 2 ^ 23). nia. }
  unfold pack in *. destruct m as [|r|r]; [reflexivity| |lia].
  destruct (Zpos r =? 16777216) eqn:Heq.
  - apply Z.eqb_eq in Heq. rewrite Heq in Hle.
    assert (Hre : 16777216 * 2 ^ (E + 149) = 2 ^ 23 * 2 ^ (E + 1 + 149)).
    { replace (E + 1 + 149) with (1 + (E + 149)) by lia.
      rewrite (pow2_add 1 (E + 149)) by lia.
      change (2 ^ 1) with 2. change (2 ^ 23) with 8388608. lia. }
    destruct (E + 1 <=? 104) eqn:Hl.
    + apply leb_neg; [exact Hb | exact Hv |].
      unfold mag at 1. change (Zpos 8388608) with (2 ^ 23). lia.
    + exfalso. apply Z.leb_gt in Hl.
      pose proof (Hover (E + 1) ltac:(lia) ltac:(lia)). lia.
  - destruct (E <=? 104) eqn:Hl.
    + apply leb_neg; [exact Hb | exact Hv | exact Hle].
    + exfalso. apply Z.leb_gt in Hl.
      pose proof (Hover E ltac:(lia) ltac:(lia)).
      pose proof (Hbig ltac:(lia)). nia.
Qed.

Lemma pack_nonneg m E :
  0 <= m -> forall p q, leb (S754_finite true p q) (pack false m E) = true.
Proof.
  intros Hm p q. unfold pack. destruct m as [|r|r]; [reflexivity| |lia].
  destruct (Zpos r =? 16777216); [destruct (E + 1 <=? 104) | destruct (E <=? 104)];
    reflexivity.
Qed.

Lemma mag_align m e ez :
  -149 <= ez <= e -> Zpos m * 2 ^ (e - ez) * 2 ^ (ez + 149) = mag m e.
Proof.
  intros H. unfold mag. replace (e + 149) with (e - ez + (ez + 149)) by lia.
  rewrite (pow2_add (e - ez) (ez + 149)) by lia. lia.
Qed.

Lemma binary_normalize_valid z e :
  -149 <= e ->
  is_value (binary_normalize prec emax z e false) = true /\
  binary_normalize prec emax z e false <> S754_nan.
Proof.
  intros He. destruct z as [|p|p]; cbn [binary_normalize].
  - split; [reflexivity | discriminate].
  - destruct (binary_round_spec false p e He) as (m2 & E & HE & Hm & Hbig & -> & _).
    now apply pack_valid.
  - destruct (binary_round_spec true p e He) as (m2 & E & HE & Hm & Hbig & -> & _).
    now apply pack_valid.
Qed.

(** A sum with a number that is not negative is not below the other
    operand, whatever the rounding does. *)
Lemma add_ge x h :
  is_value x = true -> x <> S754_nan -> finite h = true -> leb zero h = true ->
  leb x (add x h) = true.
Proof.
  intros Hx Hnan Hh Hpos.
  destruct h as [sh|sh| |sh mh eh]; try discriminate.
  - destruct x as [s|s| |s m e]; try congruence.
    + destruct s, sh; reflexivity.
    + destruct s; reflexivity.
    + change (add (S754_finite s m e) (S754_zero sh)) with (S754_finite s m e).
      apply leb_refl. discriminate.
  - destruct sh; [discriminate|].
    destruct x as [s|s| |s m e]; try congruence.
    + destruct s; reflexivity.
    + destruct s; reflexivity.
    + cbn [is_value valid_binary finite] in Hx, Hh.
      pose proof (bounded_mantissa _ _ Hx) as (He & _).
      pose proof (bounded_mantissa _ _ Hh) as (Heh & _).
      unfold add, SFadd. set (ez := Z.min e eh).
      rewrite !shl_align_fst by lia.
      pose proof (mag_align m e ez ltac:(lia)) as Hm.
      pose proof (pow2_pos (e - ez) ltac:(lia)) as H1.
      pose proof (pow2_pos (eh - ez) ltac:(lia)) as H2.
      pose proof (pow2_pos (ez + 149) ltac:(lia)) as H3.
      set (A := Zpos m * 2 ^ (e - ez)) in *.
      set (B := Zpos mh * 2 ^ (eh - ez)) in *.
      assert (HA : 0 < A) by (unfold A; nia).
      assert (HB : 0 < B) by (unfold B; nia).
      destruct s; cbn [cond_Zopp].
      * destruct (- A + B) as [|sp|sp] eqn:HS; cbn [binary_normalize].
        -- reflexivity.
        -- destruct (binary_round_spec false sp ez ltac:(lia))
             as (m2 & E & HE & Hm2 & Hbig & -> & _).
           apply pack_nonneg. lia.
        -- destruct (binary_round_spec true sp ez ltac:(lia))
             as (m2 & E & HE & Hm2 & Hbig & -> & Hval).
           apply pack_below; try assumption.
           apply (Hval m e Hx). unfold mag at 1. nia.
      * destruct (A + B) as [|sp|sp] eqn:HS; try lia. cbn [binary_normalize].
        destruct (binary_round_spec false sp ez ltac:(lia))
          as (m2 & E & HE & Hm2 & Hbig & -> & Hval).
        apply pack_above; try assumption.
        apply (Hval m e Hx). unfold mag at 2. nia.
Qed.

Lemma sub_valid a b :
  finite a = true -> is_value b = true -> b <> S754_nan ->
  is_value (sub a b) = true /\ sub a b <> S754_nan.
Proof.
  intros Ha Hb Hnan.
  destruct a as [sa|sa| |sa ma ea]; try discriminate;
    destruct b as [sb|sb| |sb mb eb]; try congruence.
  - destruct sa, sb; split; try reflexivity; discriminate.
  - split; [reflexivity | discriminate].
  - split; [exact Hb | discriminate].
  - split; [exact Ha | discriminate].
  - split; [reflexivity | discriminate].
  - cbn [is_value valid_binary finite] in Ha, Hb.
    pose proof (bounded_mantissa _ _ Ha) as (He & _).
    pose proof (bounded_mantissa _ _ Hb) as (Heb & _).
    unfold sub, SFsub. apply binary_normalize_valid. lia.
Qed.

(** A sum of numbers is a number, unless an operand is no number or
    the operands are opposite infinities. *)
Lemma add_valid x h :
  is_value x = true -> x <> S754_nan -> finite h = true ->
  is_value (add x h) = true /\ add x h <> S754_nan.
Proof.
  intros Hx Hnan Hh.
  destruct h as [sh|sh| |sh mh eh]; try discriminate;
    destruct x as [s|s| |s m e]; try congruence.
  - destruct s, sh; split; try reflexivity; discriminate.
  - split; [reflexivity | discriminate].
  - split; [exact Hx | discriminate].
  - split; [exact Hh | discriminate].
  - split; [reflexivity | discriminate].
  - cbn [is_value valid_binary finite] in Hx, Hh.
    pose proof (bounded_mantissa _ _ Hx) as (He & _).
    pose proof (bounded_mantissa _ _ Hh) as (Heh & _).
    unfold add, SFadd. apply binary_normalize_valid. lia.
Qed.

Lemma fexp_mono a b : a <= b -> fexp prec emax a <= fexp prec emax b.
Proof. intros. rewrite !fexp_eq. lia. Qed.

Lemma div_finite_valid sx mx ex sy my ey :
  is_value (div (S754_finite sx mx ex) (S754_finite sy my ey)) = true /\
  div (S754_finite sx mx ex) (S754_finite sy my ey) <> S754_nan.
Proof.
  unfold div, SFdiv, SFdiv_core_binary. cbn [Zdigits2].
  set (d1 := Zpos (digits2_pos mx)). set (d2 := Zpos (digits2_pos my)).
  set (e' := Z.min (fexp prec emax (d1 + ex - (d2 + ey))) (ex - ey)).
  set (s := ex - ey - e').
  assert (Hs : 0 <= s) by (unfold s, e'; lia).
  set (m' := match s with Z0 => Zpos mx | Zpos _ => Z.shiftl (Zpos mx) s | Zneg _ => 0 end).
  assert (Hm' : m' = Zpos mx * 2 ^ s).
  { unfold m'. destruct s as [|p|p]; [cbn; lia | | lia].
    apply Z.shiftl_mul_pow2. lia. }
  destruct (Z.div_eucl m' (Zpos my)) as [q r] eqn:Hdiv.
  assert (Hq : q = m' / Zpos my).
  { change q with (fst (q, r)). rewrite <- Hdiv. reflexivity. }
  pose proof (pow2_pos s Hs) as Hp.
  pose proof (digits2_pos_spec mx) as [Hlo1 Hhi1]. fold d1 in Hlo1, Hhi1.
  pose proof (digits2_pos_spec my) as [Hlo2 Hhi2]. fold d2 in Hlo2, Hhi2.
  assert (Hq0 : 0 <= q) by (rewrite Hq; apply Z.div_pos; lia).
  assert (Hbig : 2 ^ (d1 - 1 + s) <= m').
  { rewrite Hm', (pow2_add (d1 - 1) s) by lia. nia. }
  assert (Hdig : d1 + s - d2 <= Zdigits2 q).
  { destruct (Z.eq_dec q 0) as [Hz|Hnz].
    - rewrite Hz. cbn [Zdigits2].
      assert (m' < Zpos my).
      { rewrite Hq in Hz. apply Z.div_small_iff in Hz; lia. }
      destruct (Z_le_gt_dec (d1 + s - d2) 0) as [|Hgt]; [assumption|].
      pose proof (pow2_le d2 (d1 - 1 + s) ltac:(lia)). lia.
    - apply Zdigits2_ge; [lia|].
      destruct (Z_le_gt_dec 0 (d1 + s - d2 - 1)) as [Hge|Hlt].
      + rewrite Hq. apply Z.div_le_lower_bound; [lia|].
        assert (2 ^ d2 * 2 ^ (d1 + s - d2 - 1) <= m').
        { rewrite <- pow2_add by lia. replace (d2 + (d1 + s - d2 - 1)) with (d1 - 1 + s) by lia.
          exact Hbig. }
        pose proof (pow2_pos (d1 + s - d2 - 1) Hge). nia.
      + rewrite Z.pow_neg_r by lia. lia. }
  assert (Hpre : e' <= fexp prec emax (Zdigits2 q + e')).
  { pose proof (fexp_mono (d1 + ex - (d2 + ey)) (Zdigits2 q + e') ltac:(unfold s in Hdig; lia)).
    unfold e' at 1. lia. }
  destruct (binary_round_aux_spec (xorb sx sy) q e' (new_location (Zpos my) r) Hq0 Hpre)
    as (m2 & H12 & _ & Hm1 & Hb1 & ->).
  apply pack_valid.
  - rewrite fexp_eq. lia.
  - lia.
  - intros Hn. specialize (Hb1 Hn). lia.
Qed.

Lemma div_valid h d :
  finite h = true -> finite d = true ->
  (exists s m e, d = S754_finite s m e) ->
  is_value (div h d) = true /\ div h d <> S754_nan.
Proof.
  intros Hh _ (s & m & e & ->).
  destruct h as [sh|sh| |sh mh eh]; try discriminate.
  - split; [reflexivity | discriminate].
  - apply div_finite_valid.
Qed.

(** The two corners of one axis: with a finite centre and a finite
    extent that is not negative, the low corner is not above the high
    one. *)
Lemma corner_order c ext :
  finite c = true -> finite ext = true -> leb zero ext = true ->
  leb (sub c (div ext two)) (add (sub c (div ext two)) ext) = true.
Proof.
  intros Hc He Hpos.
  destruct (div_valid ext two He eq_refl) as [Hd Hdn].
  { exists false, 8388608%positive, (-22). reflexivity. }
  destruct (sub_valid c (div ext two) Hc Hd Hdn) as [Hs Hsn].
  now apply add_ge.
Qed.

(** With finite operands both corners of an axis are numbers. *)
Lemma corner_values c ext :
  finite c = true -> finite ext = true ->
  (is_value (sub c (div ext two)) = true /\ sub c (div ext two) <> S754_nan) /\
  (is_value (add (sub c (div ext two)) ext) = true /\
   add (sub c (div ext two)) ext <> S754_nan).
Proof.
  intros Hc He.
  destruct (div_valid ext two He eq_refl) as [Hd Hdn].
  { exists false, 8388608%positive, (-22). reflexivity. }
  destruct (sub_valid c (div ext two) Hc Hd Hdn) as [Hs Hsn].
  split; [split; assumption|]. now apply add_valid.
Qed.

End Float32Facts.

(** ** What the single-precision box block computes *)

Module Decoder32Facts.
Import IndexFacts Float32 Tensor32 Decoder32.

Lemma tabulate32_length n f : length (tabulate n f) = n.
Proof. unfold tabulate. now rewrite length_map, length_seq. Qed.

Lemma nth_tabulate32 n f k : (k < n)%nat -> nth k (tabulate n f) S754_nan = f k.
Proof.
  intros Hk. unfold tabulate.
  rewrite nth_indep with (d' := f 0%nat) by (now rewrite length_map, length_seq).
  rewrite map_nth, seq_nth; auto.
Qed.

Lemma get_tab32 sh n f k : (k < n)%nat -> get (mk sh (tabulate n f)) k = f k.
Proof. intros. unfold get. simpl. now apply nth_tabulate32. Qed.

Lemma slice_column32 t n a c :
  shape t = [1; n; a]%nat -> (c < a)%nat ->
  slice3 t 0 0 c (-1) (-1) 1 = Some (column t n a c).
Proof.
  intros Hs Hc. unfold slice3. rewrite Hs.
  rewrite !DecoderFacts.slice_len_all, (DecoderFacts.slice_len_one Hc). reflexivity.
Qed.

Lemma get_column32 t n a c i :
  (i < n)%nat -> get (column t n a c) i = get t (i * a + c).
Proof.
  intros Hi. unfold column. rewrite get_tab32 by lia.
  rewrite Nat.mul_1_r, Nat.div_small, Nat.div_1_r, Nat.mod_small, Nat.mod_1_r by lia.
  f_equal. lia.
Qed.

Lemma zip_same32 op a b :
  shape a = shape b ->
  zip op a b = Some (mk (shape a) (tabulate (Tensor.numel (shape a))
                                     (fun k => op (get a k) (get b k)))).
Proof.
  intros H. unfold zip. destruct (list_eq_dec Nat.eq_dec (shape a) (shape b)); congruence.
Qed.

(** On a [1, n, a] tensor the block returns, and row [i] of its result
    is computed from attributes 0 to 3 of row [i]. *)
Lemma decode_boxes32_spec t n a :
  shape t = [1; n; a]%nat -> (4 <= a)%nat ->
  exists bx,
    decode_boxes t = Some bx /\
    shape bx = filter (fun d => negb (d =? 1)%nat) [1; n; 4]%nat /\
    length (data bx) = (n * 4)%nat /\
    forall i, (i < n)%nat ->
      let cx := get t (i * a + 0) in
      let cy := get t (i * a + 1) in
      let w := get t (i * a + 2) in
      let h := get t (i * a + 3) in
      let x1 := Float32.sub cx (Float32.div w two) in
      let y1 := Float32.sub cy (Float32.div h two) in
      box_at bx i = (y1, x1, Float32.add y1 h, Float32.add x1 w).
Proof.
  intros Hs Ha. unfold decode_boxes.
  rewrite !(slice_column32 _ Hs) by lia.
  unfold sub, add. rewrite !zip_same32 by reflexivity.
  cbn [shape column div_scalar Tensor.numel fold_right].
  set (w := column t n a 2). set (h := column t n a 3).
  set (cx := column t n a 0). set (cy := column t n a 1).
  set (x1 := mk _ (tabulate _ (fun k => Float32.sub (get cx k) _))).
  set (y1 := mk _ (tabulate _ (fun k => Float32.sub (get cy k) _))).
  set (y2 := mk _ (tabulate _ (fun k => Float32.add (get y1 k) _))).
  set (x2 := mk _ (tabulate _ (fun k => Float32.add (get x1 k) _))).
  unfold concat2. cbn [shape y1 x1 y2 x2 forallb map last_dim last list_sum].
  rewrite !Nat.eqb_refl. cbn [andb Nat.add list_sum fold_right].
  eexists. split; [reflexivity|]. split; [reflexivity|].
  split; [cbn [squeeze data]; rewrite tabulate32_length; lia|].
  intros i Hi.
  assert (Hg : forall c, (c < a)%nat -> get (column t n a c) i = get t (i * a + c))
    by (intros; now apply get_column32).
  assert (Hn : (i < 1 * (n * (1 * 1)))%nat) by lia.
  cbv zeta. unfold box_at, squeeze, get at 1 2 3 4. cbn [data].
  rewrite !nth_tabulate32 by lia.
  rewrite !div_flat, !mod_flat by lia.
  cbn [concat_pick last_dim shape y1 x1 y2 x2 last Nat.ltb Nat.leb Nat.sub].
  rewrite !Nat.mul_1_r, !Nat.add_0_r.
  unfold y2, x2. rewrite !get_tab32 by assumption.
  unfold y1, x1. rewrite !get_tab32 by assumption.
  unfold div_scalar. cbn [shape column Tensor.numel fold_right].
  rewrite !get_tab32 by assumption.
  unfold w, h, cx, cy. rewrite !Hg by lia. rewrite !Nat.add_0_r. reflexivity.
Qed.

End Decoder32Facts.

(** ** What the preprocessor computes *)

Module PreprocessorFacts.
Import Index IndexFacts Tensor Preprocessor.
Import DecoderFacts (get_tab).

(** *** Padding *)
Lemma decode3 e1 e2 r c d :
  (c < e1)%nat -> (d < e2)%nat ->
  (((r * e1 + c) * e2 + d) / (e1 * e2) = r /\
   (((r * e1 + c) * e2 + d) / e2) mod e1 = c /\
   ((r * e1 + c) * e2 + d) mod e2 = d)%nat.
Proof.
  intros Hc Hd. rewrite div_flat, mod_flat, mod_flat by assumption.
  repeat split.
  replace ((r * e1 + c) * e2 + d)%nat with (r * (e1 * e2) + (c * e2 + d))%nat by lia.
  apply div_flat. nia.
Qed.

Lemma get_all (P : Q -> Prop) sh n f :
  P 0 -> (forall k, P (f k)) -> forall k, P (get (mk sh (tabulate n f)) k).
Proof.
  intros H0 Hf k. unfold get. cbn [data].
  destruct (Nat.lt_ge_cases k n) as [Hk|Hk].
  - now rewrite nth_tabulate.
  - now rewrite nth_tabulate_default.
Qed.

Lemma pad_to_square_spec f :
  let img := fromPixels f in
  let m := Nat.max (width f) (height f) in
  exists p,
    pad_to_square img = Some p /\ shape p = [m; m; 3]%nat /\
    forall r c d, (r < m)%nat -> (c < m)%nat -> (d < 3)%nat ->
      get p ((r * m + c) * 3 + d) =
      if ((r <? height f) && (c <? width f))%nat%bool
      then get img ((r * width f + c) * 3 + d) else 0.
Proof.
  intros img m. unfold pad_to_square, pad3. cbn [shape img fromPixels fst snd].
  replace (0 + height f + (Nat.max (width f) (height f) - height f))%nat with m by lia.
  replace (0 + width f + (Nat.max (width f) (height f) - width f))%nat with m by lia.
  cbn [Nat.add].
  eexists. split; [reflexivity|]. split; [reflexivity|].
  intros r c d Hr Hc Hd. rewrite get_tab by nia.
  destruct (decode3 r Hc Hd) as (-> & -> & ->).
  cbn [Nat.leb andb]. rewrite !Nat.sub_0_r.
  replace (d <? 3)%nat with true by (symmetry; now apply Nat.ltb_lt).
  rewrite !andb_true_r. reflexivity.
Qed.

Lemma byte_value_range b : in_range 0 255 (byte_value b).
Proof.
  unfold in_range, byte_value. pose proof (Byte.to_N_bounded b) as H.
  split.
  - change 0 with (inject_Z 0). rewrite <- Zle_Qle. lia.
  - change 255 with (inject_Z 255). rewrite <- Zle_Qle. lia.
Qed.

Lemma fromPixels_range f k : in_range 0 255 (get (fromPixels f) k).
Proof.
  unfold fromPixels. apply get_all.
  - split; [apply Qle_refl | discriminate].
  - intros. apply byte_value_range.
Qed.

Lemma pad3_range t p0 p1 p2 q :
  (forall k, in_range 0 255 (get t k)) ->
  pad3 t p0 p1 p2 = Some q -> forall k, in_range 0 255 (get q k).
Proof.
  intros Ht. unfold pad3. destruct (shape t) as [|d0 [|d1 [|d2 [|]]]]; try discriminate.
  intros [= <-]. apply get_all.
  - split; [apply Qle_refl | discriminate].
  - intros k. destruct (_ && _)%bool; [apply Ht|].
    split; [apply Qle_refl | discriminate].
Qed.

Lemma lerp_range lo hi a b t :
  in_range lo hi a -> in_range lo hi b -> 0 <= t -> t <= 1 ->
  in_range lo hi (a + (b - a) * t).
Proof. unfold in_range. intros [Ha1 Ha2] [Hb1 Hb2] Ht0 Ht1. split; nra. Qed.

Lemma Qnat_nonneg n : 0 <= Qnat n.
Proof. unfold Qnat. change 0 with (inject_Z 0). rewrite <- Zle_Qle. lia. Qed.

Lemma ratio_nonneg a b r : 0 <= Qnat a / Qnat b * Qnat r.
Proof.
  apply Qmult_le_0_compat; [|apply Qnat_nonneg].
  apply Qmult_le_0_compat; [apply Qnat_nonneg|].
  apply Qinv_le_0_compat, Qnat_nonneg.
Qed.

Lemma frac_range x :
  0 <= x ->
  0 <= x - Qnat (Z.to_nat (Z.max 0 (Qfloor x))) /\
  x - Qnat (Z.to_nat (Z.max 0 (Qfloor x))) <= 1.
Proof.
  intros Hx.
  assert (H0 : (0 <= Qfloor x)%Z) by (change 0%Z with (Qfloor 0); now apply Qfloor_resp_le).
  unfold Qnat. rewrite Z2Nat.id, Z.max_r by lia.
  pose proof (Qfloor_le x) as H1. pose proof (Qlt_floor x) as H2.
  rewrite inject_Z_plus in H2. change (inject_Z 1) with 1 in H2.
  split; lra.
Qed.

Lemma resizeBilinear_range t nh nw q :
  (forall k, in_range 0 255 (get t k)) ->
  resizeBilinear t nh nw = Some q -> forall k, in_range 0 255 (get q k).
Proof.
  intros Ht. unfold resizeBilinear.
  destruct (shape t) as [|oh [|ow [|ch [|]]]]; try discriminate.
  intros [= <-]. apply get_all.
  - split; [apply Qle_refl | discriminate].
  - intros k. cbv zeta.
    destruct (frac_range (ratio_nonneg oh nh (k / (nw * ch)))) as [Hr0 Hr1].
    destruct (frac_range (ratio_nonneg ow nw ((k / ch) mod nw))) as [Hc0 Hc1].
    apply lerp_range; auto; apply lerp_range; auto.
Qed.

Lemma div255_range t k :
  (forall j, in_range 0 255 (get t j)) -> in_range 0 1 (get (div_scalar t 255) k).
Proof.
  intros Ht. unfold div_scalar. apply get_all.
  - split; [apply Qle_refl | discriminate].
  - intros j. destruct (Ht j) as [H1 H2]. unfold in_range.
    split.
    + apply Qle_shift_div_l; [reflexivity | lra].
    + apply Qle_shift_div_r; [reflexivity | lra].
Qed.

Lemma get_Forall (P : Q -> Prop) t :
  (forall k, P (get t k)) -> Forall P (data t).
Proof.
  intros H. apply Forall_forall. intros x Hx.
  destruct (In_nth _ _ 0 Hx) as (k & _ & <-). apply H.
Qed.

(** *** [preprocess] always returns *)
Lemma resizeBilinear_some t h w c nh nw :
  shape t = [h; w; c]%nat ->
  exists r, resizeBilinear t nh nw = Some r /\ shape r = [nh; nw; c]%nat /\
            length (data r) = (nh * nw * c)%nat.
Proof.
  intros Hs. unfold resizeBilinear. rewrite Hs.
  eexists. split; [reflexivity|]. split; [reflexivity|].
  cbn [data]. apply tabulate_length.
Qed.

Lemma preprocess_some f mw mh :
  exists p r,
    pad_to_square (fromPixels f) = Some p /\
    resizeBilinear p mw mh = Some r /\
    shape r = [mw; mh; 3]%nat /\
    length (data r) = (mw * mh * 3)%nat /\
    preprocess f mw mh =
    Some (expandDims0 (div_scalar r 255),
          Number.div (Number.of_nat (Nat.max (width f) (height f))) (Number.of_nat (width f)),
          Number.div (Number.of_nat (Nat.max (width f) (height f))) (Number.of_nat (height f))).
Proof.
  destruct (pad_to_square_spec f) as (p & Hp & Hsp & _).
  destruct (resizeBilinear_some p mw mh Hsp) as (r & Hr & Hsr & Hlen).
  exists p, r. repeat split; try assumption.
  unfold preprocess. rewrite Hp, Hr. reflexivity.
Qed.

End PreprocessorFacts.

(** ** Basic facts about the suppressor *)

Module SuppressorFacts.
Import Tensor Suppressor.

Lemma candidates_iff scores thr i :
  In i (candidates scores thr) <->
  (i < length (data scores))%nat /\ thr <= get scores i.
Proof.
  unfold candidates. rewrite filter_In, in_seq. unfold Qlt_bool.
  rewrite negb_involutive, Qle_bool_iff. intuition lia.
Qed.

Lemma insert_In scores i l x : In x (insert scores i l) <-> x = i \/ In x l.
Proof.
  induction l as [|j l IH]; cbn.
  - intuition.
  - destruct (Qlt_bool _ _); cbn; rewrite ?IH; intuition.
Qed.

Lemma sort_by_score_In scores l x : In x (sort_by_score scores l) <-> In x l.
Proof.
  induction l as [|i l IH]; cbn; [tauto|].
  rewrite insert_In, IH. intuition.
Qed.

Lemma select_incl boxes thr m pool x :
  In x (select boxes thr m pool) -> In x pool.
Proof.
  revert pool. induction m as [|m IH]; intros pool; cbn; [tauto|].
  destruct pool as [|i rest]; cbn; [tauto|].
  intros [->|H]; [now left|]. right.
  apply IH in H. now apply filter_In in H.
Qed.

Lemma select_length boxes thr m pool :
  (length (select boxes thr m pool) <= m)%nat.
Proof.
  revert pool. induction m as [|m IH]; intros pool; cbn; [lia|].
  destruct pool as [|i rest]; cbn; [lia|]. specialize (IH (filter (fun j => negb (Qlt_bool thr
     (iou (box_row boxes i) (box_row boxes j)))) rest)). lia.
Qed.

Lemma nonMaxSuppression_candidates boxes scores m it st x :
  In x (nonMaxSuppression boxes scores m it st) -> In x (candidates scores st).
Proof.
  unfold nonMaxSuppression. intros H.
  apply select_incl in H. now apply sort_by_score_In in H.
Qed.

Lemma nonMaxSuppression_bound boxes scores m it st :
  Forall (fun i => (i < length (data scores))%nat)
         (nonMaxSuppression boxes scores m it st).
Proof.
  apply Forall_forall. intros x Hx.
  apply nonMaxSuppression_candidates, candidates_iff in Hx. tauto.
Qed.

(** The best candidate is always selected first. *)
Lemma select_head boxes thr m i rest :
  exists tl, select boxes thr (S m) (i :: rest) = i :: tl.
Proof. cbn. eauto. Qed.

End SuppressorFacts.

(** ** Running the engine primitives *)

Module RuntimeFacts.
Import Tensor Runtime.
Local Open Scope nat_scope.

Lemma bind_returned {A B} (c : M A) (k : A -> M B) w a w' :
  c w = (Returned a, w') -> bind c k w = k a w'.
Proof. intros H. unfold bind. now rewrite H. Qed.

Lemma bind_thrown {A B} (c : M A) (k : A -> M B) w e w' :
  c w = (Thrown e, w') -> bind c k w = (Thrown e, w').
Proof. intros H. unfold bind. now rewrite H. Qed.

Section OpenScope.

(** A world whose innermost scope is [top]. *)
Variables (n : nat) (top : list nat) (rest : list (list nat)) (u : list nat).

Variables (tr : list event) (rf : nat) (fps : JsNum.shown).

Variables (tm : nat -> Q) (rd : nat) (vs : session).

Lemma alloc_run {A} (v : A) :
  alloc v (mkWorld n (top :: rest) u tr rf fps tm rd vs)
  = (Returned (mkHandle n v), mkWorld (S n) ((n :: top) :: rest) u tr rf fps tm rd vs).
Proof. reflexivity. Qed.

Lemma emit_run e sc :
  emit e (mkWorld n sc u tr rf fps tm rd vs)
  = (Returned tt, mkWorld n sc u (e :: tr) rf fps tm rd vs).
Proof. reflexivity. Qed.

Lemma startScope_run sc :
  startScope (mkWorld n sc u tr rf fps tm rd vs)
  = (Returned tt, mkWorld n ([] :: sc) u tr rf fps tm rd vs).
Proof. reflexivity. Qed.

Lemma endScope_run :
  endScope [] (mkWorld n (top :: rest) u tr rf fps tm rd vs)
  = (Returned tt, mkWorld n rest u tr rf fps tm rd vs).
Proof. reflexivity. Qed.

Lemma dispose_run ids sc :
  dispose ids (mkWorld n sc u tr rf fps tm rd vs)
  = (Returned tt, mkWorld n (map (remove_ids ids) sc) (remove_ids ids u)
                          tr rf fps tm rd vs).
Proof. reflexivity. Qed.

End OpenScope.

Lemma temporaries_run k : forall n top rest u tr rf fps tm rd vs,
  temporaries k (mkWorld n (top :: rest) u tr rf fps tm rd vs)
  = (Returned tt, mkWorld (n + k) ((rev (seq n k) ++ top) :: rest) u tr rf fps tm rd vs).
Proof.
  induction k as [|k IH]; intros.
  - cbn. now rewrite Nat.add_0_r.
  - cbn [temporaries]. unfold bind. rewrite alloc_run.
    rewrite IH. cbn [seq rev]. rewrite <- app_assoc. cbn [app].
    now rewrite Nat.add_succ_r.
Qed.

Lemma compute_some {A} k (a : A) n top rest u tr rf fps tm rd vs :
  compute k (Some a) (mkWorld n (top :: rest) u tr rf fps tm rd vs)
  = (Returned (mkHandle (n + k) a),
     mkWorld (S (n + k)) (((n + k) :: rev (seq n k) ++ top) :: rest) u tr rf fps tm rd vs).
Proof.
  unfold compute, bind. rewrite temporaries_run.
  apply alloc_run.
Qed.

Lemma compute_none {A} k n top rest u tr rf fps tm rd vs :
  compute k (@None A) (mkWorld n (top :: rest) u tr rf fps tm rd vs)
  = (Thrown TfError,
     mkWorld (n + k) ((rev (seq n k) ++ top) :: rest) u tr rf fps tm rd vs).
Proof.
  unfold compute, bind. now rewrite temporaries_run.
Qed.

Lemma tidy_some {A} k (a : A) n top rest u tr rf fps tm rd vs :
  tidy (compute k (Some a)) (mkWorld n (top :: rest) u tr rf fps tm rd vs)
  = (Returned (mkHandle (n + k) a),
     mkWorld (S (n + k)) (((n + k) :: top) :: rest) u tr rf fps tm rd vs).
Proof.
  unfold tidy, bind at 1. rewrite startScope_run.
  rewrite compute_some. unfold endScope. cbn [scopes hid filter mem existsb].
  rewrite Nat.eqb_refl. reflexivity.
Qed.

Lemma tidy_none {A} k n top rest u tr rf fps tm rd vs :
  tidy (compute k (@None A)) (mkWorld n (top :: rest) u tr rf fps tm rd vs)
  = (Thrown TfError, mkWorld (n + k) (top :: rest) u tr rf fps tm rd vs).
Proof.
  unfold tidy, bind at 1. rewrite startScope_run.
  rewrite compute_none. reflexivity.
Qed.

(** Disposing tensors made later than [n] leaves older ones alone. *)
Lemma remove_ids_fresh n ids l :
  Forall (fun id => (id < n)%nat) l -> Forall (fun id => (n <= id)%nat) ids ->
  remove_ids ids l = l.
Proof.
  intros Hl Hids. unfold remove_ids. apply forallb_filter_id.
  apply forallb_forall. intros x Hx. apply negb_true_iff.
  apply not_true_is_false. unfold mem. rewrite existsb_exists.
  intros (y & Hy & E). apply Nat.eqb_eq in E. subst y.
  rewrite Forall_forall in Hl, Hids. specialize (Hl _ Hx). specialize (Hids _ Hy). lia.
Qed.

Lemma map_remove_ids_fresh n ids sc :
  Forall (Forall (fun id => (id < n)%nat)) sc -> Forall (fun id => (n <= id)%nat) ids ->
  map (remove_ids ids) sc = sc.
Proof.
  intros Hsc Hids. induction Hsc as [|s sc Hs _ IH]; cbn; [reflexivity|].
  now rewrite IH, (remove_ids_fresh Hs Hids).
Qed.

End RuntimeFacts.

(** ** Running [detect] *)

Module DetectFacts.
Import Tensor Runtime RuntimeFacts Detect DetectSpec.
Local Open Scope nat_scope.

Lemma bind_inv {A B} (c : M A) (k : A -> M B) w b w'' :
  bind c k w = (Returned b, w'') ->
  exists a w', c w = (Returned a, w') /\ k a w' = (Returned b, w'').
Proof.
  unfold bind. destruct (c w) as [[a|e] w']; intros H; [eauto | discriminate].
Qed.

Section OpenScope.

Variables (n : nat) (top : list nat) (rest : list (list nat)) (u : list nat).

Variables (tr : list event) (rf : nat) (fps : JsNum.shown).

Variables (tm : nat -> Q) (rd : nat) (vs : session).

Let W := mkWorld n (top :: rest) u tr rf fps tm rd vs.

Lemma compute_inv {A} k (v : option A) h w' :
  compute k v W = (Returned h, w') ->
  exists a, v = Some a /\ h = mkHandle (n + k) a /\
    w' = mkWorld (S (n + k)) (((n + k) :: rev (seq n k) ++ top) :: rest)
                 u tr rf fps tm rd vs.
Proof.
  unfold W. destruct v as [a|].
  - rewrite compute_some. intros [= <- <-]. eauto.
  - rewrite compute_none. discriminate.
Qed.

Lemma tidy_inv {A} k (v : option A) h w' :
  tidy (compute k v) W = (Returned h, w') ->
  exists a, v = Some a /\ h = mkHandle (n + k) a /\
    w' = mkWorld (S (n + k)) (((n + k) :: top) :: rest) u tr rf fps tm rd vs.
Proof.
  unfold W. destruct v as [a|].
  - rewrite tidy_some. intros [= <- <-]. eauto.
  - rewrite tidy_none. discriminate.
Qed.

Lemma gathered_inv (v : option (list Q)) d w' :
  gathered v W = (Returned d, w') ->
  v = Some d /\
  w' = mkWorld (S (n + 0)) (((n + 0) :: rev (seq n 0) ++ top) :: rest)
               u tr rf fps tm rd vs.
Proof.
  unfold gathered. intros H. apply bind_inv in H as (h & w1 & H1 & H2).
  apply compute_inv in H1 as (a & -> & -> & ->).
  unfold ret in H2. injection H2 as <- <-. auto.
Qed.

Lemma preprocess_inv source mw mh r w' :
  preprocess source mw mh W = (Returned r, w') ->
  exists t xRatio yRatio,
    Preprocessor.preprocess source mw mh = Some (t, xRatio, yRatio) /\
    r = (mkHandle (n + 4) t, xRatio, yRatio) /\
    w' = mkWorld (S (n + 4)) (((n + 4) :: top) :: rest) u tr rf fps tm rd vs.
Proof.
  unfold preprocess. destruct (Preprocessor.preprocess source mw mh) as [[[t x] y]|].
  - intros H. apply bind_inv in H as (h & w1 & H1 & H2).
    apply tidy_inv in H1 as (a & [= <-] & -> & ->).
    unfold ret in H2. injection H2 as <- <-. eauto 6.
  - intros H. apply bind_inv in H as (h & w1 & H1 & H2).
    apply tidy_inv in H1 as (a & [=] & _).
Qed.

Lemma execute_inv m input h w' :
  execute m input W = (Returned h, w') ->
  exists f raw,
    net m = Some f /\ f (hval input) = Returned raw /\ h = mkHandle n raw /\
    w' = mkWorld (S n) ((n :: top) :: rest) u (CallExecute (hval input) :: tr)
                 rf fps tm rd vs.
Proof.
  unfold execute. destruct (net m) as [f|]; [|discriminate].
  intros H. apply bind_inv in H as ([] & w1 & H1 & H2).
  unfold W in H1. rewrite emit_run in H1. injection H1 as <-.
  destruct (f (hval input)) as [raw|e] eqn:E; [|discriminate].
  rewrite alloc_run in H2. injection H2 as <- <-.
  exists f, raw. auto.
Qed.

Lemma nonMaxSuppressionAsync_run boxes scores k it st :
  nonMaxSuppressionAsync boxes scores k it st W =
  (Returned (mkHandle n (Suppressor.nonMaxSuppression (hval boxes) (hval scores) k it st)),
   mkWorld (S n) ((n :: top) :: rest) u
           (CallNonMaxSuppression (hval boxes) (hval scores) k it st :: tr)
           rf fps tm rd vs).
Proof. reflexivity. Qed.

End OpenScope.

(** A detection that returns went through valid values, made these calls,
    then ran the callback and closed its scope. *)
Lemma detect_inv source m canvasRef callback n sc u tr rf fps tm rd vs w' :
  detect source m canvasRef callback (mkWorld n sc u tr rf fps tm rd vs)
  = (Returned tt, w') ->
  exists v n' top ids wc,
    valid_run source m v /\ n <= n' /\ Forall (fun id => n <= id) ids /\
    callback (mkWorld n' (top :: map (remove_ids ids) sc) (remove_ids ids u)
                      (calls v ++ tr) rf fps tm rd vs) = (Returned tt, wc) /\
    endScope [] wc = (Returned tt, w').
Proof.
  unfold detect. intros H.
  apply bind_inv in H as ([] & w1 & H1 & H).
  rewrite startScope_run in H1. injection H1 as <-.
  apply bind_inv in H as ([[input xRatio] yRatio] & w2 & H2 & H).
  apply preprocess_inv in H2 as (t & xr & yr & Hpre & [= -> -> ->] & ->).
  apply bind_inv in H as (res & w3 & H3 & H).
  apply execute_inv in H3 as (f & raw & Hnet & Hf & -> & ->).
  apply bind_inv in H as (transRes & w4 & H4 & H).
  apply compute_inv in H4 as (trn & Htr & -> & ->).
  apply bind_inv in H as (boxes & w5 & H5 & H).
  apply tidy_inv in H5 as (bx & Hbx & -> & ->).
  apply bind_inv in H as (scores & w6 & H6 & H).
  apply tidy_inv in H6 as (sco & Hsc & -> & ->).
  apply bind_inv in H as (landmarks & w7 & H7 & H).
  apply tidy_inv in H7 as (lm & Hlm & -> & ->).
  apply bind_inv in H as (nms & w8 & H8 & H).
  rewrite nonMaxSuppressionAsync_run in H8. injection H8 as <- <-.
  apply bind_inv in H as (bd & w9 & H9 & H).
  apply gathered_inv in H9 as (Hbd & ->).
  apply bind_inv in H as (sd & w10 & H10 & H).
  apply gathered_inv in H10 as (Hsd & ->).
  apply bind_inv in H as (kp & w11 & H11 & H).
  apply compute_inv in H11 as (kpv & Hkp & -> & ->).
  apply bind_inv in H as ([] & w12 & H12 & H).
  unfold renderBoxes in H12. rewrite emit_run in H12. injection H12 as <-.
  apply bind_inv in H as ([] & w13 & H13 & H).
  rewrite dispose_run in H13. injection H13 as <-.
  apply bind_inv in H as ([] & wc & Hcb & H).
  cbn [hid hval] in *.
  change (map ?f (?a :: ?l)) with (f a :: map f l) in Hcb.
  exists (mkValues t xr yr raw trn bx sco lm
            (Suppressor.nonMaxSuppression bx sco 10 (45 # 100) (3 # 10)) bd sd kpv).
  do 4 eexists. split; [|split; [|split; [|split; [exact Hcb | exact H]]]].
  - constructor; cbn; eauto.
  - lia.
  - repeat constructor; lia.
Qed.

Section Forward.

Variables (n : nat) (top : list nat) (rest : list (list nat)) (u : list nat).

Variables (tr : list event) (rf : nat) (fps : JsNum.shown).

Variables (tm : nat -> Q) (rd : nat) (vs : session).

Let W := mkWorld n (top :: rest) u tr rf fps tm rd vs.

Lemma preprocess_run source mw mh t xRatio yRatio :
  Preprocessor.preprocess source mw mh = Some (t, xRatio, yRatio) ->
  preprocess source mw mh W
  = (Returned (mkHandle (n + 4) t, xRatio, yRatio),
     mkWorld (S (n + 4)) (((n + 4) :: top) :: rest) u tr rf fps tm rd vs).
Proof.
  intros E. unfold preprocess. rewrite E. unfold bind, W.
  now rewrite tidy_some.
Qed.

Lemma execute_run m input f raw :
  net m = Some f -> f (hval input) = Returned raw ->
  execute m input W
  = (Returned (mkHandle n raw),
     mkWorld (S n) ((n :: top) :: rest) u (CallExecute (hval input) :: tr)
             rf fps tm rd vs).
Proof.
  intros E1 E2. unfold execute. rewrite E1. unfold bind, W.
  rewrite emit_run, E2. apply alloc_run.
Qed.

Lemma gathered_run d :
  gathered (Some d) W
  = (Returned d,
     mkWorld (S (n + 0)) (((n + 0) :: rev (seq n 0) ++ top) :: rest)
             u tr rf fps tm rd vs).
Proof. unfold gathered, bind, W. now rewrite compute_some. Qed.

End Forward.

(** With valid values [detect] reaches its callback, whatever it is. *)
Lemma detect_run source m canvasRef v n sc u tr rf fps tm rd vs :
  valid_run source m v ->
  exists n' top ids,
    n <= n' /\ Forall (fun id => n <= id) ids /\
    forall callback,
      detect source m canvasRef callback (mkWorld n sc u tr rf fps tm rd vs)
      = bind callback (fun _ => endScope [])
             (mkWorld n' (top :: map (remove_ids ids) sc) (remove_ids ids u)
                      (calls v ++ tr) rf fps tm rd vs).
Proof.
  intros [Hpre (f & Hnet & Hf) Htr Hbx Hsc Hlm Hnms Hbd Hsd Hkp].
  do 3 eexists. split; [|split]; [| |intros callback].
  3:{ unfold detect.
      unfold bind at 1. rewrite startScope_run.
      unfold bind at 1. rewrite preprocess_run with (1 := Hpre).
      unfold bind at 1. rewrite execute_run with (f := f) (raw := v_res v); [|exact Hnet|exact Hf].
      cbn [hval hid]. unfold bind at 1. rewrite Htr, compute_some.
      cbn [hval hid]. unfold bind at 1. rewrite Hbx, tidy_some.
      cbn [hval hid]. unfold bind at 1. rewrite Hsc, tidy_some.
      cbn [hval hid]. unfold bind at 1. rewrite Hlm, tidy_some.
      cbn [hval hid]. unfold bind at 1. rewrite nonMaxSuppressionAsync_run.
      cbn [hval hid]. rewrite <- Hnms.
      unfold bind at 1. rewrite Hbd, gathered_run.
      unfold bind at 1. rewrite Hsd, gathered_run.
      unfold bind at 1. rewrite Hkp, compute_some.
      cbn [hval hid]. unfold bind at 1. unfold renderBoxes. rewrite emit_run.
      cbn [hval hid]. unfold bind at 1. rewrite dispose_run.
      change (map ?g (?a :: ?l)) with (g a :: map g l).
      reflexivity. }
  - lia.
  - repeat (apply Forall_cons; [lia|]). apply Forall_nil.
Qed.

Lemma valid_run_exists source m :
  pose_model m -> exists v, valid_run source m v.
Proof.
  intros (f & Hnet & Hf).
  destruct (PreprocessorFacts.preprocess_some source (nth 1 (inputShape m) 0)
              (nth 2 (inputShape m) 0)) as (p & r & _ & _ & _ & _ & Hpre).
  destruct (Hf (expandDims0 (div_scalar r 255))) as (raw & n & Hraw & Hs & Hn).
  destruct (DecoderFacts.transpose021_spec raw Hs) as (trn & Htr & Hst & _).
  destruct (DecoderFacts.decode_boxes_spec trn Hst) as (bx & Hbx & Hsbx & _); [lia|].
  destruct (DecoderFacts.decode_scores_spec trn Hst) as (sco & Hsc & Hssc & Hlsc & _); [lia|].
  destruct (DecoderFacts.decode_landmarks_spec trn Hst) as (lm & Hlm & Hslm & _); [lia|].
  rewrite DecoderFacts.squeeze_shape in Hsbx by lia.
  rewrite DecoderFacts.squeeze_shape1 in Hssc by lia.
  change (56 - 5) with 51 in Hslm. rewrite DecoderFacts.squeeze_shape in Hslm by lia.
  set (nms := Suppressor.nonMaxSuppression bx sco 10 (45 # 100) (3 # 10)).
  assert (Hidx : Forall (fun i => i < n) nms).
  { unfold nms. rewrite <- Hlsc. apply SuppressorFacts.nonMaxSuppression_bound. }
  destruct (DecoderFacts.gather0_data bx Hsbx Hidx) as (gb & Hgb).
  destruct (DecoderFacts.gather0_data sco Hssc Hidx) as (gs & Hgs).
  destruct (DecoderFacts.landmarks_data_spec lm Hslm Hidx) as (kp & Hkp & _).
  match type of Hpre with _ = Some (_, ?x, ?y) =>
    exists (mkValues (expandDims0 (div_scalar r 255)) x y raw trn bx sco lm nms
                     (dataSync gb) (dataSync gs) kp)
  end.
  constructor; cbn [v_input v_xRatio v_yRatio v_res v_transRes v_boxes v_scores
                    v_landmarks v_nms v_boxes_data v_scores_data v_landmarks_data];
    first [ assumption | reflexivity | exact Hpre | now exists f
          | unfold Decoder.boxes_data; now rewrite Hgb
          | unfold Decoder.scores_data; now rewrite Hgs ].
Qed.

Lemma quiet_step_refl w : quiet_step w w.
Proof. repeat split; auto. exists []. auto. Qed.

Lemma quiet_step_trans w1 w2 w3 :
  quiet_step w1 w2 -> quiet_step w2 w3 -> quiet_step w1 w3.
Proof.
  intros (F1 & V1 & T1 & R1 & Q1 & n1 & E1 & D1) (F2 & V2 & T2 & R2 & Q2 & n2 & E2 & D2).
  repeat split; try congruence; try lia.
  exists (n2 ++ n1). split.
  - rewrite E2, E1. apply app_assoc.
  - apply Forall_app. auto.
Qed.

Lemma quiet_ret {A} (a : A) : quiet (ret a).
Proof. intros w. apply quiet_step_refl. Qed.

Lemma quiet_throw {A} e : quiet (@throw A e).
Proof. intros w. apply quiet_step_refl. Qed.

Lemma quiet_bind {A B} (c : M A) (k : A -> M B) :
  quiet c -> (forall a, quiet (k a)) -> quiet (bind c k).
Proof.
  intros Hc Hk w. unfold bind. specialize (Hc w).
  destruct (c w) as [[a|e] w1]; cbn [snd] in *; [|exact Hc].
  eapply quiet_step_trans; [exact Hc | apply Hk].
Qed.

Lemma quiet_engine {A} (c : M A) :
  (forall w, exists n sc u, snd (c w) = set_engine n sc u w) -> quiet c.
Proof.
  intros H w. destruct (H w) as (n & sc & u & ->).
  repeat split; auto. exists []. auto.
Qed.

Lemma quiet_alloc {A} (v : A) : quiet (alloc v).
Proof.
  apply quiet_engine. intros w. unfold alloc.
  destruct (track _ _ _) as [sc u]. cbn. eauto.
Qed.

Lemma quiet_startScope : quiet startScope.
Proof. apply quiet_engine. intros w. cbn. eauto. Qed.

Lemma quiet_endScope keep : quiet (endScope keep).
Proof.
  apply quiet_engine. intros w. unfold endScope.
  destruct (scopes w) as [|top rest] eqn:E.
  - exists (next_id w), (scopes w), (untracked w). now destruct w.
  - destruct (fold_right _ _ _) as [sc u]. cbn. eauto.
Qed.

Lemma quiet_dispose ids : quiet (dispose ids).
Proof. apply quiet_engine. intros w. cbn. eauto. Qed.

Lemma quiet_temporaries k : quiet (temporaries k).
Proof.
  induction k; cbn [temporaries]; [apply quiet_ret|].
  apply quiet_bind; [apply quiet_alloc | auto].
Qed.

Lemma quiet_compute {A} k (v : option A) : quiet (compute k v).
Proof.
  unfold compute. apply quiet_bind; [apply quiet_temporaries|].
  intros _. destruct v; [apply quiet_alloc | apply quiet_throw].
Qed.

Lemma quiet_tidy {A} (body : M (handle A)) : quiet body -> quiet (tidy body).
Proof.
  intros Hb w. unfold tidy.
  pose proof (@quiet_bind _ _ startScope (fun _ => body) quiet_startScope (fun _ => Hb) w) as H1.
  destruct (bind startScope (fun _ => body) w) as [[h|e] w1]; cbn [snd] in *;
    (eapply quiet_step_trans; [exact H1 | apply quiet_endScope]).
Qed.

Lemma quiet_emit e : detect_event e -> quiet (emit e).
Proof.
  intros He w. repeat split; auto. exists [e]. split; [reflexivity | auto].
Qed.

Lemma quiet_requestAnimationFrame : quiet requestAnimationFrame.
Proof.
  intros w. repeat split; cbn; auto.
  exists [CallRequestAnimationFrame]. split; [reflexivity|]. constructor; cbn; auto.
Qed.

Lemma quiet_detect source m canvasRef callback :
  quiet callback -> quiet (detect source m canvasRef callback).
Proof.
  intros Hcb. unfold detect.
  apply quiet_bind; [apply quiet_startScope | intros _].
  apply quiet_bind.
  { unfold preprocess. destruct (Preprocessor.preprocess _ _ _) as [[[t x] y]|].
    - apply quiet_bind; [apply quiet_tidy, quiet_compute | intros; apply quiet_ret].
    - apply quiet_bind; [apply quiet_tidy, quiet_compute | intros; apply quiet_throw]. }
  intros [[input xRatio] yRatio].
  apply quiet_bind.
  { unfold execute. destruct (net m) as [f|]; [|apply quiet_throw].
    apply quiet_bind; [apply quiet_emit; exact I | intros _].
    destruct (f _); [apply quiet_alloc | apply quiet_throw]. }
  intros res.
  apply quiet_bind; [apply quiet_compute | intros transRes].
  apply quiet_bind; [apply quiet_tidy, quiet_compute | intros boxes].
  apply quiet_bind; [apply quiet_tidy, quiet_compute | intros scores].
  apply quiet_bind; [apply quiet_tidy, quiet_compute | intros landmarks].
  apply quiet_bind.
  { unfold nonMaxSuppressionAsync.
    apply quiet_bind; [apply quiet_emit; cbn; auto | intros _; apply quiet_alloc]. }
  intros nms.
  apply quiet_bind.
  { unfold gathered. apply quiet_bind; [apply quiet_compute | intros; apply quiet_ret]. }
  intros boxes_data.
  apply quiet_bind.
  { unfold gathered. apply quiet_bind; [apply quiet_compute | intros; apply quiet_ret]. }
  intros scores_data.
  apply quiet_bind; [apply quiet_compute | intros landmarks_data].
  apply quiet_bind; [apply quiet_emit; exact I | intros _].
  apply quiet_bind; [apply quiet_dispose | intros _].
  apply quiet_bind; [exact Hcb | intros _].
  apply quiet_endScope.
Qed.

Lemma engine_neutral_ret : engine_neutral (ret tt).
Proof. intros w. auto. Qed.

Lemma engine_neutral_requestAnimationFrame : engine_neutral requestAnimationFrame.
Proof. intros w. auto. Qed.

Lemma detect_no_leak source m canvasRef callback w w' :
  fresh w -> engine_neutral callback ->
  detect source m canvasRef callback w = (Returned tt, w') ->
  scopes w' = scopes w /\ untracked w' = untracked w.
Proof.
  destruct w as [n sc u tr rf fps tm rd vs]. intros [Hsc Hu] Hcb H.
  cbn [next_id scopes untracked] in *.
  apply detect_inv in H as (v & n' & top & ids & wc & _ & _ & Hids & Hrun & Hend).
  destruct (Hcb (mkWorld n' (top :: map (remove_ids ids) sc) (remove_ids ids u)
                         (calls v ++ tr) rf fps tm rd vs)) as [E1 E2].
  rewrite Hrun in E1, E2. cbn [snd scopes untracked] in E1, E2.
  unfold endScope in Hend. rewrite E1 in Hend. cbn in Hend.
  injection Hend as <-. cbn [scopes untracked set_engine].
  rewrite E2, (map_remove_ids_fresh Hsc Hids), (remove_ids_fresh Hu Hids). auto.
Qed.

(** With a loaded pose model and the default callback, [detect] returns,
    makes exactly its three calls and leaves the engine as it found it. *)
Lemma detect_default source m canvasRef w :
  pose_model m -> fresh w ->
  exists v w',
    valid_run source m v /\
    detect source m canvasRef (ret tt) w = (Returned tt, w') /\
    trace w' = calls v ++ trace w /\
    scopes w' = scopes w /\ untracked w' = untracked w.
Proof.
  intros Hm Hw. destruct (valid_run_exists source Hm) as (v & Hv).
  destruct w as [n sc u tr rf fps tm rd vs].
  destruct (detect_run canvasRef n sc u tr rf fps tm rd vs Hv)
    as (n' & top & ids & _ & Hids & Hrun).
  exists v. eexists. split; [exact Hv|]. split.
  - rewrite Hrun. unfold bind, ret. rewrite endScope_run. reflexivity.
  - destruct Hw as [Hsc Hu]. cbn [next_id scopes untracked trace] in *.
    rewrite (map_remove_ids_fresh Hsc Hids), (remove_ids_fresh Hu Hids). auto.
Qed.

(** A detection that returns made its three calls, in order, before
    whatever its callback did. *)
Lemma detect_returned source m canvasRef callback w w' :
  quiet callback ->
  detect source m canvasRef callback w = (Returned tt, w') ->
  exists v after, valid_run source m v /\ trace w' = after ++ calls v ++ trace w.
Proof.
  destruct w as [n sc u tr rf fps tm rd vs]. intros Hcb H.
  apply detect_inv in H as (v & n' & top & ids & wc & Hv & _ & _ & Hrun & Hend).
  destruct (Hcb (mkWorld n' (top :: map (remove_ids ids) sc) (remove_ids ids u)
                         (calls v ++ tr) rf fps tm rd vs))
    as (_ & _ & _ & _ & _ & after & E & _).
  rewrite Hrun in E. cbn [snd trace] in E.
  exists v, after. split; [exact Hv|].
  unfold endScope in Hend. destruct (scopes wc) as [|t r].
  - injection Hend as <-. exact E.
  - destruct (fold_right _ _ _) as [sc' u']. injection Hend as <-. exact E.
Qed.

(** With a loaded pose model, a streaming detection returns after its
    three calls and the request for the next frame. *)
Lemma detect_streaming source m canvasRef w :
  pose_model m ->
  exists v w',
    valid_run source m v /\
    detect source m canvasRef requestAnimationFrame w = (Returned tt, w') /\
    trace w' = CallRequestAnimationFrame :: calls v ++ trace w /\
    requested_frames w' = S (requested_frames w).
Proof.
  intros Hm. destruct (valid_run_exists source Hm) as (v & Hv).
  destruct w as [n sc u tr rf fps tm rd vs].
  destruct (detect_run canvasRef n sc u tr rf fps tm rd vs Hv)
    as (n' & top & ids & _ & _ & Hrun).
  exists v. eexists. split; [exact Hv|]. split.
  - rewrite Hrun. reflexivity.
  - split; reflexivity.
Qed.

(** [preprocess] returns in every world. *)
Lemma temporaries_returns k : forall w, exists w', temporaries k w = (Returned tt, w').
Proof.
  induction k as [|k IH]; intros w; cbn [temporaries]; [now exists w|].
  unfold bind. destruct (alloc tt w) as [[h|e] w1] eqn:E.
  - apply IH.
  - unfold alloc in E. destruct (track _ _ _). discriminate.
Qed.

Lemma tidy_compute_returns {A} k (a : A) w :
  exists h w', tidy (compute k (Some a)) w = (Returned h, w') /\ hval h = a.
Proof.
  unfold tidy, compute, bind.
  destruct (startScope w) as [[[]|e] w0] eqn:E0; [|discriminate].
  destruct (temporaries_returns k w0) as (w1 & ->).
  unfold alloc. destruct (track _ _ _) as [sc u]. cbn [hid]. eauto.
Qed.

Lemma preprocess_returns f modelWidth modelHeight w :
  exists input xRatio yRatio w',
    preprocess f modelWidth modelHeight w = (Returned (input, xRatio, yRatio), w') /\
    Preprocessor.preprocess f modelWidth modelHeight = Some (hval input, xRatio, yRatio).
Proof.
  destruct (PreprocessorFacts.preprocess_some f modelWidth modelHeight)
    as (p & r & _ & _ & _ & _ & E).
  unfold preprocess. rewrite E. unfold bind.
  destruct (tidy_compute_returns 4 (expandDims0 (div_scalar r 255)) w) as (h & w' & -> & Hh).
  unfold ret. exists h. do 3 eexists. split; [reflexivity|]. now rewrite Hh.
Qed.

End DetectFacts.

(** ** Running the frame scheduler *)

Module SchedulerFacts.
Import Tensor Runtime RuntimeFacts Detect DetectSpec DetectFacts JsNum SchedulerSpec.
Local Open Scope Q_scope.

Lemma detectFrame_closed vid m canvasRef w :
  source_closed vid = true ->
  detectFrame vid m canvasRef w
  = (Returned tt,
     set_trace (CallClearRect 0 0 (canvas_width canvasRef) (canvas_height canvasRef)
                  :: trace w) w).
Proof.
  intros H. unfold detectFrame. unfold source_closed in H. now rewrite H.
Qed.

(** An open source: the tick is the detection, entered from [started w],
    followed by the measurement when the detection returns. *)
Lemma detectFrame_open vid m canvasRef w :
  source_closed vid = false ->
  detectFrame vid m canvasRef w
  = match detect (picture vid) m canvasRef requestAnimationFrame (started w) with
    | (Returned _, w1) => (Returned tt, measured w1)
    | (Thrown e, w1) => (Thrown e, w1)
    end.
Proof.
  intros H. unfold detectFrame. unfold source_closed in H. rewrite H.
  destruct w as [n sc u tr rf fps tm rd vs].
  unfold bind at 1. unfold now at 1. cbn [timer timer_reads set_timer_reads next_id
    scopes untracked trace requested_frames fps_text vars].
  unfold bind at 1. unfold get_vars at 1. cbn [vars].
  unfold bind at 1. unfold put_vars at 1, set_vars. cbn [next_id
    scopes untracked trace requested_frames fps_text vars timer timer_reads].
  unfold bind at 1. unfold started. cbn [timer timer_reads set_timer_reads set_vars
    next_id scopes untracked trace requested_frames fps_text vars].
  destruct (detect _ _ _ _ _) as [[[]|e] w1]; [|reflexivity].
  destruct w1 as [n1 sc1 u1 tr1 rf1 fps1 tm1 rd1 vs1].
  unfold measured, bind, now, get_vars, put_vars, emit, set_fps, ret, window_fps,
    window_total.
  cbn [timer timer_reads set_timer_reads set_vars set_trace set_fps_text next_id
    scopes untracked trace requested_frames fps_text vars startInferenceTime
    endInferenceTime inferenceTimeSum numInferences lastFpsRefresh fst snd].
  destruct (Qle_bool _ _); reflexivity.
Qed.

(** *** [parseInt] on the plain-decimal range *)
Lemma parseInt_floor q :
  1 # 1000000 <= q -> q < inject_Z (10 ^ 21) ->
  parseInt (Finite q) = ShownInt (Qfloor q).
Proof.
  intros Hlo Hhi. unfold parseInt.
  assert (Hpos : 0 < q) by (eapply Qlt_le_trans; [|exact Hlo]; reflexivity).
  assert (Habs : Qabs q = q).
  { destruct q as [a b]. unfold Qabs. f_equal. apply Z.abs_eq.
    unfold Qlt in Hpos. cbn in Hpos. lia. }
  rewrite Habs.
  replace (Qlt_bool q 0) with false.
  2:{ symmetry. unfold Qlt_bool. apply negb_false_iff, Qle_bool_iff. lra. }
  replace (Qeq_bool q 0) with false.
  2:{ symmetry. apply not_true_is_false. intros E. apply Qeq_bool_iff in E. lra. }
  replace (Qle_bool (1 # 1000000) q) with true by (symmetry; now apply Qle_bool_iff).
  replace (Qlt_bool q (inject_Z (10 ^ 21))) with true.
  2:{ symmetry. unfold Qlt_bool. apply negb_true_iff, not_true_is_false.
      intros E. apply Qle_bool_iff in E. lra. }
  cbn [andb]. f_equal. lia.
Qed.

Lemma div_finite a b : ~ b == 0 -> div (Finite a) (Finite b) = Finite (a / b).
Proof.
  intros H. unfold div. replace (Qeq_bool b 0) with false; [reflexivity|].
  symmetry. apply not_true_is_false. intros E. now apply Qeq_bool_iff in E.
Qed.

Lemma Qnat_S_pos k : 0 < Preprocessor.Qnat (S k).
Proof.
  unfold Preprocessor.Qnat. change 0 with (inject_Z 0). rewrite <- Zlt_Qlt. lia.
Qed.

(** With a positive window total, the metric is the integer part of
    [1000 / (total / count)] as long as that quotient is between 1e-6 and
    1e21. *)
Lemma window_fps_floor s t1 :
  0 < window_total s t1 ->
  let average := window_total s t1 / Preprocessor.Qnat (S (numInferences s)) in
  1 # 1000000 <= 1000 / average -> 1000 / average < inject_Z (10 ^ 21) ->
  window_fps s t1 = ShownInt (Qfloor (1000 / average)).
Proof.
  intros Ht average Hlo Hhi. unfold window_fps.
  pose proof (Qnat_S_pos (numInferences s)) as Hc.
  rewrite div_finite by lra.
  assert (0 < average).
  { unfold average. apply Qlt_shift_div_l; [exact Hc | lra]. }
  rewrite div_finite by (fold average; lra).
  now apply parseInt_floor.
Qed.

Lemma source_closed_iff vid :
  source_closed vid = true <-> videoWidth vid = 0%nat /\ srcObject vid = None.
Proof.
  unfold source_closed. rewrite andb_true_iff, Nat.eqb_eq.
  destruct (srcObject vid); cbn; intuition congruence.
Qed.

(** A tick writes the metric only when it publishes: either the metric is
    untouched, or the detection returned into a world [w1] whose window
    has lasted 1000 ms and the metric becomes that window's value. *)
Lemma tick_metric vid m canvasRef w :
  let w' := snd (detectFrame vid m canvasRef w) in
  (fps_text w' = fps_text w /\
   exists new, trace w' = new ++ trace w /\ no_metric_write new) \/
  (exists w1 new,
     detect (picture vid) m canvasRef requestAnimationFrame (started w) = (Returned tt, w1) /\
     FPSUpdateMilliseconds <= timer w1 (timer_reads w1) - lastFpsRefresh (vars w1) /\
     fps_text w' = window_fps (vars w1) (timer w1 (timer_reads w1)) /\
     trace w' = SetFps (fps_text w') :: new ++ trace w /\ no_metric_write new).
Proof.
  cbv zeta. destruct (source_closed vid) eqn:Hc.
  - rewrite detectFrame_closed by assumption. left. split; [reflexivity|].
    exists [CallClearRect 0 0 (canvas_width canvasRef) (canvas_height canvasRef)].
    split; [reflexivity|]. intros u [H|[]]. discriminate.
  - rewrite detectFrame_open by assumption.
    pose proof (@quiet_detect (picture vid) m canvasRef requestAnimationFrame
                  quiet_requestAnimationFrame (started w))
      as (F & V & T & R & _ & new & E & D).
    assert (Hnew : no_metric_write new).
    { intros u Hin. rewrite Forall_forall in D. exact (D _ Hin). }
    destruct (detect _ _ _ _ _) as [[[]|e] w1] eqn:Ed; cbn [snd] in *.
    + unfold measured.
      destruct (Qle_bool FPSUpdateMilliseconds _) eqn:Eq.
      * right. exists w1, (ConsoleLog (timer w1 (timer_reads w1)
                                      - startInferenceTime (vars w1)) :: new).
        split; [reflexivity|]. split; [now apply Qle_bool_iff|].
        cbn [fps_text trace]. split; [reflexivity|]. split.
        -- rewrite E. reflexivity.
        -- intros u [H|H]; [discriminate | exact (Hnew u H)].
      * left. cbn [fps_text trace]. split; [exact F|].
        exists (ConsoleLog (timer w1 (timer_reads w1)
                            - startInferenceTime (vars w1)) :: new).
        split; [rewrite E; reflexivity|].
        intros u [H|H]; [discriminate | exact (Hnew u H)].
    + left. split; [exact F|]. exists new. split; [exact E | exact Hnew].
Qed.

(** A tick of an open source whose detection returns: with [t0] and [t1]
    the two timer readings, [total] the window's accumulated time and
    [count] its number of detections, when [t1 - lastFpsRefresh >= 1000]
    the metric becomes [parseInt(1000 / (total / count))], both
    accumulators are reset to 0 and [lastFpsRefresh] becomes [t1];
    otherwise the accumulators keep [total] and [count] and the metric is
    unchanged.  When [total] is positive and [1000 / (total / count)] lies
    in [[1e-6, 1e21)], the published value is its floor. *)
Lemma detectFrame_publish vid m canvasRef w w' :
  source_closed vid = false ->
  detectFrame vid m canvasRef w = (Returned tt, w') ->
  let t0 := timer w (timer_reads w) in
  let t1 := timer w (S (timer_reads w)) in
  let total := inferenceTimeSum (vars w) + (t1 - t0) in
  let count := S (numInferences (vars w)) in
  let average := total / Preprocessor.Qnat count in
  (1000 <= t1 - lastFpsRefresh (vars w) ->
     fps_text w' = parseInt (div (Finite 1000) (div (Finite total)
                                                   (Finite (Preprocessor.Qnat count)))) /\
     inferenceTimeSum (vars w') = 0 /\ numInferences (vars w') = 0%nat /\
     lastFpsRefresh (vars w') = t1 /\
     (0 < total -> 1 # 1000000 <= 1000 / average -> 1000 / average < inject_Z (10 ^ 21) ->
      fps_text w' = ShownInt (Qfloor (1000 / average)))) /\
  (t1 - lastFpsRefresh (vars w) < 1000 ->
     fps_text w' = fps_text w /\
     inferenceTimeSum (vars w') = total /\ numInferences (vars w') = count /\
     lastFpsRefresh (vars w') = lastFpsRefresh (vars w)).
Proof.
  intros Hc H. rewrite detectFrame_open in H by assumption.
  pose proof (@quiet_detect (picture vid) m canvasRef requestAnimationFrame
                quiet_requestAnimationFrame (started w))
    as (F & V & T & R & _).
  destruct (detect _ _ _ _ _) as [[[]|e] w1]; [|discriminate].
  injection H as <-. cbn [snd] in *. cbv zeta.
  assert (Et : timer w1 (timer_reads w1) = timer w (S (timer_reads w))).
  { rewrite T, R. reflexivity. }
  assert (El : lastFpsRefresh (vars w1) = lastFpsRefresh (vars w)) by now rewrite V.
  assert (Etot : window_total (vars w1) (timer w (S (timer_reads w)))
                 = inferenceTimeSum (vars w)
                   + (timer w (S (timer_reads w)) - timer w (timer_reads w))).
  { unfold window_total. now rewrite V. }
  assert (En : numInferences (vars w1) = numInferences (vars w)) by now rewrite V.
  assert (Ew : window_fps (vars w1) (timer w (S (timer_reads w)))
               = parseInt (div (Finite 1000)
                   (div (Finite (inferenceTimeSum (vars w)
                                 + (timer w (S (timer_reads w)) - timer w (timer_reads w))))
                        (Finite (Preprocessor.Qnat (S (numInferences (vars w)))))))).
  { unfold window_fps. now rewrite Etot, En. }
  unfold measured. rewrite Et, El.
  destruct (Qle_bool FPSUpdateMilliseconds _) eqn:Eq;
    cbn [fps_text vars inferenceTimeSum numInferences lastFpsRefresh].
  - split.
    + intros _. split; [exact Ew|]. do 3 (split; [reflexivity|]).
      intros Ht Hlo Hhi. rewrite <- Etot in Ht.
      rewrite (@window_fps_floor (vars w1) (timer w (S (timer_reads w))) Ht);
        rewrite Etot, En; auto.
    + intros Hlt. apply Qle_bool_iff in Eq. unfold FPSUpdateMilliseconds in Eq. lra.
  - split.
    + intros Hle. apply Qle_bool_iff in Hle. unfold FPSUpdateMilliseconds in Eq.
      congruence.
    + intros _. rewrite Etot, En. repeat split. exact F.
Qed.

End SchedulerFacts.

(** ** Running [detect] into an exception *)

Module ErrorFacts.
Import Tensor Runtime RuntimeFacts Detect DetectSpec DetectFacts ErrorSpec.
Local Open Scope nat_scope.

Lemma returns_ret : returns (ret tt).
Proof. intros w. reflexivity. Qed.

Lemma returns_requestAnimationFrame : returns requestAnimationFrame.
Proof. intros w. reflexivity. Qed.

Lemma endScope_returns keep w : fst (endScope keep w) = Returned tt.
Proof.
  unfold endScope. destruct (scopes w); [reflexivity|].
  now destruct (fold_right _ _ _).
Qed.

Ltac stop new :=
  intros [= <- <-]; do 2 eexists; exists new; cbn [app];
  split; [reflexivity|]; split; [lia|];
  split; [cbn; repeat (first [left; reflexivity | right])|];
  split; [cbn; repeat (apply Forall_cons; [lia|]); apply Forall_nil|];
  split; [repeat (apply Forall_cons; [cbn; auto|]); apply Forall_nil|];
  split; [intros Hnone; first [congruence | repeat split; reflexivity]|];
  split; [|cbn; lia];
  first [ left; split; reflexivity
        | right; left; do 4 eexists; split; [eassumption|]; split; [reflexivity | eassumption]
        | right; right; reflexivity ].

(** Where [detect] stops when it throws: its scope is still the innermost
    one and holds the input tensor, the enclosing scopes and the untracked
    tensors are untouched, nothing was drawn and no frame was requested. *)
Lemma detect_thrown source m canvasRef callback n sc u tr rf fps tm rd vs e w' :
  returns callback ->
  detect source m canvasRef callback (mkWorld n sc u tr rf fps tm rd vs)
  = (Thrown e, w') ->
  exists n' top new,
    w' = mkWorld n' (top :: sc) u (new ++ tr) rf fps tm rd vs /\
    n + 5 <= n' /\ In (n + 4) top /\ Forall (fun id => n <= id < n') top /\
    Forall before_render new /\
    (net m = None -> e = TypeError /\ new = [] /\ top = [n + 4]) /\
    ((net m = None /\ e = TypeError) \/
     (exists f t xRatio yRatio,
        Preprocessor.preprocess source (nth 1 (inputShape m) 0) (nth 2 (inputShape m) 0)
        = Some (t, xRatio, yRatio) /\
        net m = Some f /\ f t = Thrown e) \/
     e = TfError) /\
    length (filter is_execute new) <= 1.
Proof.
  intros Hcb. unfold detect.
  unfold bind at 1. rewrite startScope_run.
  destruct (PreprocessorFacts.preprocess_some source (nth 1 (inputShape m) 0)
              (nth 2 (inputShape m) 0)) as (p & r & _ & _ & _ & _ & Hpre).
  unfold bind at 1. rewrite preprocess_run with (1 := Hpre).
  cbn [hval hid].
  unfold bind at 1. destruct (net m) as [f|] eqn:Hnet.
  2:{ unfold execute. rewrite Hnet. unfold throw. stop (@nil event). }
  destruct (f (expandDims0 (div_scalar r 255))) as [raw|e0] eqn:Hf.
  2:{ unfold execute. rewrite Hnet. unfold bind. rewrite emit_run. cbn [hval]. rewrite Hf.
      unfold throw. stop [CallExecute (expandDims0 (div_scalar r 255))]. }
  rewrite execute_run with (f := f) (raw := raw); [|exact Hnet|exact Hf].
  cbn [hval hid]. unfold bind at 1.
  destruct (transpose021 raw) as [trn|].
  2:{ rewrite compute_none. stop [CallExecute (expandDims0 (div_scalar r 255))]. }
  rewrite compute_some. cbn [hval hid]. unfold bind at 1.
  destruct (Decoder.decode_boxes trn) as [bx|].
  2:{ rewrite tidy_none. stop [CallExecute (expandDims0 (div_scalar r 255))]. }
  rewrite tidy_some. cbn [hval hid]. unfold bind at 1.
  destruct (Decoder.decode_scores trn) as [sco|].
  2:{ rewrite tidy_none. stop [CallExecute (expandDims0 (div_scalar r 255))]. }
  rewrite tidy_some. cbn [hval hid]. unfold bind at 1.
  destruct (Decoder.decode_landmarks trn) as [lm|].
  2:{ rewrite tidy_none. stop [CallExecute (expandDims0 (div_scalar r 255))]. }
  rewrite tidy_some. cbn [hval hid]. unfold bind at 1.
  rewrite nonMaxSuppressionAsync_run. cbn [hval hid].
  set (nms := Suppressor.nonMaxSuppression bx sco 10 (45 # 100) (3 # 10)).
  unfold bind at 1. destruct (Decoder.boxes_data bx nms) as [bd|].
  2:{ unfold gathered, bind. rewrite compute_none.
      stop [CallNonMaxSuppression bx sco 10 (45 # 100) (3 # 10);
            CallExecute (expandDims0 (div_scalar r 255))]. }
  rewrite gathered_run.
  unfold bind at 1. destruct (Decoder.scores_data sco nms) as [sd|].
  2:{ unfold gathered, bind. rewrite compute_none.
      stop [CallNonMaxSuppression bx sco 10 (45 # 100) (3 # 10);
            CallExecute (expandDims0 (div_scalar r 255))]. }
  rewrite gathered_run.
  unfold bind at 1. destruct (Decoder.landmarks_data lm nms) as [kp|].
  2:{ rewrite compute_none.
      stop [CallNonMaxSuppression bx sco 10 (45 # 100) (3 # 10);
            CallExecute (expandDims0 (div_scalar r 255))]. }
  rewrite compute_some. cbn [hval hid].
  unfold bind at 1. unfold renderBoxes. rewrite emit_run.
  unfold bind at 1. rewrite dispose_run.
  unfold bind at 1.
  match goal with |- context [callback ?W] =>
    specialize (Hcb W); destruct (callback W) as [[[]|e1] wc]; cbn [fst] in Hcb;
      [|discriminate]
  end.
  pose proof (endScope_returns [] wc) as He.
  destruct (endScope [] wc) as [[[]|e2] w2]; cbn [fst] in He; discriminate.
Qed.

(** A streaming detection that returns: the world it returns into. *)
Lemma detect_streaming_inv source m canvasRef n sc u tr rf fps tm rd vs w' :
  detect source m canvasRef requestAnimationFrame (mkWorld n sc u tr rf fps tm rd vs)
  = (Returned tt, w') ->
  exists v n' ids,
    valid_run source m v /\ n <= n' /\ Forall (fun id => n <= id) ids /\
    w' = mkWorld n' (map (remove_ids ids) sc) (remove_ids ids u)
                 (CallRequestAnimationFrame :: calls v ++ tr) (S rf) fps tm rd vs.
Proof.
  intros H. apply detect_inv in H as (v & n' & top & ids & wc & Hv & Hn & Hids & Hcb & Hend).
  unfold requestAnimationFrame in Hcb. injection Hcb as <-.
  unfold endScope in Hend. cbn in Hend. injection Hend as <-.
  exists v, n', ids. auto.
Qed.

End ErrorFacts.

(** ** Ticks of the frame scheduler, case by case *)

Module TickFacts.
Import Tensor Runtime RuntimeFacts Detect DetectSpec DetectFacts ErrorSpec ErrorFacts.
Import JsNum SchedulerSpec SchedulerFacts.
Local Open Scope nat_scope.

Section Tick.

Variables (vid : video) (m : model) (canvasRef : canvas).

Variables (n : nat) (sc : list (list nat)) (u : list nat).

Variables (tr : list event) (rf : nat) (fps : shown).

Variables (tm : nat -> Q) (rd : nat) (vs : session).

Let w := mkWorld n sc u tr rf fps tm rd vs.

Let vs0 := mkSession (tm rd) (endInferenceTime vs) (inferenceTimeSum vs)
                     (numInferences vs) (lastFpsRefresh vs).

(** A tick does one of three things: it clears the canvas (closed
    source), or its detection returns and the tick measures it, or its
    detection throws and the tick throws. *)
Lemma tick_cases :
  (source_closed vid = true /\
   detectFrame vid m canvasRef w
   = (Returned tt,
      mkWorld n sc u
              (CallClearRect 0 0 (canvas_width canvasRef) (canvas_height canvasRef) :: tr)
              rf fps tm rd vs)) \/
  (source_closed vid = false /\
   exists v n' ids,
     valid_run (picture vid) m v /\ n <= n' /\ Forall (fun id => n <= id) ids /\
     detectFrame vid m canvasRef w
     = (Returned tt,
        measured (mkWorld n' (map (remove_ids ids) sc) (remove_ids ids u)
                          (CallRequestAnimationFrame :: calls v ++ tr) (S rf) fps tm
                          (S rd) vs0))) \/
  (source_closed vid = false /\
   exists e n' top new,
     detectFrame vid m canvasRef w
     = (Thrown e, mkWorld n' (top :: sc) u (new ++ tr) rf fps tm (S rd) vs0) /\
     n + 5 <= n' /\ In (n + 4) top /\ Forall (fun id => n <= id < n') top /\
     Forall before_render new /\
     (net m = None -> e = TypeError /\ new = [] /\ top = [n + 4]) /\
     length (filter is_execute new) <= 1).
Proof.
  destruct (source_closed vid) eqn:Hc.
  - left. split; [reflexivity|]. now rewrite detectFrame_closed.
  - right. rewrite detectFrame_open by assumption.
    change (started w) with (mkWorld n sc u tr rf fps tm (S rd) vs0).
    destruct (detect _ _ _ _ _) as [[[]|e] w1] eqn:Hd.
    + left. split; [reflexivity|].
      apply detect_streaming_inv in Hd as (v & n' & ids & Hv & Hn & Hids & ->).
      exists v, n', ids. auto.
    + right. split; [reflexivity|].
      apply detect_thrown in Hd
        as (n' & top & new & -> & H1 & H2 & H3 & H4 & H5 & _ & H6);
        [|exact returns_requestAnimationFrame].
      exists e, n', top, new. auto 10.
Qed.

End Tick.

End TickFacts.

(** ** The loop of animation frames *)

Module StreamFacts.
Import Tensor Runtime RuntimeFacts Detect DetectSpec DetectFacts ErrorSpec ErrorFacts.
Import JsNum SchedulerSpec SchedulerFacts TickFacts.
Local Open Scope nat_scope.

(** A property kept by every tick that the browser runs is kept by the
    whole loop. *)
Lemma animation_frames_invariant (P : world -> Prop) m canvasRef :
  (forall v w k, P w -> requested_frames w = S k ->
     P (snd (detectFrame v m canvasRef (set_requested_frames k w)))) ->
  forall snapshots w, P w -> P (animation_frames snapshots m canvasRef w).
Proof.
  intros Hstep snapshots. induction snapshots as [|v rest IH]; intros w Hw; cbn; [exact Hw|].
  destruct (requested_frames w) as [|k] eqn:E; [exact Hw|].
  apply IH, Hstep; assumption.
Qed.

Lemma measured_requested_frames w : requested_frames (measured w) = requested_frames w.
Proof. unfold measured. destruct (Qle_bool _ _); reflexivity. Qed.

Lemma measured_engine w :
  next_id (measured w) = next_id w /\ scopes (measured w) = scopes w /\
  untracked (measured w) = untracked w /\ timer (measured w) = timer w.
Proof. unfold measured. destruct (Qle_bool _ _); auto. Qed.

(** What a tick does to the pending callbacks. *)
Lemma tick_requested_frames vid m canvasRef w :
  let r := detectFrame vid m canvasRef w in
  (source_closed vid = false /\ fst r = Returned tt /\
   requested_frames (snd r) = S (requested_frames w)) \/
  ((source_closed vid = true \/ exists e, fst r = Thrown e) /\
   requested_frames (snd r) = requested_frames w).
Proof.
  destruct w as [n sc u tr rf fps tm rd vs]. cbv zeta.
  destruct (tick_cases vid m canvasRef n sc u tr rf fps tm rd vs)
    as [(Hc & ->)|[(Hc & v & n' & ids & _ & _ & _ & ->)|(Hc & e & n' & top & new & -> & _)]];
    cbn [fst snd].
  - right. auto.
  - left. rewrite measured_requested_frames. auto.
  - right. split; [right; now exists e | reflexivity].
Qed.

End StreamFacts.

(** ** What a run of [detect] says about the raw output *)

Module PipelineFacts.
Import Index IndexFacts Tensor Decoder DecoderFacts Runtime Detect DetectSpec.
Local Open Scope nat_scope.

Lemma slice_len_one_inv d b k : slice_len d b 1 = Some k -> b < d /\ k = 1.
Proof.
  unfold slice_len. change (1 =? -1)%Z with false. change (0 <=? 1)%Z with true.
  change (Z.to_nat 1) with 1. cbv iota. rewrite andb_true_l.
  destruct (b + 1 <=? d) eqn:E; [|discriminate].
  apply Nat.leb_le in E. intros [= <-]. split; [lia | reflexivity].
Qed.

Lemma reshape_flat_inv values kp :
  reshape_flat values [-1; 3; 17]%Z = Some kp -> length values mod 51 = 0.
Proof.
  unfold reshape_flat, infer_shape.
  change (implicit_scan [-1; 3; 17]%Z 0) with (Some (51, Some 0)).
  cbv iota beta. change (51 =? 0) with false. cbv iota.
  destruct (length values mod 51 =? 0) eqn:E; [|discriminate].
  intros _. now apply Nat.eqb_eq.
Qed.

(** A detection goes through only if the raw output has rank 3 with at
    least five attribute rows, is not a single column of batch 1, and (for
    batch 1) the gathered keypoint values fill whole blocks of 51. *)
Lemma valid_run_shape source m v :
  valid_run source m v ->
  exists b a n,
    shape (v_res v) = [b; a; n] /\ 5 <= a /\ ~ (b = 1 /\ n = 1) /\
    (b = 1 -> (length (v_nms v) * (a - 5)) mod 51 = 0).
Proof.
  intros [_ _ Htr _ Hsc Hlm _ _ Hsd Hkp].
  unfold transpose021 in Htr.
  destruct (shape (v_res v)) as [|b [|a [|n [|]]]] eqn:Hs; try discriminate.
  injection Htr as Htr.
  assert (Hst : shape (v_transRes v) = [b; n; a]) by (now rewrite <- Htr).
  exists b, a, n. split; [reflexivity|].
  assert (Ha : 5 <= a).
  { unfold decode_scores, slice3 in Hsc. rewrite Hst, !slice_len_all in Hsc.
    destruct (slice_len a 4 1) as [k|] eqn:E; [|discriminate].
    apply slice_len_one_inv in E. lia. }
  assert (Hbn : ~ (b = 1 /\ n = 1)).
  { intros [-> ->].
    destruct (decode_scores_spec (v_transRes v) Hst Ha) as (sco & Hsc' & Hss & _).
    rewrite Hsc in Hsc'. injection Hsc' as <-.
    unfold scores_data, gather0 in Hsd. rewrite Hss in Hsd. cbn in Hsd. discriminate. }
  split; [exact Ha|]. split; [exact Hbn|].
  intros ->.
  assert (Hn : n <> 1) by tauto.
  destruct (decode_landmarks_spec (v_transRes v) Hst Ha) as (lm & Hlm' & Hsl & _).
  rewrite Hlm in Hlm'. injection Hlm' as <-.
  unfold landmarks_data in Hkp.
  destruct (gather0 (v_landmarks v) (v_nms v)) as [g|] eqn:Hg; [|discriminate].
  apply reshape_flat_inv in Hkp.
  unfold gather0 in Hg. rewrite Hsl in Hg. cbn [filter Nat.eqb negb] in Hg.
  apply Nat.eqb_neq in Hn. rewrite Hn in Hg. cbn [negb] in Hg.
  destruct (a - 5 =? 1) eqn:E5; cbn [negb] in Hg;
    destruct (forallb _ _); try discriminate;
    injection Hg as <-; unfold dataSync in Hkp; cbn [data] in Hkp;
    rewrite tabulate_length in Hkp; cbn [numel fold_right] in Hkp.
  - apply Nat.eqb_eq in E5. now rewrite E5.
  - now rewrite Nat.mul_1_r in Hkp.
Qed.

(** What the renderer is given, on a raw output [[1, a, n]]: entry [p]
    of the scores is the score of detection [nms[p]] of the raw output,
    and box [p] of the boxes is row [nms[p]] of the boxes that went to
    suppression. *)
Lemma rendered_rows source m v a n :
  valid_run source m v -> shape (v_res v) = [1; a; n] ->
  Forall (fun i => i < n) (v_nms v) /\
  length (v_scores_data v) = length (v_nms v) /\
  length (v_boxes_data v) = length (v_nms v) * 4 /\
  forall p, p < length (v_nms v) ->
    let i := nth p (v_nms v) 0 in
    nth p (v_scores_data v) 0%Q = get (v_res v) (4 * n + i) /\
    forall c, c < 4 ->
      nth (p * 4 + c) (v_boxes_data v) 0%Q = get (v_boxes v) (i * 4 + c).
Proof.
  intros Hv Hs.
  destruct (valid_run_shape Hv) as (b & a' & n' & Hs' & Ha & Hbn & _).
  rewrite Hs in Hs'. injection Hs' as <- <- <-.
  assert (Hn : n <> 1) by tauto.
  destruct Hv as [_ _ Htr Hbx Hsc _ Hnms Hbd Hsd _].
  destruct (transpose021_spec (v_res v) Hs) as (trn & Htr' & Hst & Hget).
  rewrite Htr in Htr'. injection Htr' as <-.
  destruct (decode_boxes_spec (v_transRes v) Hst) as (bx & Hbx' & Hsbx & _); [lia|].
  rewrite Hbx in Hbx'. injection Hbx' as <-.
  destruct (decode_scores_spec (v_transRes v) Hst Ha) as (sco & Hsc' & Hssc & Hlsc & Hgsc).
  rewrite Hsc in Hsc'. injection Hsc' as <-.
  rewrite squeeze_shape in Hsbx by lia. rewrite squeeze_shape1 in Hssc by lia.
  assert (Hidx : Forall (fun i => i < n) (v_nms v)).
  { rewrite Hnms, <- Hlsc. apply SuppressorFacts.nonMaxSuppression_bound. }
  destruct (gather0_spec (v_boxes v) Hsbx Hidx) as (gb & Hgb & _ & Hlb & Hgetb).
  destruct (gather0_spec (v_scores v) Hssc Hidx) as (gs & Hgs & _ & Hls & Hgets).
  unfold boxes_data in Hbd. rewrite Hgb in Hbd. injection Hbd as Hbd.
  unfold scores_data in Hsd. rewrite Hgs in Hsd. injection Hsd as Hsd.
  change (numel [4]) with 4 in *. change (numel []) with 1 in *.
  split; [exact Hidx|].
  split; [rewrite <- Hsd; unfold dataSync; lia|].
  split; [rewrite <- Hbd; unfold dataSync; lia|].
  intros p Hp i.
  assert (Hi : i < n).
  { rewrite Forall_forall in Hidx. apply Hidx, nth_In, Hp. }
  split.
  - rewrite <- Hsd. change (nth p (dataSync gs) 0%Q) with (get gs p).
    replace p with (p * 1 + 0) at 1 by lia. rewrite Hgets by lia.
    fold i. replace (i * 1 + 0) with i by lia.
    rewrite Hgsc by assumption. rewrite Hget by lia. reflexivity.
  - intros c Hc. rewrite <- Hbd.
    change (nth ?k (dataSync gb) 0%Q) with (get gb k).
    rewrite Hgetb by lia. reflexivity.
Qed.

End PipelineFacts.

(** ** Resizing by a whole factor *)

Module ResizeFacts.
Import Index IndexFacts Tensor Preprocessor PreprocessorFacts.
Import DecoderFacts (get_tab).

Lemma Qnat_mul a b : Qnat (a * b) == Qnat a * Qnat b.
Proof. unfold Qnat. now rewrite Nat2Z.inj_mul, inject_Z_mult. Qed.

Lemma Qnat_pos n : (0 < n)%nat -> 0 < Qnat n.
Proof. intros H. unfold Qnat. change 0 with (inject_Z 0). rewrite <- Zlt_Qlt. lia. Qed.

(** When the old extent is [q] times the new one, the source coordinate
    of row (or column) [r] is the whole number [q * r]: its floor and its
    ceiling pick the same source row. *)
Lemma source_index q old new r :
  old = (q * new)%nat -> (r < new)%nat ->
  let x := Qnat old / Qnat new * Qnat r in
  x == Qnat (q * r) /\
  Z.to_nat (Z.max 0 (Qfloor x)) = (q * r)%nat /\
  Z.to_nat (Z.min (Z.of_nat old - 1) (Qceiling x)) = (q * r)%nat.
Proof.
  intros -> Hr x.
  assert (Hx : x == Qnat (q * r)).
  { unfold x. rewrite !Qnat_mul. field.
    assert (0 < Qnat new) by (apply Qnat_pos; lia). lra. }
  split; [exact Hx|]. rewrite (Qfloor_comp _ _ Hx), (Qceiling_comp _ _ Hx).
  unfold Qnat. rewrite Qfloor_Z, Qceiling_Z. split; [lia|].
  destruct q as [|q]; [cbn; lia|].
  assert (Hle : (S q * r + 1 <= S q * new)%nat) by nia.
  rewrite Z.min_r by lia. lia.
Qed.

Lemma resizeBilinear_whole_factor t oh ow ch nh nw q1 q2 res :
  shape t = [oh; ow; ch]%nat -> oh = (q1 * nh)%nat -> ow = (q2 * nw)%nat ->
  resizeBilinear t nh nw = Some res ->
  forall r c d, (r < nh)%nat -> (c < nw)%nat -> (d < ch)%nat ->
    get res ((r * nw + c) * ch + d) == get t ((q1 * r * ow + q2 * c) * ch + d).
Proof.
  intros Hs Hoh How H r c d Hr Hc Hd.
  unfold resizeBilinear in H. rewrite Hs in H.
  apply (f_equal (fun o => match o with Some x => get x ((r * nw + c) * ch + d) | None => 0 end))
    in H. cbv beta iota in H. rewrite <- H. clear H.
  rewrite get_tab by (apply flat_lt; [apply flat_lt|]; assumption). cbv zeta.
  destruct (decode3 r Hc Hd) as (E1 & E2 & E3). rewrite E1, E2, E3.
  destruct (@source_index q1 oh nh r Hoh Hr) as (Hx & -> & ->).
  destruct (@source_index q2 ow nw c How Hc) as (Hy & -> & ->).
  ring.
Qed.

End ResizeFacts.

(** ** Tensors left behind *)

Module MemoryFacts.
Import Tensor Runtime RuntimeFacts Detect DetectSpec DetectFacts.
Local Open Scope nat_scope.

Lemma alloc_any {A} (v : A) n sc u tr rf fps tm rd vs :
  alloc v (mkWorld n sc u tr rf fps tm rd vs)
  = (Returned (mkHandle n v),
     mkWorld (S n) (fst (track n sc u)) (snd (track n sc u)) tr rf fps tm rd vs).
Proof.
  unfold alloc. cbn [next_id scopes untracked]. now destruct (track n sc u).
Qed.

Lemma preprocess_world f mw mh w :
  exists input xRatio yRatio w',
    preprocess f mw mh w = (Returned (input, xRatio, yRatio), w') /\
    Preprocessor.preprocess f mw mh = Some (hval input, xRatio, yRatio) /\
    hid input = next_id w + 4 /\ next_id w' = next_id w + 5 /\
    live w' = hid input :: live w /\
    length (scopes w') = length (scopes w) /\ trace w' = trace w.
Proof.
  destruct (PreprocessorFacts.preprocess_some f mw mh) as (p & r & _ & _ & _ & _ & Hpre).
  destruct w as [n [|top rest] u tr rf fps tm rd vs].
  - unfold preprocess. rewrite Hpre. unfold bind at 1. unfold tidy, bind at 1.
    rewrite startScope_run, compute_some.
    do 4 eexists. split; [reflexivity|]. split; [first [exact Hpre | reflexivity]|].
    unfold endScope, live.
    cbn [snd hid scopes untracked next_id trace set_engine filter mem existsb].
    rewrite Nat.eqb_refl. cbn. repeat split; lia.
  - rewrite preprocess_run with (1 := Hpre).
    do 4 eexists. split; [reflexivity|]. split; [first [exact Hpre | reflexivity]|].
    unfold live. cbn. repeat split; lia.
Qed.

End MemoryFacts.

(** ** The metric over a session *)

Module MetricFacts.
Import Tensor Runtime RuntimeFacts Detect DetectSpec DetectFacts ErrorSpec ErrorFacts.
Import JsNum SchedulerSpec SchedulerFacts TickFacts StreamFacts StreamSpec.
Local Open Scope Q_scope.

Lemma scale_up_nonneg fuel : forall a, 0 <= a -> 0 <= scale_up fuel a.
Proof.
  induction fuel as [|f IH]; intros a Ha; cbn; [exact Ha|].
  destruct (Qle_bool 1 a); [exact Ha|]. apply IH. lra.
Qed.

Lemma scale_down_nonneg fuel : forall a, 0 <= a -> 0 <= scale_down fuel a.
Proof.
  induction fuel as [|f IH]; intros a Ha; cbn; [exact Ha|].
  destruct (Qlt_bool a 10); [exact Ha|]. apply IH.
  apply Qle_shift_div_l; [reflexivity | lra].
Qed.

Lemma Qfloor_nonneg a : 0 <= a -> (0 <= Qfloor a)%Z.
Proof. intros H. change 0%Z with (Qfloor 0). now apply Qfloor_resp_le. Qed.

Lemma parseInt_nonneg q : 0 <= q -> shown_nonneg (parseInt (Finite q)).
Proof.
  intros Hq. unfold parseInt.
  replace (Qlt_bool q 0) with false.
  2:{ symmetry. unfold Qlt_bool. apply negb_false_iff, Qle_bool_iff. exact Hq. }
  pose proof (Qabs_nonneg q) as Ha.
  destruct (Qeq_bool (Qabs q) 0); [cbn; lia|].
  destruct (_ && _)%bool; cbn [shown_nonneg]; rewrite Z.mul_1_l.
  - now apply Qfloor_nonneg.
  - unfold leading_digit. destruct (Qlt_bool (Qabs q) 1); apply Qfloor_nonneg.
    + now apply scale_up_nonneg.
    + now apply scale_down_nonneg.
Qed.

Lemma window_fps_nonneg s t1 : 0 <= window_total s t1 -> shown_nonneg (window_fps s t1).
Proof.
  intros Ht. unfold window_fps.
  pose proof (Qnat_S_pos (numInferences s)) as Hc.
  rewrite div_finite by lra.
  set (y := window_total s t1 / Preprocessor.Qnat (S (numInferences s))).
  assert (Hy : 0 <= y) by (apply Qle_shift_div_l; [exact Hc | lra]).
  unfold div. destruct (Qeq_bool y 0) eqn:E.
  - cbn. exact I.
  - apply parseInt_nonneg. apply Qle_shift_div_l; [|lra].
    apply Qeq_bool_neq in E. lra.
Qed.

(** With a clock that never runs backwards, a tick keeps the accumulated
    time and the metric from going negative. *)
Lemma tick_metric_nonneg (tm0 : nat -> Q) vid m canvasRef w :
  (forall k, tm0 k <= tm0 (S k)) ->
  timer w = tm0 /\ 0 <= inferenceTimeSum (vars w) /\ shown_nonneg (fps_text w) ->
  let w' := snd (detectFrame vid m canvasRef w) in
  timer w' = tm0 /\ 0 <= inferenceTimeSum (vars w') /\ shown_nonneg (fps_text w').
Proof.
  intros Hmono. destruct w as [n sc u tr rf fps tm rd vs].
  cbn [timer vars fps_text]. intros (-> & Hsum & Hfps). cbv zeta.
  destruct (tick_cases vid m canvasRef n sc u tr rf fps tm0 rd vs)
    as [(Hc & ->)|[(Hc & v & n' & ids & _ & _ & _ & ->)|(Hc & e & n' & top & new & -> & _)]];
    cbn [snd timer vars fps_text inferenceTimeSum]; auto.
  assert (Ht : 0 <= window_total
                      (mkSession (tm0 rd) (endInferenceTime vs) (inferenceTimeSum vs)
                                 (numInferences vs) (lastFpsRefresh vs))
                      (tm0 (S rd))).
  { unfold window_total. cbn [inferenceTimeSum startInferenceTime].
    specialize (Hmono rd). lra. }
  unfold measured. cbn [timer timer_reads vars lastFpsRefresh].
  destruct (Qle_bool _ _); cbn [timer vars fps_text inferenceTimeSum].
  - split; [reflexivity|]. split; [apply Qle_refl|]. now apply window_fps_nonneg.
  - auto.
Qed.

End MetricFacts.

(** ** The engine and the model over a session *)

Module SessionFacts.
Import Tensor Runtime RuntimeFacts Detect DetectSpec DetectFacts ErrorSpec ErrorFacts.
Import JsNum SchedulerSpec SchedulerFacts TickFacts StreamFacts.
Local Open Scope nat_scope.

(** What a tick does to the engine: it leaves it as it was, or it throws
    and leaves one more scope open. *)
Lemma tick_engine vid m canvasRef w :
  fresh w ->
  let r := detectFrame vid m canvasRef w in
  (fst r = Returned tt /\ fresh (snd r) /\
   scopes (snd r) = scopes w /\ untracked (snd r) = untracked w) \/
  (exists e top, fst r = Thrown e /\ top <> [] /\
     scopes (snd r) = top :: scopes w /\ untracked (snd r) = untracked w /\
     requested_frames (snd r) = requested_frames w).
Proof.
  destruct w as [n sc u tr rf fps tm rd vs]. intros Hw. cbv zeta.
  destruct (tick_cases vid m canvasRef n sc u tr rf fps tm rd vs)
    as [(Hc & ->)|[(Hc & v & n' & ids & _ & Hn & Hids & ->)
                  |(Hc & e & n' & top & new & -> & _ & Hin & _)]];
    cbn [fst snd].
  - left. auto.
  - left. destruct Hw as [Hsc Hu]. cbn [next_id scopes untracked] in Hsc, Hu.
    rewrite (map_remove_ids_fresh Hsc Hids), (remove_ids_fresh Hu Hids).
    match goal with |- context [measured ?W] =>
      destruct (measured_engine W) as (E1 & E2 & E3 & _)
    end.
    cbn [next_id scopes untracked] in E1, E2, E3.
    split; [reflexivity|]. split; [|split; [exact E2 | exact E3]].
    split.
    + rewrite E1, E2. eapply Forall_impl; [|exact Hsc]. intros l Hl.
      eapply Forall_impl; [|exact Hl]. cbn. intros; lia.
    + rewrite E1, E3. eapply Forall_impl; [|exact Hu]. cbn. intros; lia.
  - right. exists e, top. repeat split; auto. intros ->. destruct Hin.
Qed.

(** With a loaded pose model no tick throws. *)
Lemma tick_returns vid m canvasRef w :
  pose_model m -> fst (detectFrame vid m canvasRef w) = Returned tt.
Proof.
  intros Hm. destruct (source_closed vid) eqn:Hc.
  - now rewrite detectFrame_closed.
  - rewrite detectFrame_open by assumption.
    destruct (detect_streaming (picture vid) canvasRef (started w) Hm)
      as (v & w1 & _ & -> & _). reflexivity.
Qed.

(** When [model.net] is [null], [detect] throws at [execute]. *)
Lemma detect_unloaded source m canvasRef callback n sc u tr rf fps tm rd vs :
  net m = None ->
  detect source m canvasRef callback (mkWorld n sc u tr rf fps tm rd vs)
  = (Thrown TypeError, mkWorld (S (n + 4)) ([n + 4] :: sc) u tr rf fps tm rd vs).
Proof.
  intros Hnet. unfold detect.
  unfold bind at 1. rewrite startScope_run.
  destruct (PreprocessorFacts.preprocess_some source (nth 1 (inputShape m) 0)
              (nth 2 (inputShape m) 0)) as (p & r & _ & _ & _ & _ & Hpre).
  unfold bind at 1. rewrite preprocess_run with (1 := Hpre).
  unfold bind at 1. unfold execute. rewrite Hnet. reflexivity.
Qed.

(** With a loaded pose model and the default callback, [detect] returns
    into a world that differs from the one it started in by the three
    calls and the tensor ids used. *)
Lemma detect_default_world source m canvasRef n sc u tr rf fps tm rd vs :
  pose_model m -> fresh (mkWorld n sc u tr rf fps tm rd vs) ->
  exists v n',
    valid_run source m v /\ n <= n' /\
    detect source m canvasRef (ret tt) (mkWorld n sc u tr rf fps tm rd vs)
    = (Returned tt, mkWorld n' sc u (calls v ++ tr) rf fps tm rd vs).
Proof.
  intros Hm [Hsc Hu]. cbn [next_id scopes untracked] in Hsc, Hu.
  destruct (valid_run_exists source Hm) as (v & Hv).
  destruct (detect_run canvasRef n sc u tr rf fps tm rd vs Hv)
    as (n' & top & ids & Hn & Hids & Hrun).
  exists v, n'. split; [exact Hv|]. split; [exact Hn|].
  rewrite Hrun. unfold bind, ret. rewrite endScope_run.
  now rewrite (map_remove_ids_fresh Hsc Hids), (remove_ids_fresh Hu Hids).
Qed.

(** A tick executes the model at most once, and exactly once when its
    source is open and its detection returns. *)
Lemma tick_executions vid m canvasRef w :
  let r := detectFrame vid m canvasRef w in
  executions (snd r) <= S (executions w) /\
  (source_closed vid = false -> fst r = Returned tt ->
   executions (snd r) = S (executions w)).
Proof.
  destruct w as [n sc u tr rf fps tm rd vs]. cbv zeta.
  destruct (tick_cases vid m canvasRef n sc u tr rf fps tm rd vs)
    as [(Hc & ->)|[(Hc & v & n' & ids & _ & _ & _ & ->)
                  |(Hc & e & n' & top & new & -> & _ & _ & _ & _ & _ & Hnew)]];
    cbn [fst snd].
  - unfold executions. cbn [trace filter is_execute]. split; [lia | congruence].
  - assert (E : executions
                  (measured
                     (mkWorld n' (map (remove_ids ids) sc) (remove_ids ids u)
                        (CallRequestAnimationFrame :: calls v ++ tr) (S rf) fps tm (S rd)
                        (mkSession (tm rd) (endInferenceTime vs) (inferenceTimeSum vs)
                                   (numInferences vs) (lastFpsRefresh vs))))
                = S (executions (mkWorld n sc u tr rf fps tm rd vs))).
    { unfold measured, executions. destruct (Qle_bool _ _);
        cbn [trace filter is_execute calls app length]; reflexivity. }
    rewrite E. split; [lia | reflexivity].
  - unfold executions. cbn [trace]. rewrite filter_app, length_app.
    split; [lia | discriminate].
Qed.

Lemma animation_executions m canvasRef snapshots : forall w,
  executions (animation_frames snapshots m canvasRef w) <= executions w + length snapshots.
Proof.
  induction snapshots as [|v rest IH]; intros w; cbn [animation_frames length]; [lia|].
  destruct (requested_frames w) as [|k]; [lia|].
  specialize (IH (snd (detectFrame v m canvasRef (set_requested_frames k w)))).
  destruct (tick_executions v m canvasRef (set_requested_frames k w)) as [H _].
  cbv zeta in H. change (executions (set_requested_frames k w)) with (executions w) in H.
  lia.
Qed.

(** With a loaded pose model and open sources every animation frame runs
    one detection and requests the next. *)
Lemma animation_alive m canvasRef snapshots :
  pose_model m -> Forall (fun v => source_closed v = false) snapshots ->
  forall w, requested_frames w = 1 ->
    executions (animation_frames snapshots m canvasRef w)
    = executions w + length snapshots /\
    requested_frames (animation_frames snapshots m canvasRef w) = 1.
Proof.
  intros Hm Hopen. induction Hopen as [|v rest Hv _ IH]; intros w Hrf;
    cbn [animation_frames length]; [split; [lia | exact Hrf]|].
  rewrite Hrf.
  pose proof (tick_returns v canvasRef (set_requested_frames 0 w) Hm) as Hret.
  destruct (tick_executions v m canvasRef (set_requested_frames 0 w)) as [_ He].
  specialize (He Hv Hret).
  change (executions (set_requested_frames 0 w)) with (executions w) in He.
  destruct (tick_requested_frames v m canvasRef (set_requested_frames 0 w))
    as [(_ & _ & E)|([Hc|(e & Hthrown)] & _)].
  - destruct (IH _ E) as [E1 E2]. rewrite E1, E2, He. split; [lia | reflexivity].
  - congruence.
  - rewrite Hret in Hthrown. discriminate.
Qed.

End SessionFacts.

(** * Part III: the claims *)

Import Tensor Runtime Detect DetectSpec DetectFacts Examples.
Import SchedulerSpec SchedulerFacts JsNum.

Lemma example_pose_model : pose_model example_model.
Proof.
  exists (fun _ => Returned example_raw). split; [reflexivity|].
  intros t. exists example_raw, 3%nat. repeat split. discriminate.
Qed.

(** ** C4: boxes in corner form *)
(** C4, as the claim states it, fails.  The tensors of [detect] hold
    single-precision numbers, and each of the four operations of the
    block rounds: for the detection (320.4, 200.7, 100.3, 50.1) the block
    emits [y1 = 175.649993896484375], while [cy - h/2] of the stored [cy]
    and [h] is 175.649997711181640625.  Nor does the ordering hold for
    every detection with [w >= 0] and [h >= 0]: with a centre that is
    NaN, [y1] and [y2] are NaN and [y1 <= y2] is false; with
    [w = Infinity], [x1] is [-Infinity], [x2] is NaN and [x1 <= x2] is
    false. *)
Lemma C4_counterexample :
  (exists boxes y1 x1 y2 x2,
     Decoder32.decode_boxes example_row32 = Some boxes /\
     Decoder32.box_at boxes 0 = (y1, x1, y2, x2) /\
     Float32.to_Q y1 == 5755699 # 32768 /\
     Float32.to_Q (Tensor32.get example_row32 1)
     - Float32.to_Q (Tensor32.get example_row32 3) / 2 == 46045593 # 262144 /\
     ~ Float32.to_Q y1 == Float32.to_Q (Tensor32.get example_row32 1)
                          - Float32.to_Q (Tensor32.get example_row32 3) / 2) /\
  (exists boxes y1 x1 y2 x2,
     Decoder32.decode_boxes example_row32_nan = Some boxes /\
     Decoder32.box_at boxes 0 = (y1, x1, y2, x2) /\
     Float32.leb Float32.zero (Tensor32.get example_row32_nan 2) = true /\
     Float32.leb Float32.zero (Tensor32.get example_row32_nan 3) = true /\
     Float32.leb y1 y2 = false) /\
  (exists boxes y1 x1 y2 x2,
     Decoder32.decode_boxes example_row32_wide = Some boxes /\
     Decoder32.box_at boxes 0 = (y1, x1, y2, x2) /\
     Float32.leb Float32.zero (Tensor32.get example_row32_wide 2) = true /\
     Float32.leb Float32.zero (Tensor32.get example_row32_wide 3) = true /\
     Float32.leb x1 x2 = false).
Proof.
  split; [|split].
  - do 5 eexists. split; [vm_compute; reflexivity|]. split; [vm_compute; reflexivity|].
    split; [vm_compute; reflexivity|]. split; [vm_compute; reflexivity|].
    intros H. vm_compute in H. discriminate H.
  - do 5 eexists. split; [vm_compute; reflexivity|]. split; [vm_compute; reflexivity|].
    repeat split; vm_compute; reflexivity.
  - do 5 eexists. split; [vm_compute; reflexivity|]. split; [vm_compute; reflexivity|].
    repeat split; vm_compute; reflexivity.
Qed.

(** C4, amended.  For every detection [i] of a transposed raw output of
    shape [[1, n, a]] (at least the four box attributes), the decoder
    returns, reads [cx, cy, w, h] at attributes 0 to 3 and emits row [i]
    of the boxes as [(y1, x1, y2, x2)] with [x1 = cx - w/2],
    [y1 = cy - h/2], [y2 = y1 + h], [x2 = x1 + w], where each
    subtraction, division and addition is the single-precision one, so
    every result is rounded.  When [cx], [cy], [w] and [h] are finite and
    [w] and [h] are not negative, [y1 <= y2] and [x1 <= x2], whatever
    the roundings and also when a corner overflows to an infinity. *)
Theorem C4_boxes_corner_form_float32 (transRes : Tensor32.tensor) (n a : nat) :
  Tensor32.shape transRes = [1; n; a]%nat -> (4 <= a)%nat ->
  exists boxes,
    Decoder32.decode_boxes transRes = Some boxes /\
    forall i, (i < n)%nat ->
      let cx := Tensor32.get transRes (i * a + 0) in
      let cy := Tensor32.get transRes (i * a + 1) in
      let w := Tensor32.get transRes (i * a + 2) in
      let h := Tensor32.get transRes (i * a + 3) in
      let x1 := Float32.sub cx (Float32.div w Float32.two) in
      let y1 := Float32.sub cy (Float32.div h Float32.two) in
      let y2 := Float32.add y1 h in
      let x2 := Float32.add x1 w in
      Decoder32.box_at boxes i = (y1, x1, y2, x2) /\
      (Float32.finite cx = true -> Float32.finite cy = true ->
       Float32.finite w = true -> Float32.finite h = true ->
       Float32.leb Float32.zero w = true -> Float32.leb Float32.zero h = true ->
       Float32.leb y1 y2 = true /\ Float32.leb x1 x2 = true).
Proof.
  intros Hs Ha.
  destruct (Decoder32Facts.decode_boxes32_spec transRes Hs Ha) as (bx & Hbx & _ & _ & Hrow).
  exists bx. split; [exact Hbx|].
  intros i Hi. cbv zeta. split.
  - exact (Hrow i Hi).
  - intros Hcx Hcy Hw Hh Hw0 Hh0. split; now apply Float32Facts.corner_order.
Qed.

Lemma C4_boxes_corner_form_float32_witness :
  exists boxes y1 x1 y2 x2,
    Decoder32.decode_boxes example_row32 = Some boxes /\
    Decoder32.box_at boxes 0 = (y1, x1, y2, x2) /\
    Float32.leb y1 y2 = true /\ Float32.leb x1 x2 = true.
Proof.
  destruct (@C4_boxes_corner_form_float32 example_row32 1 4 eq_refl ltac:(lia))
    as (bx & H1 & H2).
  destruct (H2 0%nat ltac:(lia)) as [Hrow Hord].
  exists bx. do 4 eexists. split; [exact H1|]. split; [exact Hrow|].
  apply Hord; vm_compute; reflexivity.
Defined.

(** ** C2: the keypoint block *)
(** C2, as the claim states it, fails: on [example_raw], where two
    detections are selected, the tensor handed to the renderer has shape
    [[2, 3, 17]], not [[2, 17, 3]]. *)
Lemma C2_counterexample :
  let r := detect example_frame example_model example_canvas (ret tt)
                  (example_world (fun _ => 0)) in
  fst r = Returned tt /\
  exists kp bd sd xr yr rest,
    trace (snd r) = CallRenderBoxes kp bd sd xr yr :: rest /\
    shape kp = [2; 3; 17]%nat /\ shape kp <> [2; 17; 3]%nat.
Proof.
  vm_compute. split; [reflexivity|].
  do 6 eexists. split; [reflexivity|]. split; [reflexivity | discriminate].
Qed.

(** C2, amended.  In every detection that returns, on a raw output of
    shape [[1, 56, n]] with [n] other than 1, the keypoint tensor handed
    to the renderer has shape [[k, 3, 17]] for the [k] selected
    detections, and its row-major buffer holds, for the [p]-th selected
    detection, its 51 keypoint attributes in raw order: component [c] of
    keypoint [j] is entry [p * 51 + j * 3 + c], so the 17 triples
    (x, y, visibility) are contiguous in the buffer. *)
Theorem C2_keypoint_block (source : Preprocessor.frame) (m : model)
  (canvasRef : canvas) (callback : M unit) (w w' : world) :
  quiet callback ->
  detect source m canvasRef callback w = (Returned tt, w') ->
  exists v after,
    valid_run source m v /\
    trace w' = after ++ CallRenderBoxes (v_landmarks_data v) (v_boxes_data v)
                          (v_scores_data v) (v_xRatio v) (v_yRatio v)
                        :: CallNonMaxSuppression (v_boxes v) (v_scores v) 10
                             (45 # 100) (3 # 10)
                        :: CallExecute (v_input v) :: trace w /\
    forall n, shape (v_res v) = [1; 56; n]%nat -> n <> 1%nat ->
      shape (v_landmarks_data v) = [length (v_nms v); 3; 17]%nat /\
      length (data (v_landmarks_data v)) = (length (v_nms v) * 51)%nat /\
      forall p j c, (p < length (v_nms v))%nat -> (j < 17)%nat -> (c < 3)%nat ->
        get (v_landmarks_data v) (p * 51 + (j * 3 + c))
        = get (v_res v) ((5 + (j * 3 + c)) * n + nth p (v_nms v) 0%nat).
Proof.
  intros Hcb Hrun.
  destruct (@detect_returned _ _ _ _ _ _ Hcb Hrun) as (v & after & Hv & Htrace).
  exists v, after. split; [exact Hv|]. split; [exact Htrace|].
  destruct Hv as [_ _ Htr _ Hsc Hlm Hnms _ _ Hkp]. intros n Hs Hn.
  destruct (DecoderFacts.transpose021_spec (v_res v) Hs) as (trn & Htr' & Hst & Hget).
  rewrite Htr in Htr'. injection Htr' as <-.
  destruct (DecoderFacts.decode_scores_spec (v_transRes v) Hst) as (sco & Hsc' & _ & Hlsc & _);
    [lia|].
  rewrite Hsc in Hsc'. injection Hsc' as <-.
  destruct (DecoderFacts.decode_landmarks_spec (v_transRes v) Hst)
    as (lm & Hlm' & Hslm & _ & Hglm); [lia|].
  rewrite Hlm in Hlm'. injection Hlm' as <-.
  change (56 - 5)%nat with 51%nat in *.
  rewrite DecoderFacts.squeeze_shape in Hslm by lia.
  assert (Hidx : Forall (fun i => (i < n)%nat) (v_nms v)).
  { rewrite Hnms, <- Hlsc. apply SuppressorFacts.nonMaxSuppression_bound. }
  destruct (DecoderFacts.landmarks_data_spec (v_landmarks v) Hslm Hidx)
    as (kp & Hkp' & Hskp & Hlkp & Hgkp).
  rewrite Hkp in Hkp'. injection Hkp' as <-.
  repeat split; try assumption.
  intros p j c Hp Hj Hc.
  assert (Hi : (nth p (v_nms v) 0 < n)%nat).
  { rewrite Forall_forall in Hidx. apply Hidx, nth_In, Hp. }
  rewrite Hgkp by lia. rewrite Hglm by lia. rewrite Hget by lia. reflexivity.
Qed.

Lemma C2_keypoint_block_witness :
  exists v w',
    detect example_frame example_model example_canvas requestAnimationFrame
           (example_world (fun _ => 0)) = (Returned tt, w') /\
    valid_run example_frame example_model v /\
    shape (v_landmarks_data v) = [length (v_nms v); 3; 17]%nat.
Proof.
  destruct (detect_streaming example_frame example_canvas (example_world (fun _ => 0))
              example_pose_model) as (v0 & w' & _ & Hrun & _).
  destruct (@C2_keypoint_block example_frame example_model example_canvas
              requestAnimationFrame (example_world (fun _ => 0)) w'
              quiet_requestAnimationFrame Hrun) as (v & after & Hv & _ & H).
  exists v, w'. split; [exact Hrun|]. split; [exact Hv|].
  assert (Hres : v_res v = example_raw).
  { destruct (ok_execute Hv) as (f & Hf & Hr). injection Hf as <-. now injection Hr. }
  refine (proj1 (H 3%nat _ _)).
  - rewrite Hres. reflexivity.
  - discriminate.
Defined.

(** ** C5: the parameters of suppression *)
(** C5.  Whatever [detect] is given and however it ends, every call of the
    suppressor it makes has [maxOutputs = 10], [iouThreshold = 0.45] and
    [scoreThreshold = 0.3]; and in a detection that returns, the
    suppressor was called once with these parameters, its selection has at
    most 10 entries, a detection whose score is exactly 0.3 is retained as
    a candidate and one whose score is 0.29 is excluded from the
    candidates and from the selection. *)
Theorem C5_suppression_parameters (source : Preprocessor.frame) (m : model)
  (canvasRef : canvas) (callback : M unit) (w : world) :
  quiet callback ->
  (exists new,
      trace (snd (detect source m canvasRef callback w)) = new ++ trace w /\
      forall b s k iou st, In (CallNonMaxSuppression b s k iou st) new ->
        k = 10%nat /\ iou = 45 # 100 /\ st = 3 # 10) /\
  (forall w',
      detect source m canvasRef callback w = (Returned tt, w') ->
      exists v after,
        valid_run source m v /\
        trace w' = after ++ calls v ++ trace w /\
        In (CallNonMaxSuppression (v_boxes v) (v_scores v) 10 (45 # 100) (3 # 10))
           (calls v) /\
        v_nms v = Suppressor.nonMaxSuppression (v_boxes v) (v_scores v)
                    10 (45 # 100) (3 # 10) /\
        (length (v_nms v) <= 10)%nat /\
        forall i, (i < length (data (v_scores v)))%nat ->
          (get (v_scores v) i == 3 # 10 ->
             In i (Suppressor.candidates (v_scores v) (3 # 10))) /\
          (get (v_scores v) i == 29 # 100 ->
             ~ In i (Suppressor.candidates (v_scores v) (3 # 10)) /\
             ~ In i (v_nms v))).
Proof.
  intros Hcb. split.
  - destruct (quiet_detect source m canvasRef Hcb w) as (_ & _ & _ & _ & _ & new & E & D).
    exists new. split; [exact E|].
    intros b s k iou st Hin. rewrite Forall_forall in D. exact (D _ Hin).
  - intros w' Hrun.
    destruct (@detect_returned _ _ _ _ _ _ Hcb Hrun) as (v & after & Hv & Htrace).
    exists v, after. split; [exact Hv|]. split; [exact Htrace|].
    split; [right; now left|]. split; [exact (ok_nms Hv)|]. split.
    + rewrite (ok_nms Hv). apply SuppressorFacts.select_length.
    + intros i Hi. split.
      * intros E. apply SuppressorFacts.candidates_iff. split; [exact Hi|].
        rewrite E. apply Qle_refl.
      * intros E.
        assert (Hc : ~ In i (Suppressor.candidates (v_scores v) (3 # 10))).
        { intros Hin. apply SuppressorFacts.candidates_iff in Hin as [_ Hle].
          rewrite E in Hle. revert Hle. apply Qlt_not_le. reflexivity. }
        split; [exact Hc|]. intros Hin. apply Hc. rewrite (ok_nms Hv) in Hin.
        now apply SuppressorFacts.nonMaxSuppression_candidates in Hin.
Qed.

Lemma C5_suppression_parameters_witness :
  exists v w',
    detect example_frame example_model example_canvas requestAnimationFrame
           (example_world (fun _ => 0)) = (Returned tt, w') /\
    valid_run example_frame example_model v /\
    (length (v_nms v) <= 10)%nat.
Proof.
  destruct (detect_streaming example_frame example_canvas (example_world (fun _ => 0))
              example_pose_model) as (v0 & w' & _ & Hrun & _).
  destruct (proj2 (@C5_suppression_parameters example_frame example_model example_canvas
                     requestAnimationFrame (example_world (fun _ => 0))
                     quiet_requestAnimationFrame) w' Hrun)
    as (v & after & Hv & _ & _ & _ & Hlen & _).
  exists v, w'. split; [exact Hrun|]. split; [exact Hv | exact Hlen].
Defined.

(** ** C1: padding and ratios *)
(** C1, as the claim states it, fails: for a frame 7 wide and 29 high,
    [xRatio * 7] is not 29 in double precision (it is
    29.000000000000004). *)
Lemma C1_counterexample :
  exists t xRatio yRatio,
    Preprocessor.preprocess frame_7x29 1 1 = Some (t, xRatio, yRatio) /\
    Number.eqb (Number.mul xRatio (Number.of_nat 7)) (Number.of_nat 29) = false.
Proof.
  destruct (PreprocessorFacts.preprocess_some frame_7x29 1 1) as (p & r & _ & _ & _ & _ & E).
  do 3 eexists. split; [exact E|]. vm_compute. reflexivity.
Qed.

(** C1, amended.  For every frame of positive width [w] and height [h]
    (below 2^53), [preprocess] pads the pixels to a square of side
    [max w h] by adding zero pixels at the bottom and at the right only,
    the original pixels staying where they were from (0,0); it returns
    [xRatio = max w h / w] and [yRatio = max w h / h] as double-precision
    quotients: the ratio of the longer side is exactly 1 and its product
    with that side is exactly [max w h]; for the other side
    [ratio * side = max w h] holds for the exact quotient (for the
    returned double only up to rounding). *)
Theorem C1_padding_and_ratios (f : Preprocessor.frame) (modelWidth modelHeight : nat) :
  let w := Preprocessor.width f in
  let h := Preprocessor.height f in
  let maxSize := Nat.max w h in
  (0 < w)%nat -> (0 < h)%nat ->
  (Z.of_nat w < 2 ^ 53)%Z -> (Z.of_nat h < 2 ^ 53)%Z ->
  exists padded t xRatio yRatio,
    Preprocessor.pad_to_square (Preprocessor.fromPixels f) = Some padded /\
    Preprocessor.preprocess f modelWidth modelHeight = Some (t, xRatio, yRatio) /\
    shape padded = [maxSize; maxSize; 3]%nat /\
    (forall r c d, (r < maxSize)%nat -> (c < maxSize)%nat -> (d < 3)%nat ->
       get padded ((r * maxSize + c) * 3 + d) =
       if ((r <? h) && (c <? w))%nat%bool
       then Preprocessor.byte_value (nth ((r * w + c) * 3 + d) (Preprocessor.pixels f) x00)
       else 0) /\
    xRatio = Number.div (Number.of_nat maxSize) (Number.of_nat w) /\
    yRatio = Number.div (Number.of_nat maxSize) (Number.of_nat h) /\
    ((h <= w)%nat ->
       xRatio = Number.one /\
       Number.eqb (Number.mul xRatio (Number.of_nat w)) (Number.of_nat maxSize) = true) /\
    ((w <= h)%nat ->
       yRatio = Number.one /\
       Number.eqb (Number.mul yRatio (Number.of_nat h)) (Number.of_nat maxSize) = true) /\
    Preprocessor.Qnat maxSize / Preprocessor.Qnat w * Preprocessor.Qnat w
      == Preprocessor.Qnat maxSize /\
    Preprocessor.Qnat maxSize / Preprocessor.Qnat h * Preprocessor.Qnat h
      == Preprocessor.Qnat maxSize.
Proof.
  intros w h maxSize Hw Hh Bw Bh.
  destruct (PreprocessorFacts.preprocess_some f modelWidth modelHeight)
    as (p & r & Hp & _ & _ & _ & E).
  destruct (PreprocessorFacts.pad_to_square_spec f) as (p' & Hp' & Hsp & Hget).
  rewrite Hp in Hp'. injection Hp' as <-.
  exists p. do 3 eexists. split; [exact Hp|]. split; [exact E|].
  fold w h maxSize in Hsp, Hget |- *.
  split; [exact Hsp|]. split; [|split; [reflexivity|split; [reflexivity|]]].
  - intros r0 c d Hr Hc Hd. rewrite (Hget r0 c d Hr Hc Hd).
    destruct (r0 <? h)%nat eqn:Er; [|reflexivity].
    destruct (c <? w)%nat eqn:Ec; [|reflexivity].
    apply Nat.ltb_lt in Er, Ec. cbn [andb].
    unfold Preprocessor.fromPixels. fold w h. apply DecoderFacts.get_tab. nia.
  - assert (Qw : 0 < Preprocessor.Qnat w).
    { unfold Preprocessor.Qnat. change 0 with (inject_Z 0). rewrite <- Zlt_Qlt. lia. }
    assert (Qh : 0 < Preprocessor.Qnat h).
    { unfold Preprocessor.Qnat. change 0 with (inject_Z 0). rewrite <- Zlt_Qlt. lia. }
    repeat split.
    + replace maxSize with w by (unfold maxSize; lia).
      now apply NumberFacts.div_of_nat_self.
    + replace maxSize with w by (unfold maxSize; lia).
      now apply NumberFacts.ratio_self_exact.
    + replace maxSize with h by (unfold maxSize; lia).
      now apply NumberFacts.div_of_nat_self.
    + replace maxSize with h by (unfold maxSize; lia).
      now apply NumberFacts.ratio_self_exact.
    + field. lra.
    + field. lra.
Qed.

Lemma C1_padding_and_ratios_witness :
  exists padded t xRatio yRatio,
    Preprocessor.pad_to_square (Preprocessor.fromPixels example_frame) = Some padded /\
    Preprocessor.preprocess example_frame 2 2 = Some (t, xRatio, yRatio) /\
    shape padded = [2; 2; 3]%nat /\ xRatio = Number.one.
Proof.
  destruct (@C1_padding_and_ratios example_frame 2 2
              ltac:(cbn; lia) ltac:(cbn; lia) ltac:(cbn; lia) ltac:(cbn; lia))
    as (p & t & x & y & H1 & H2 & H3 & _ & _ & _ & H4 & _).
  exists p, t, x, y. repeat split; try assumption.
  apply (H4 ltac:(cbn; lia)).
Defined.

(** ** C3: the input tensor *)
(** C3, as the claim states it, fails: for [modelWidth = 2] and
    [modelHeight = 1] the tensor has shape [[1, 2, 1, 3]], that is
    [[1, modelWidth, modelHeight, 3]], not [[1, modelHeight, modelWidth, 3]]. *)
Lemma C3_counterexample :
  exists t xRatio yRatio,
    Preprocessor.preprocess example_frame 2 1 = Some (t, xRatio, yRatio) /\
    shape t = [1; 2; 1; 3]%nat /\ shape t <> [1; 1; 2; 3]%nat.
Proof.
  destruct (PreprocessorFacts.preprocess_some example_frame 2 1)
    as (p & r & _ & _ & Hs & _ & E).
  do 3 eexists. split; [exact E|].
  cbn [shape expandDims0 div_scalar]. rewrite Hs. split; [reflexivity | discriminate].
Qed.

(** C3, amended.  For every frame of positive width and height and all
    [modelWidth] and [modelHeight], [preprocess] returns the bilinear
    resize of the padded square to [modelWidth] rows and [modelHeight]
    columns, divided by 255, with a leading batch dimension: a tensor of
    shape [[1, modelWidth, modelHeight, 3]] whose values all lie in
    [[0, 1]].  In [detect], where the two arguments are entries 1 and 2 of
    the model's input shape, the tensor therefore has the model's input
    shape [[1, inputShape[1], inputShape[2], 3]]. *)
Theorem C3_input_tensor (f : Preprocessor.frame) (modelWidth modelHeight : nat) :
  (0 < Preprocessor.width f)%nat -> (0 < Preprocessor.height f)%nat ->
  (exists padded resized t xRatio yRatio,
    Preprocessor.pad_to_square (Preprocessor.fromPixels f) = Some padded /\
    Preprocessor.resizeBilinear padded modelWidth modelHeight = Some resized /\
    Preprocessor.preprocess f modelWidth modelHeight = Some (t, xRatio, yRatio) /\
    t = expandDims0 (div_scalar resized 255) /\
    shape t = [1; modelWidth; modelHeight; 3]%nat /\
    length (data t) = (modelWidth * modelHeight * 3)%nat /\
    Forall (Preprocessor.in_range 0 1) (data t)) /\
  (forall m v a b,
    valid_run f m v -> inputShape m = [1; a; b; 3]%nat -> shape (v_input v) = inputShape m).
Proof.
  intros Hw Hh.
  destruct (PreprocessorFacts.preprocess_some f modelWidth modelHeight)
    as (p & r & Hp & Hr & Hs & Hlen & E).
  split.
  - exists p, r. do 3 eexists. split; [exact Hp|]. split; [exact Hr|].
    split; [exact E|]. split; [reflexivity|].
    split; [cbn [shape expandDims0 div_scalar]; now rewrite Hs|].
    split.
    + cbn [shape expandDims0 div_scalar data]. rewrite IndexFacts.tabulate_length, Hs.
      cbn. lia.
    + change (data (expandDims0 ?x)) with (data x).
      apply PreprocessorFacts.get_Forall. intros k. apply PreprocessorFacts.div255_range.
      refine (PreprocessorFacts.resizeBilinear_range p modelWidth modelHeight _ Hr).
      unfold Preprocessor.pad_to_square in Hp. cbn [shape Preprocessor.fromPixels] in Hp.
      refine (PreprocessorFacts.pad3_range _ _ _ _ (PreprocessorFacts.fromPixels_range f) Hp).
  - intros m v a b Hv Hin. pose proof (ok_preprocess Hv) as E'.
    rewrite Hin in E'. cbn [nth] in E'.
    destruct (PreprocessorFacts.preprocess_some f a b) as (p' & r' & _ & _ & Hs' & _ & E'').
    rewrite E'' in E'. injection E' as <- _ _.
    cbn [shape expandDims0 div_scalar]. now rewrite Hs', Hin.
Qed.

Lemma C3_input_tensor_witness :
  exists t xRatio yRatio,
    Preprocessor.preprocess example_frame 2 1 = Some (t, xRatio, yRatio) /\
    shape t = [1; 2; 1; 3]%nat /\ Forall (Preprocessor.in_range 0 1) (data t).
Proof.
  destruct (@C3_input_tensor example_frame 2 1 ltac:(cbn; lia) ltac:(cbn; lia))
    as [(p & r & t & x & y & _ & _ & E & _ & Hs & _ & Hr) _].
  exists t, x, y. auto.
Defined.

(** ** C8: zero-area frames *)
(** C8, as the claim states it, fails: given a frame of width 0 (and
    height 2), [preprocess] does not fail; it returns, with
    [xRatio = Infinity]. *)
Lemma C8_counterexample :
  exists input yRatio w',
    preprocess frame_0x2 2 2 (example_world (fun _ => 0))
    = (Returned (input, Number.infinity, yRatio), w').
Proof. vm_compute. do 3 eexists. reflexivity. Qed.

(** C8, amended.  [preprocess] has no error condition: for every frame,
    zero-area ones included, and every model size it returns.  For a frame
    of width 0 and positive height [xRatio] is [Infinity] and [yRatio] is
    1; for height 0 and positive width [xRatio] is 1 and [yRatio] is
    [Infinity]; for a 0 x 0 frame both are NaN. *)
Theorem C8_preprocess_never_fails (f : Preprocessor.frame) (modelWidth modelHeight : nat)
  (w : world) :
  exists input xRatio yRatio w',
    preprocess f modelWidth modelHeight w = (Returned (input, xRatio, yRatio), w') /\
    (Preprocessor.width f = 0%nat -> (0 < Preprocessor.height f)%nat ->
     (Z.of_nat (Preprocessor.height f) < 2 ^ 53)%Z ->
     xRatio = Number.infinity /\ yRatio = Number.one) /\
    (Preprocessor.height f = 0%nat -> (0 < Preprocessor.width f)%nat ->
     (Z.of_nat (Preprocessor.width f) < 2 ^ 53)%Z ->
     xRatio = Number.one /\ yRatio = Number.infinity) /\
    (Preprocessor.width f = 0%nat -> Preprocessor.height f = 0%nat ->
     xRatio = Number.nan /\ yRatio = Number.nan).
Proof.
  destruct (preprocess_returns f modelWidth modelHeight w)
    as (input & x & y & w' & Hrun & Hpure).
  exists input, x, y, w'. split; [exact Hrun|].
  destruct (PreprocessorFacts.preprocess_some f modelWidth modelHeight)
    as (p & r & _ & _ & _ & _ & E).
  rewrite E in Hpure. injection Hpure as _ <- <-.
  split; [|split].
  - intros Hw Hh Hb. rewrite Hw. cbn [Nat.max].
    destruct (NumberFacts.of_nat_finite Hh Hb) as (mh & eh & Eh).
    split.
    + rewrite Eh. reflexivity.
    + now apply NumberFacts.div_of_nat_self.
  - intros Hh Hw Hb. rewrite Hh, Nat.max_0_r.
    destruct (NumberFacts.of_nat_finite Hw Hb) as (mw & ew & Ew).
    split.
    + now apply NumberFacts.div_of_nat_self.
    + rewrite Ew. reflexivity.
  - intros -> ->. split; reflexivity.
Qed.

(** ** C9: release of the intermediate tensors *)
(** C9, as the claim states it, fails: with the model of [App.jsx] before
    loading ([net] is [null]), [detect] throws when it reaches
    [model.net.execute], after the scope was opened and the input tensor
    made; the scope stays open and the tensor stays alive. *)
Lemma C9_counterexample :
  exists w',
    detect example_frame initial_model example_canvas (ret tt) (example_world (fun _ => 0))
    = (Thrown TypeError, w') /\
    live (example_world (fun _ => 0)) = [] /\
    scopes w' = [[4%nat]] /\ live w' = [4%nat].
Proof. vm_compute. eexists. repeat split. Qed.

(** C9, amended.  For every invocation of [detect] that returns (its
    callback making no tensors, as the two callbacks of the program), all
    tensors the call made are released before it returns and the scope it
    opened is closed: the engine's scopes and live tensors are as before
    the call.  (Nothing is said about an invocation in which a step
    throws.) *)
Theorem C9_released_on_return (source : Preprocessor.frame) (m : model)
  (canvasRef : canvas) (callback : M unit) (w w' : world) :
  Runtime.fresh w -> engine_neutral callback ->
  detect source m canvasRef callback w = (Returned tt, w') ->
  scopes w' = scopes w /\ untracked w' = untracked w /\ live w' = live w.
Proof.
  intros Hw Hcb H. destruct (@detect_no_leak _ _ _ _ _ _ Hw Hcb H) as [E1 E2].
  unfold live. now rewrite E1, E2.
Qed.

Lemma C9_released_on_return_witness :
  exists w',
    detect example_frame example_model example_canvas requestAnimationFrame
           (example_world (fun _ => 0)) = (Returned tt, w') /\
    live w' = live (example_world (fun _ => 0)).
Proof.
  eexists. split; [vm_compute; reflexivity|].
  refine (proj2 (proj2 (@C9_released_on_return example_frame example_model example_canvas
            requestAnimationFrame (example_world (fun _ => 0)) _ _
            engine_neutral_requestAnimationFrame _))).
  - split; constructor.
  - vm_compute. reflexivity.
Defined.

(** ** C6: the published metric *)
(** Three detections of 10, 20 and 30 ms inside one publish window: the
    third tick publishes 50. *)
Example fps_10_20_30 :
  fps_text (stream example_video [example_video; example_video] example_model
                   example_canvas (example_world timer_10_20_30))
  = ShownInt 50.
Proof. vm_compute. reflexivity. Qed.

(** When the two timer readings of the only detection of a window
    coincide, the average is 0, [1000.0 / 0] is [Infinity] and the metric
    shows NaN. *)
Example fps_zero_elapsed :
  fps_text (snd (detectVideo example_video example_model example_canvas
                             (example_world timer_coarse)))
  = ShownNaN.
Proof. vm_compute. reflexivity. Qed.

(** C6 at the failing input.  One detection that starts at 5000 ms and
    ends at 2 000 005 000 ms closes its window with
    [total = 2000000000] and [count = 1]: [1000 / (total / count)] is
    5e-7, whose floor is 0, but [parseInt] reads the string "5e-7" and the
    published metric is 5.  The accumulators are reset as claimed. *)
Theorem C6_published_metric_divergence :
  let w' := snd (detectVideo example_video example_model example_canvas
                             (example_world timer_long)) in
  fps_text w' = ShownInt 5 /\
  Qfloor (1000 / (2000000000 / Preprocessor.Qnat 1)) = 0%Z /\
  inferenceTimeSum (vars w') = 0 /\ numInferences (vars w') = 0%nat /\
  lastFpsRefresh (vars w') = 2000005000.
Proof. vm_compute. repeat split. Qed.

(** ** C7: a closed source ends the loop *)
(** C7.  At a tick where the video reports width 0 and has no stream,
    [detectFrame] only clears the whole canvas: no detection runs (the
    engine, the timer and the session variables are untouched, no other
    call is made) and no frame is requested, so a tick run by the browser
    as the one pending callback leaves nothing pending and the loop ends
    whatever the later states of the video.  At every other tick (a frame
    is available or a stream is attached) [detectFrame] runs [detect] on
    the current picture; with a loaded pose model the detection executes
    the model, returns and requests the next frame. *)
Theorem C7_source_ended (vid : video) (m : model) (canvasRef : canvas) (w : world) :
  (videoWidth vid = 0%nat /\ srcObject vid = None ->
     detectFrame vid m canvasRef w
     = (Returned tt,
        set_trace (CallClearRect 0 0 (canvas_width canvasRef) (canvas_height canvasRef)
                     :: trace w) w) /\
     forall later,
       requested_frames w = 1%nat ->
       animation_frames (vid :: later) m canvasRef w
       = set_trace (CallClearRect 0 0 (canvas_width canvasRef) (canvas_height canvasRef)
                      :: trace w) (set_requested_frames 0 w)) /\
  (videoWidth vid <> 0%nat \/ srcObject vid <> None ->
     detectFrame vid m canvasRef w
     = match detect (picture vid) m canvasRef requestAnimationFrame (started w) with
       | (Returned _, w1) => (Returned tt, measured w1)
       | (Thrown e, w1) => (Thrown e, w1)
       end /\
     (pose_model m ->
      exists v w',
        detectFrame vid m canvasRef w = (Returned tt, w') /\
        In (CallExecute (v_input v)) (trace w') /\
        In CallRequestAnimationFrame (trace w') /\
        requested_frames w' = S (requested_frames w))).
Proof.
  split.
  - intros Hclosed. apply source_closed_iff in Hclosed. split.
    + now apply detectFrame_closed.
    + intros later Hreq. cbn [animation_frames]. rewrite Hreq.
      rewrite detectFrame_closed by assumption. cbn [snd].
      destruct later; reflexivity.
  - intros Hopen.
    assert (Hc : source_closed vid = false).
    { apply not_true_is_false. intros E. apply source_closed_iff in E as [E1 E2].
      destruct Hopen; contradiction. }
    split; [now apply detectFrame_open|].
    intros Hm. rewrite detectFrame_open by assumption.
    destruct (detect_streaming (picture vid) canvasRef (started w) Hm)
      as (v & w1 & Hv & -> & Htr & Hrf).
    exists v, (measured w1). split; [reflexivity|].
    assert (Hsub : forall e, In e (trace w1) -> In e (trace (measured w1))).
    { intros e He. unfold measured. destruct (Qle_bool _ _); cbn [trace]; auto with datatypes. }
    assert (Hreq : requested_frames (measured w1) = requested_frames w1).
    { unfold measured. destruct (Qle_bool _ _); reflexivity. }
    split; [|split].
    + apply Hsub. rewrite Htr. right. apply in_or_app. left. cbn. auto.
    + apply Hsub. rewrite Htr. now left.
    + rewrite Hreq, Hrf. reflexivity.
Qed.

Lemma C7_source_ended_witness :
  detectFrame (mkVideo frame_0x2 None) example_model example_canvas
              (example_world (fun _ => 0))
  = (Returned tt,
     set_trace [CallClearRect 0 0 2 2] (example_world (fun _ => 0))) /\
  exists v w',
    detectFrame example_video example_model example_canvas (example_world (fun _ => 0))
    = (Returned tt, w') /\
    In (CallExecute (v_input v)) (trace w') /\
    requested_frames w' = 1%nat.
Proof.
  split.
  - exact (proj1 (proj1 (@C7_source_ended (mkVideo frame_0x2 None) example_model
                           example_canvas (example_world (fun _ => 0)))
                        (conj eq_refl eq_refl))).
  - assert (Hopen : videoWidth example_video <> 0%nat \/ srcObject example_video <> None)
      by (right; discriminate).
    destruct (proj2 (proj2 (@C7_source_ended example_video example_model
                              example_canvas (example_world (fun _ => 0))) Hopen)
                    example_pose_model) as (v & w' & H1 & H2 & _ & H3).
    exists v, w'. split; [exact H1|]. split; [exact H2 | exact H3].
Defined.

(** C10.  Every invocation of [detectVideo] sets the metric to 0 once,
    before its first frame is processed: it is the first frame's tick run
    from [session_start w], where the metric shows 0 whatever it showed
    before; what a previous session left in the metric has no influence on
    the session; and no tick resets the metric: a tick leaves it alone or
    publishes the value of the window it closes. *)
Theorem C10_metric_reset (vid : video) (m : model) (canvasRef : canvas) (w : world) :
  detectVideo vid m canvasRef w = detectFrame vid m canvasRef (session_start w) /\
  fps_text (session_start w) = ShownInt 0 /\
  (forall old later,
     stream vid later m canvasRef (set_fps_text old w) = stream vid later m canvasRef w) /\
  (forall vid' w0,
     let w' := snd (detectFrame vid' m canvasRef w0) in
     (fps_text w' = fps_text w0 /\
      exists new, trace w' = new ++ trace w0 /\ no_metric_write new) \/
     (exists w1 new,
        detect (picture vid') m canvasRef requestAnimationFrame (started w0)
        = (Returned tt, w1) /\
        FPSUpdateMilliseconds <= timer w1 (timer_reads w1) - lastFpsRefresh (vars w1) /\
        fps_text w' = window_fps (vars w1) (timer w1 (timer_reads w1)) /\
        trace w' = SetFps (fps_text w') :: new ++ trace w0 /\ no_metric_write new)).
Proof.
  split; [reflexivity|]. split; [reflexivity|]. split.
  - intros old later. reflexivity.
  - intros vid' w0. apply tick_metric.
Qed.

(** * Part IV: further properties of the code *)

Import ErrorSpec ErrorFacts TickFacts StreamFacts PipelineFacts MemoryFacts.
Import StreamSpec MetricFacts SessionFacts.

(** ** What the renderer receives *)
(** X1.  In every detection that returns, on a raw output of shape
    [[1, a, n]], the values handed to [renderBoxes] are aligned: with
    [k] detections selected, [scores_data] has [k] entries and
    [boxes_data] has [4 k]; entry [p] of the scores is the score
    (attribute 4) of detection [nms[p]] of the raw output, and entries
    [4 p .. 4 p + 3] of the boxes are row [nms[p]] of the boxes tensor
    that was handed to the suppressor.  Only the places of the values
    are stated, not what the box arithmetic makes of them. *)
Theorem X1_rendered_rows_aligned (source : Preprocessor.frame) (m : model)
  (canvasRef : canvas) (callback : M unit) (w w' : world) :
  quiet callback ->
  detect source m canvasRef callback w = (Returned tt, w') ->
  exists v after,
    valid_run source m v /\
    trace w' = after ++ CallRenderBoxes (v_landmarks_data v) (v_boxes_data v)
                          (v_scores_data v) (v_xRatio v) (v_yRatio v)
                        :: CallNonMaxSuppression (v_boxes v) (v_scores v) 10
                             (45 # 100) (3 # 10)
                        :: CallExecute (v_input v) :: trace w /\
    forall a n, shape (v_res v) = [1; a; n]%nat ->
      length (v_scores_data v) = length (v_nms v) /\
      length (v_boxes_data v) = (length (v_nms v) * 4)%nat /\
      forall p, (p < length (v_nms v))%nat ->
        let i := nth p (v_nms v) 0%nat in
        (i < n)%nat /\
        nth p (v_scores_data v) 0 = get (v_res v) (4 * n + i) /\
        forall c, (c < 4)%nat ->
          nth (p * 4 + c) (v_boxes_data v) 0 = get (v_boxes v) (i * 4 + c).
Proof.
  intros Hcb Hrun.
  destruct (@detect_returned _ _ _ _ _ _ Hcb Hrun) as (v & after & Hv & Htrace).
  exists v, after. split; [exact Hv|]. split; [exact Htrace|].
  intros a n Hs.
  destruct (rendered_rows Hv Hs) as (Hidx & Hls & Hlb & Hrows).
  split; [exact Hls|]. split; [exact Hlb|].
  intros p Hp i. split.
  - rewrite Forall_forall in Hidx. apply Hidx, nth_In, Hp.
  - exact (Hrows p Hp).
Qed.

Lemma X1_rendered_rows_aligned_witness :
  exists v w',
    detect example_frame example_model example_canvas (ret tt)
           (example_world (fun _ => 0)) = (Returned tt, w') /\
    valid_run example_frame example_model v /\
    length (v_boxes_data v) = (length (v_nms v) * 4)%nat.
Proof.
  destruct (detect_default example_frame example_canvas example_pose_model
              (w := example_world (fun _ => 0)))
    as (v0 & w' & _ & Hrun & _); [split; constructor|].
  destruct (@X1_rendered_rows_aligned example_frame example_model example_canvas
              (ret tt) (example_world (fun _ => 0)) w' (@quiet_ret unit tt) Hrun)
    as (v & after & Hv & _ & H).
  exists v, w'. split; [exact Hrun|]. split; [exact Hv|].
  assert (Hres : v_res v = example_raw).
  { destruct (ok_execute Hv) as (f & Hf & Hr). injection Hf as <-. now injection Hr. }
  refine (proj1 (proj2 (H 56%nat 3%nat _))).
  rewrite Hres. reflexivity.
Defined.

(** ** What [detect] needs from the model *)
(** X2.  [detect] returns only if the raw output of the model has rank 3,
    [[b, a, n]], with at least five attribute rows ([a >= 5]) and is not a
    single column of a single batch ([b = 1] and [n = 1], which
    [squeeze()] would collapse to a scalar score); and for [b = 1] only if
    the [k (a - 5)] keypoint values of the [k] selected detections fill
    whole blocks of 51, as the reshape to [[-1, 3, 17]] requires.
    Otherwise the call does not return. *)
Theorem X2_detect_needs_wellformed_output (source : Preprocessor.frame) (m : model)
  (canvasRef : canvas) (callback : M unit) (w w' : world) :
  detect source m canvasRef callback w = (Returned tt, w') ->
  exists v b a n,
    valid_run source m v /\
    shape (v_res v) = [b; a; n]%nat /\ (5 <= a)%nat /\ ~ (b = 1%nat /\ n = 1%nat) /\
    (b = 1%nat -> ((length (v_nms v) * (a - 5)) mod 51 = 0)%nat).
Proof.
  intros Hrun. destruct w as [n0 sc u tr rf fps tm rd vs].
  apply detect_inv in Hrun as (v & _ & _ & _ & _ & Hv & _).
  destruct (valid_run_shape Hv) as (b & a & n & H).
  exists v, b, a, n. split; [exact Hv | exact H].
Qed.

Lemma X2_detect_needs_wellformed_output_witness :
  exists v w',
    detect example_frame example_model example_canvas (ret tt)
           (example_world (fun _ => 0)) = (Returned tt, w') /\
    valid_run example_frame example_model v /\
    shape (v_res v) = [1; 56; 3]%nat.
Proof.
  destruct (detect_default example_frame example_canvas example_pose_model
              (w := example_world (fun _ => 0)))
    as (v0 & w' & _ & Hrun & _); [split; constructor|].
  destruct (@X2_detect_needs_wellformed_output example_frame example_model example_canvas
              (ret tt) (example_world (fun _ => 0)) w' Hrun)
    as (v & b & a & n & Hv & _).
  exists v, w'. split; [exact Hrun|]. split; [exact Hv|].
  destruct (ok_execute Hv) as (f & Hf & Hr). injection Hf as <-. now injection Hr as <-.
Defined.

(** ** Error paths of [detect] *)
(** X3.  Whenever [detect] throws (its callback being one that returns,
    like the two callbacks of the program), the scope it opened is still
    open: the scope stack is one deeper than before and its innermost
    scope holds tensors made by this call (the input tensor among them),
    which stay alive; the enclosing scopes and the untracked tensors are
    untouched.  Before throwing the call made no other calls than those
    of the model and of the suppressor: nothing was drawn and no frame
    was requested.  The exception is a [TypeError] when [model.net] is
    [null], the model's own exception when [execute] throws, and a
    rejection by TensorFlow.js in every other case. *)
Theorem X3_error_leaves_scope_open (source : Preprocessor.frame) (m : model)
  (canvasRef : canvas) (callback : M unit) (w : world) (e : exn) (w' : world) :
  returns callback ->
  detect source m canvasRef callback w = (Thrown e, w') ->
  exists top new,
    scopes w' = top :: scopes w /\ untracked w' = untracked w /\
    top <> [] /\ Forall (fun id => (next_id w <= id)%nat) top /\
    live w' = top ++ live w /\
    trace w' = new ++ trace w /\ Forall before_render new /\
    requested_frames w' = requested_frames w /\ fps_text w' = fps_text w /\
    ((net m = None /\ e = TypeError) \/
     (exists f t xRatio yRatio,
        Preprocessor.preprocess source (nth 1 (inputShape m) 0%nat)
                                (nth 2 (inputShape m) 0%nat)
        = Some (t, xRatio, yRatio) /\
        net m = Some f /\ f t = Thrown e) \/
     e = TfError).
Proof.
  intros Hcb Hrun. destruct w as [n sc u tr rf fps tm rd vs].
  apply detect_thrown in Hrun
    as (n' & top & new & -> & _ & Hin & Htop & Hnew & _ & Hkind & _); [|exact Hcb].
  exists top, new. cbn [scopes untracked next_id trace requested_frames fps_text].
  repeat split; try assumption.
  - intros ->. destruct Hin.
  - eapply Forall_impl; [|exact Htop]. cbn. intros; lia.
  - unfold live. cbn [scopes untracked concat]. now rewrite app_assoc.
Qed.

Lemma X3_error_leaves_scope_open_witness :
  exists w' top,
    detect example_frame initial_model example_canvas (ret tt)
           (example_world (fun _ => 0)) = (Thrown TypeError, w') /\
    scopes w' = top :: scopes (example_world (fun _ => 0)) /\ top <> [].
Proof.
  eexists.
  destruct (@X3_error_leaves_scope_open example_frame initial_model example_canvas
              (ret tt) (example_world (fun _ => 0)) TypeError _ returns_ret
              ltac:(vm_compute; reflexivity))
    as (top & new & H1 & _ & H2 & _).
  exists top. split; [vm_compute; reflexivity|]. split; [exact H1 | exact H2].
Defined.

(** ** Before the model is loaded *)
(** X4.  While the model state has no network ([net: null], as in the
    initial state of [App.jsx]), the image handler throws a [TypeError]
    at [model.net.execute]: it has made no call, requested no frame and
    left its scope open with the input tensor in it.  The video handler,
    on an open source, sets the metric to 0 and then throws the same
    [TypeError] from its first tick, having requested no frame: the
    stream never starts. *)
Theorem X4_unloaded_model_throws (st : App.state) (img : Preprocessor.frame)
  (vid : video) (w : world) :
  net (App.model st) = None ->
  (exists w',
     App.onLoad img st w = (Thrown TypeError, w') /\
     trace w' = trace w /\ requested_frames w' = requested_frames w /\
     scopes w' = [(next_id w + 4)%nat] :: scopes w /\ untracked w' = untracked w) /\
  (source_closed vid = false ->
   exists w',
     App.onPlay vid st w = (Thrown TypeError, w') /\
     fps_text w' = ShownInt 0 /\ trace w' = SetFps (ShownInt 0) :: trace w /\
     requested_frames w' = requested_frames w).
Proof.
  intros Hnet. destruct w as [n sc u tr rf fps tm rd vs]. split.
  - unfold App.onLoad. rewrite detect_unloaded by exact Hnet.
    eexists. split; [reflexivity|]. cbn. auto.
  - intros Hc. unfold App.onPlay.
    change (detectVideo vid (App.model st) (App.canvasRef st)
              (mkWorld n sc u tr rf fps tm rd vs))
      with (detectFrame vid (App.model st) (App.canvasRef st)
              (session_start (mkWorld n sc u tr rf fps tm rd vs))).
    rewrite detectFrame_open by assumption.
    unfold session_start, started, set_vars, set_timer_reads.
    cbn [next_id scopes untracked trace requested_frames fps_text timer timer_reads vars].
    rewrite detect_unloaded by assumption.
    eexists. split; [reflexivity|]. cbn. auto.
Qed.

Lemma X4_unloaded_model_throws_witness :
  exists w',
    App.onLoad example_frame App.initial (example_world (fun _ => 0))
    = (Thrown TypeError, w') /\ trace w' = [].
Proof.
  destruct (proj1 (@X4_unloaded_model_throws App.initial example_frame example_video
                     (example_world (fun _ => 0)) eq_refl))
    as (w' & H1 & H2 & _).
  exists w'. split; [exact H1 | exact H2].
Defined.

(** ** A frame that fails *)
(** X5.  When the detection of a tick throws, the tick throws with it
    before anything of the measurement has run: nothing is logged, the
    metric and the accumulators of the session keep their values, and no
    frame is requested.  Run by the browser as the one pending callback,
    such a tick leaves nothing pending: the stream stops there, whatever
    the later states of the video. *)
Theorem X5_failed_frame_ends_stream (vid : video) (later : list video) (m : model)
  (canvasRef : canvas) (w : world) (e : exn) (w' : world) :
  requested_frames w = 1%nat ->
  detectFrame vid m canvasRef (set_requested_frames 0 w) = (Thrown e, w') ->
  animation_frames (vid :: later) m canvasRef w = w' /\
  requested_frames w' = 0%nat /\
  fps_text w' = fps_text w /\
  inferenceTimeSum (vars w') = inferenceTimeSum (vars w) /\
  numInferences (vars w') = numInferences (vars w) /\
  lastFpsRefresh (vars w') = lastFpsRefresh (vars w) /\
  exists new, trace w' = new ++ trace w /\ Forall before_render new.
Proof.
  intros Hrf Hrun.
  assert (Hstop : requested_frames w' = 0%nat ->
                  animation_frames (vid :: later) m canvasRef w = w').
  { intros H0. cbn [animation_frames]. rewrite Hrf, Hrun. cbn [snd].
    destruct later; cbn [animation_frames]; [reflexivity | now rewrite H0]. }
  destruct w as [n sc u tr rf fps tm rd vs].
  unfold set_requested_frames in Hrun.
  cbn [next_id scopes untracked trace fps_text timer timer_reads vars] in Hrun.
  destruct (tick_cases vid m canvasRef n sc u tr 0 fps tm rd vs)
    as [(Hc & E)|[(Hc & v & n' & ids & _ & _ & _ & E)
                 |(Hc & e' & n' & top & new & E & _ & _ & _ & Hnew & _)]];
    rewrite E in Hrun; try discriminate.
  injection Hrun as <- <-.
  split; [apply Hstop; reflexivity|].
  cbn [requested_frames fps_text vars trace inferenceTimeSum numInferences lastFpsRefresh].
  repeat split. exists new. auto.
Qed.

Lemma X5_failed_frame_ends_stream_witness :
  exists w',
    animation_frames [example_video; example_video] initial_model example_canvas
      (set_requested_frames 1 (example_world (fun _ => 0))) = w' /\
    requested_frames w' = 0%nat /\ fps_text w' = ShownInt 0.
Proof.
  eexists.
  assert (Hrun : detectFrame example_video initial_model example_canvas
                   (set_requested_frames 0
                      (set_requested_frames 1 (example_world (fun _ => 0))))
                 = (Thrown TypeError,
                    snd (detectFrame example_video initial_model example_canvas
                           (set_requested_frames 0
                              (set_requested_frames 1 (example_world (fun _ => 0)))))))
    by (vm_compute; reflexivity).
  destruct (@X5_failed_frame_ends_stream example_video [example_video] initial_model
              example_canvas (set_requested_frames 1 (example_world (fun _ => 0)))
              TypeError _ eq_refl Hrun) as (H1 & H2 & H3 & _).
  split; [exact H1|]. split; [exact H2 | exact H3].
Defined.

(** ** The loop never forks *)
(** X6.  A tick requests one further tick exactly when its source is open
    and its detection returns, and none otherwise.  So in a session
    started with no callback pending at most one callback is pending
    after every animation frame: the loop of a session never forks. *)
Theorem X6_one_callback_pending (first : video) (snapshots : list video) (m : model)
  (canvasRef : canvas) (w : world) :
  (forall vid w0,
     let r := detectFrame vid m canvasRef w0 in
     (source_closed vid = false /\ fst r = Returned tt /\
      requested_frames (snd r) = S (requested_frames w0)) \/
     ((source_closed vid = true \/ exists e, fst r = Thrown e) /\
      requested_frames (snd r) = requested_frames w0)) /\
  (requested_frames w = 0%nat ->
   (requested_frames (stream first snapshots m canvasRef w) <= 1)%nat).
Proof.
  split; [intros vid w0; apply tick_requested_frames|].
  intros Hrf. unfold stream.
  apply (@animation_frames_invariant (fun w => (requested_frames w <= 1)%nat)).
  - intros v w0 k Hw0 Hk.
    destruct (tick_requested_frames v m canvasRef (set_requested_frames k w0))
      as [(_ & _ & E)|(_ & E)]; rewrite E; cbn [requested_frames set_requested_frames]; lia.
  - change (detectVideo first m canvasRef w)
      with (detectFrame first m canvasRef (session_start w)).
    destruct (tick_requested_frames first m canvasRef (session_start w))
      as [(_ & _ & E)|(_ & E)]; rewrite E; cbn [requested_frames session_start]; lia.
Qed.

Lemma X6_one_callback_pending_witness :
  (requested_frames (stream example_video [example_video; example_video] example_model
                            example_canvas (example_world (fun _ => 0%Q))) <= 1)%nat.
Proof.
  exact (proj2 (@X6_one_callback_pending example_video [example_video; example_video]
                  example_model example_canvas (example_world (fun _ => 0))) eq_refl).
Defined.

(** ** The first frame of a session *)
(** X8.  [detectVideo] starts its window at time 0 of the timer, not at
    the start of the session.  So the first tick, whose detection ends
    at [t1], closes a window exactly when [t1 >= 1000] (the page is at
    least one second old): it then publishes from that single detection,
    leaves both accumulators at 0 and sets [lastFpsRefresh] to [t1]; what
    it publishes is NaN when the timer shows no time elapsed
    ([t1 = t0]).  When [t1 < 1000] the metric stays at 0 and one
    detection is counted.  The comparisons are with the timer's own
    readings ([t1 - 0] is [t1]), so no rounding enters. *)
Theorem X8_first_frame_publishes (vid : video) (m : model) (canvasRef : canvas)
  (w w' : world) :
  source_closed vid = false ->
  detectVideo vid m canvasRef w = (Returned tt, w') ->
  let t0 := timer w (timer_reads w) in
  let t1 := timer w (S (timer_reads w)) in
  (1000 <= t1 ->
   inferenceTimeSum (vars w') = 0 /\ numInferences (vars w') = 0%nat /\
   lastFpsRefresh (vars w') = t1 /\
   (t1 == t0 -> fps_text w' = ShownNaN)) /\
  (t1 < 1000 -> fps_text w' = ShownInt 0 /\ numInferences (vars w') = 1%nat).
Proof.
  intros Hc Hrun.
  change (detectVideo vid m canvasRef w)
    with (detectFrame vid m canvasRef (session_start w)) in Hrun.
  destruct (@detectFrame_publish vid m canvasRef (session_start w) w' Hc Hrun)
    as [Hpub Hkeep].
  cbv zeta in *.
  change (timer (session_start w)) with (timer w) in *.
  change (timer_reads (session_start w)) with (timer_reads w) in *.
  change (vars (session_start w)) with (mkSession 0 0 0 0 0) in *.
  change (fps_text (session_start w)) with (ShownInt 0) in *.
  cbn [inferenceTimeSum numInferences lastFpsRefresh] in *.
  set (t0 := timer w (timer_reads w)) in *.
  set (t1 := timer w (S (timer_reads w))) in *.
  split.
  - intros Hwin. destruct Hpub as (Efps & E1 & E2 & E3 & _); [lra|].
    split; [exact E1|]. split; [exact E2|]. split; [exact E3|].
    intros Heq. rewrite Efps.
    rewrite div_finite by (intros E; discriminate E).
    unfold div. replace (Qeq_bool _ 0) with true; [reflexivity|].
    symmetry. apply Qeq_bool_iff. rewrite Heq. unfold Qdiv. ring.
  - intros Hlt. destruct Hkeep as (E1 & _ & E3 & _); [lra|].
    split; [exact E1 | exact E3].
Qed.

Lemma X8_first_frame_publishes_witness :
  fps_text (snd (detectVideo example_video example_model example_canvas
                   (example_world timer_coarse)))
  = ShownNaN.
Proof.
  set (w := example_world timer_coarse).
  assert (Hrun : detectVideo example_video example_model example_canvas w
                 = (Returned tt, snd (detectVideo example_video example_model
                                        example_canvas w)))
    by (vm_compute; reflexivity).
  destruct (@X8_first_frame_publishes example_video example_model example_canvas w _
              eq_refl Hrun) as [H _].
  assert (H1 : 1000 <= timer w (S (timer_reads w))) by (vm_compute; discriminate).
  destruct (H H1) as (_ & _ & _ & Hnan).
  apply Hnan. reflexivity.
Defined.

(** ** The metric never goes negative *)
(** X9.  With a timer that never runs backwards, whatever the model, the
    frames and the page before the session, the metric shown at any point
    of a streaming session is a number that is not negative, or NaN. *)
Theorem X9_metric_never_negative (first : video) (snapshots : list video) (m : model)
  (canvasRef : canvas) (w : world) :
  (forall k, timer w k <= timer w (S k)) ->
  shown_nonneg (fps_text (stream first snapshots m canvasRef w)).
Proof.
  intros Hmono. unfold stream.
  set (P := fun w0 : world =>
              timer w0 = timer w /\ 0 <= inferenceTimeSum (vars w0) /\
              shown_nonneg (fps_text w0)).
  enough (HP : P (animation_frames snapshots m canvasRef
                    (snd (detectVideo first m canvasRef w)))) by apply HP.
  apply animation_frames_invariant.
  - intros v w0 k Hw0 _. apply (@tick_metric_nonneg (timer w) v m canvasRef _ Hmono).
    exact Hw0.
  - change (detectVideo first m canvasRef w)
      with (detectFrame first m canvasRef (session_start w)).
    apply (@tick_metric_nonneg (timer w) first m canvasRef _ Hmono).
    cbn. repeat split; [apply Qle_refl | lia].
Qed.

Lemma X9_metric_never_negative_witness :
  shown_nonneg (fps_text (stream example_video [example_video; example_video]
                            example_model example_canvas
                            (example_world (fun k => inject_Z (Z.of_nat k * 600))))).
Proof.
  apply X9_metric_never_negative.
  intros k. cbn [timer example_world]. rewrite <- Zle_Qle. lia.
Defined.

(** ** What [preprocess] leaves in the engine *)
(** X10.  [preprocess] returns in every state of the engine, with or
    without an open scope, and leaves exactly one tensor more alive than
    before, the input tensor it returns: the pixels, the padded image and
    the other intermediates of its [tf.tidy] block are released, the scope
    stack is as deep as before, and no call is made.  The caller owns the
    input tensor. *)
Theorem X10_preprocess_leaves_input_only (f : Preprocessor.frame)
  (modelWidth modelHeight : nat) (w : world) :
  exists input xRatio yRatio w',
    preprocess f modelWidth modelHeight w = (Returned (input, xRatio, yRatio), w') /\
    live w' = hid input :: live w /\
    length (scopes w') = length (scopes w) /\
    trace w' = trace w /\
    (fresh w -> ~ In (hid input) (live w)).
Proof.
  destruct (preprocess_world f modelWidth modelHeight w)
    as (input & x & y & w' & Hrun & _ & Hid & _ & Hlive & Hlen & Htr).
  exists input, x, y, w'. repeat split; try assumption.
  intros [Hsc Hu] Hin. rewrite Hid in Hin. unfold live in Hin.
  apply in_app_or in Hin as [Hin|Hin].
  - apply in_concat in Hin as (l & Hl & Hin).
    rewrite Forall_forall in Hsc. specialize (Hsc l Hl).
    rewrite Forall_forall in Hsc. specialize (Hsc _ Hin). lia.
  - rewrite Forall_forall in Hu. specialize (Hu _ Hin). lia.
Qed.

(** ** Resizing by a whole factor *)
(** X11.  When the side [max w h] of the padded square is a whole
    multiple of both model sizes ([q1 * modelWidth] and
    [q2 * modelHeight]), the bilinear resize interpolates nothing: entry
    [(r, c)] of the resized image, the one [preprocess] then divides by
    255, is pixel [(q1 r, q2 c)] of the padded frame, that is the frame's
    own pixel where the frame has one and 0 in the padding.  Every such
    entry is a whole number from 0 to 255.  With [q1 = q2 = 1] the
    resized image is the padded frame. *)
Theorem X11_whole_factor_resize_subsamples (f : Preprocessor.frame)
  (modelWidth modelHeight q1 q2 : nat) :
  let w := Preprocessor.width f in
  let h := Preprocessor.height f in
  (0 < w)%nat -> (0 < h)%nat ->
  Nat.max w h = (q1 * modelWidth)%nat -> Nat.max w h = (q2 * modelHeight)%nat ->
  exists imgPadded resized xRatio yRatio,
    Preprocessor.pad_to_square (Preprocessor.fromPixels f) = Some imgPadded /\
    Preprocessor.resizeBilinear imgPadded modelWidth modelHeight = Some resized /\
    Preprocessor.preprocess f modelWidth modelHeight
    = Some (expandDims0 (div_scalar resized 255), xRatio, yRatio) /\
    forall r c d, (r < modelWidth)%nat -> (c < modelHeight)%nat -> (d < 3)%nat ->
      get resized ((r * modelHeight + c) * 3 + d)
      == (if ((q1 * r <? h) && (q2 * c <? w))%nat%bool
          then Preprocessor.byte_value
                 (nth ((q1 * r * w + q2 * c) * 3 + d) (Preprocessor.pixels f) x00)
          else 0).
Proof.
  intros w h Hw Hh H1 H2.
  destruct (PreprocessorFacts.preprocess_some f modelWidth modelHeight)
    as (p & res & Hp & Hr & Hs & _ & E).
  destruct (PreprocessorFacts.pad_to_square_spec f) as (p' & Hp' & Hsp & Hget).
  rewrite Hp in Hp'. injection Hp' as <-. fold w h in Hsp, Hget.
  exists p, res. do 2 eexists. split; [exact Hp|]. split; [exact Hr|]. split; [exact E|].
  intros r c d Hr' Hc Hd.
  rewrite (@ResizeFacts.resizeBilinear_whole_factor p _ _ _ modelWidth modelHeight q1 q2
             res Hsp H1 H2 Hr r c d Hr' Hc Hd).
  assert (Hq1 : (q1 * r < Nat.max w h)%nat).
  { rewrite H1. destruct q1 as [|q1]; [lia | nia]. }
  assert (Hq2 : (q2 * c < Nat.max w h)%nat).
  { rewrite H2. destruct q2 as [|q2]; [lia | nia]. }
  rewrite (Hget _ _ _ Hq1 Hq2 Hd).
  destruct ((q1 * r <? h)%nat && (q2 * c <? w)%nat)%bool eqn:Eb; [|reflexivity].
  apply andb_true_iff in Eb as [Er Ec]. apply Nat.ltb_lt in Er, Ec.
  unfold Preprocessor.fromPixels. fold w h.
  rewrite DecoderFacts.get_tab by nia. reflexivity.
Qed.

Lemma X11_whole_factor_resize_subsamples_witness :
  exists imgPadded resized xRatio yRatio,
    Preprocessor.resizeBilinear imgPadded 2 2 = Some resized /\
    Preprocessor.preprocess example_frame 2 2
    = Some (expandDims0 (div_scalar resized 255), xRatio, yRatio) /\
    get resized 3 == 4.
Proof.
  destruct (@X11_whole_factor_resize_subsamples example_frame 2 2 1 1
              ltac:(cbn; lia) ltac:(cbn; lia) eq_refl eq_refl)
    as (p & res & x & y & _ & Hr & E & H).
  exists p, res, x, y. split; [exact Hr|]. split; [exact E|].
  exact (H 0%nat 1%nat 0%nat ltac:(lia) ltac:(lia) ltac:(lia)).
Defined.

(** ** Loading the model *)
(** X12.  When the warm-up run of a freshly loaded model returns, the
    loading state becomes [{loading: false, progress: 1}], the model state
    holds the network and its input shape, the value logged is entry 4000
    of the warm-up output ([undefined] when the output has at most 4000
    entries), and both tensors of the warm-up are released: the engine's
    scopes and live tensors are as before. *)
Theorem X12_warmup_releases_tensors (yolov8 : App.graph) (raw : tensor) (w : world) :
  fresh w ->
  App.graph_execute yolov8 (App.ones (App.inputs_shape yolov8)) = Returned raw ->
  exists w',
    App.warmup yolov8 w
    = (Returned (App.mkState false 1
                   (mkModel (Some (App.graph_execute yolov8)) (App.inputs_shape yolov8)),
                 nth_error (data raw) 4000), w') /\
    ((length (data raw) <= 4000)%nat -> nth_error (data raw) 4000 = None) /\
    scopes w' = scopes w /\ untracked w' = untracked w /\ live w' = live w /\
    trace w' = CallExecute (App.ones (App.inputs_shape yolov8)) :: trace w.
Proof.
  intros [Hsc Hu] Hf. destruct w as [n sc u tr rf fps tm rd vs].
  cbn [next_id scopes untracked] in Hsc, Hu.
  assert (Hmem : forall l, Forall (fun id => (id < n)%nat) l ->
                   remove_ids [S n; n] l = l).
  { intros l Hl. apply (@RuntimeFacts.remove_ids_fresh n); [exact Hl|].
    repeat (apply Forall_cons; [lia|]). apply Forall_nil. }
  assert (Hnew : forall l, Forall (fun id => (id < n)%nat) l ->
                   remove_ids [S n; n] (S n :: n :: l) = l).
  { intros l Hl. unfold remove_ids. cbn [filter mem existsb].
    rewrite !Nat.eqb_refl. cbn [orb negb].
    replace (n =? S n)%nat with false by (symmetry; apply Nat.eqb_neq; lia).
    cbn [orb negb]. apply Hmem, Hl. }
  unfold App.warmup.
  unfold bind at 1. rewrite alloc_any.
  unfold bind at 1. unfold execute. cbn [net hval hid].
  unfold bind at 1. rewrite RuntimeFacts.emit_run. rewrite Hf, alloc_any.
  unfold bind at 1. rewrite RuntimeFacts.dispose_run. unfold ret. cbn [hid hval].
  eexists. split; [reflexivity|]. split; [apply nth_error_None|].
  unfold live. cbn [scopes untracked trace].
  destruct sc as [|top rest]; cbn [track fst snd map].
  - rewrite (Hnew u Hu). auto.
  - rewrite (Hnew top) by (now inversion Hsc).
    rewrite (@RuntimeFacts.map_remove_ids_fresh n [S n; n] rest), (Hmem u Hu).
    + auto.
    + now inversion Hsc.
    + repeat (apply Forall_cons; [lia|]). apply Forall_nil.
Qed.

Lemma X12_warmup_releases_tensors_witness :
  exists w',
    App.warmup (App.mkGraph [1; 2; 2; 3]%nat (fun _ => Returned example_raw))
               (example_world (fun _ => 0))
    = (Returned (App.mkState false 1 example_model, None), w') /\
    live w' = [].
Proof.
  destruct (@X12_warmup_releases_tensors
              (App.mkGraph [1; 2; 2; 3]%nat (fun _ => Returned example_raw))
              example_raw (example_world (fun _ => 0)))
    as (w' & H1 & _ & _ & _ & H2 & _); [split; constructor | reflexivity |].
  exists w'. split; [exact H1 | exact H2].
Defined.

(** X13.  When the warm-up run throws, nothing after it runs: the loading
    and model states keep their values (from the initial states: the
    loader stays and [net] stays [null]), and the dummy input tensor,
    made outside any [tf.tidy], stays alive. *)
Theorem X13_warmup_failure_keeps_states (yolov8 : App.graph) (e : exn) (st : App.state)
  (w : world) :
  App.graph_execute yolov8 (App.ones (App.inputs_shape yolov8)) = Thrown e ->
  exists w',
    App.warmup yolov8 w = (Thrown e, w') /\
    App.after_ready yolov8 st w = (st, w') /\
    live w' = next_id w :: live w /\
    trace w' = CallExecute (App.ones (App.inputs_shape yolov8)) :: trace w.
Proof.
  intros Hf. destruct w as [n sc u tr rf fps tm rd vs].
  assert (Hrun : App.warmup yolov8 (mkWorld n sc u tr rf fps tm rd vs)
                 = (Thrown e,
                    mkWorld (S n) (fst (track n sc u)) (snd (track n sc u))
                            (CallExecute (App.ones (App.inputs_shape yolov8)) :: tr)
                            rf fps tm rd vs)).
  { unfold App.warmup.
    unfold bind at 1. rewrite alloc_any.
    unfold bind at 1. unfold execute. cbn [net hval hid].
    unfold bind at 1. rewrite RuntimeFacts.emit_run. now rewrite Hf. }
  eexists. split; [exact Hrun|]. unfold App.after_ready. rewrite Hrun.
  split; [reflexivity|]. unfold live. cbn [scopes untracked trace next_id].
  destruct sc as [|top rest]; cbn [track fst snd concat app]; auto.
Qed.

Lemma X13_warmup_failure_keeps_states_witness :
  exists w',
    App.after_ready (App.mkGraph [1; 2; 2; 3]%nat (fun _ => Thrown AdapterError))
                    App.initial (example_world (fun _ => 0))
    = (App.initial, w') /\
    live w' = [0%nat].
Proof.
  destruct (@X13_warmup_failure_keeps_states
              (App.mkGraph [1; 2; 2; 3]%nat (fun _ => Thrown AdapterError))
              AdapterError App.initial (example_world (fun _ => 0)) eq_refl)
    as (w' & _ & H1 & H2 & _).
  exists w'. split; [exact H1 | exact H2].
Defined.

(** ** Detection on an image *)
(** X14.  With a loaded pose model, the image handler runs one detection
    and stops: the call returns after exactly three calls in this order
    (the model, the suppressor, the renderer), requests no animation
    frame, leaves the metric alone and leaves the engine's scopes and
    tensors as they were. *)
Theorem X14_image_detection_one_shot (st : App.state) (img : Preprocessor.frame)
  (w : world) :
  pose_model (App.model st) -> fresh w ->
  exists v w',
    App.onLoad img st w = (Returned tt, w') /\
    valid_run img (App.model st) v /\
    trace w' = CallRenderBoxes (v_landmarks_data v) (v_boxes_data v) (v_scores_data v)
                               (v_xRatio v) (v_yRatio v)
               :: CallNonMaxSuppression (v_boxes v) (v_scores v) 10 (45 # 100) (3 # 10)
               :: CallExecute (v_input v) :: trace w /\
    requested_frames w' = requested_frames w /\ fps_text w' = fps_text w /\
    vars w' = vars w /\
    scopes w' = scopes w /\ untracked w' = untracked w.
Proof.
  intros Hm Hw. destruct w as [n sc u tr rf fps tm rd vs].
  destruct (@detect_default_world img (App.model st) (App.canvasRef st)
              n sc u tr rf fps tm rd vs Hm Hw) as (v & n' & Hv & _ & Hrun).
  exists v. eexists. split; [exact Hrun|]. split; [exact Hv|].
  cbn. auto 10.
Qed.

Lemma X14_image_detection_one_shot_witness :
  exists w',
    App.onLoad example_frame (App.mkState false 1 example_model)
               (example_world (fun _ => 0))
    = (Returned tt, w') /\
    requested_frames w' = 0%nat /\ scopes w' = [].
Proof.
  destruct (@X14_image_detection_one_shot (App.mkState false 1 example_model)
              example_frame (example_world (fun _ => 0)) example_pose_model)
    as (v & w' & H1 & _ & _ & H2 & _ & _ & H3 & _); [split; constructor|].
  exists w'. split; [exact H1|]. split; [exact H2 | exact H3].
Defined.

(** ** The engine over a session *)
(** X15.  In a streaming session started from a page with no callback
    pending, at every point either the engine's scopes and untracked
    tensors are exactly those of the start (every frame released all it
    made), or the loop has stopped and exactly one scope has been left
    open, by the single detection that threw.  With a loaded pose model
    the first case always holds. *)
Theorem X15_session_memory (first : video) (snapshots : list video) (m : model)
  (canvasRef : canvas) (w : world) :
  fresh w -> requested_frames w = 0%nat ->
  let w' := stream first snapshots m canvasRef w in
  ((scopes w' = scopes w /\ untracked w' = untracked w) \/
   (requested_frames w' = 0%nat /\
    exists top, top <> [] /\ scopes w' = top :: scopes w /\ untracked w' = untracked w)) /\
  (pose_model m -> scopes w' = scopes w /\ untracked w' = untracked w).
Proof.
  intros Hw Hrf. cbv zeta. unfold stream.
  change (detectVideo first m canvasRef w)
    with (detectFrame first m canvasRef (session_start w)).
  assert (Hw0 : fresh (session_start w)) by exact Hw.
  split.
  - set (P := fun w0 : world =>
                (fresh w0 /\ (requested_frames w0 <= 1)%nat /\
                 scopes w0 = scopes w /\ untracked w0 = untracked w) \/
                (requested_frames w0 = 0%nat /\
                 exists top, top <> [] /\ scopes w0 = top :: scopes w /\
                             untracked w0 = untracked w)).
    enough (HP : P (animation_frames snapshots m canvasRef
                      (snd (detectFrame first m canvasRef (session_start w))))).
    { destruct HP as [(_ & _ & H)|H]; [left; exact H | right; exact H]. }
    assert (Hstep : forall v w0, fresh w0 -> requested_frames w0 = 0%nat ->
                     scopes w0 = scopes w -> untracked w0 = untracked w ->
                     P (snd (detectFrame v m canvasRef w0))).
    { intros v w0 Hf H0 Hs Hu.
      destruct (tick_engine v m canvasRef Hf)
        as [(_ & Hf' & Es & Eu)|(e & top & _ & Ht & Es & Eu & Er)].
      - left. split; [exact Hf'|]. split; [|split; congruence].
        destruct (tick_requested_frames v m canvasRef w0)
          as [(_ & _ & E)|(_ & E)]; rewrite E; lia.
      - right. split; [congruence|]. exists top. split; [exact Ht|].
        split; congruence. }
    apply animation_frames_invariant.
    + intros v w0 k [(Hf & Hle & Hs & Hu)|(H0 & _)] Hk; [|congruence].
      assert (k = 0%nat) by lia. subst k.
      apply Hstep; [exact Hf | reflexivity | exact Hs | exact Hu].
    + apply Hstep; auto.
  - intros Hm.
    set (P := fun w0 : world =>
                fresh w0 /\ scopes w0 = scopes w /\ untracked w0 = untracked w).
    enough (HP : P (animation_frames snapshots m canvasRef
                      (snd (detectFrame first m canvasRef (session_start w)))))
      by apply HP.
    assert (Hstep : forall v w0, fresh w0 ->
                     scopes w0 = scopes w -> untracked w0 = untracked w ->
                     P (snd (detectFrame v m canvasRef w0))).
    { intros v w0 Hf Hs Hu.
      destruct (tick_engine v m canvasRef Hf)
        as [(_ & Hf' & Es & Eu)|(e & top & He & _)].
      - split; [exact Hf'|]. split; congruence.
      - rewrite (tick_returns v canvasRef w0 Hm) in He. discriminate. }
    apply animation_frames_invariant.
    + intros v w0 k (Hf & Hs & Hu) _. apply Hstep; [exact Hf | exact Hs | exact Hu].
    + apply Hstep; auto.
Qed.

Lemma X15_session_memory_witness :
  scopes (stream example_video [example_video; example_video] example_model
                 example_canvas (example_world (fun _ => 0)))
  = scopes (example_world (fun _ => 0)).
Proof.
  refine (proj1 (proj2 (@X15_session_memory example_video [example_video; example_video]
                          example_model example_canvas (example_world (fun _ => 0))
                          _ eq_refl) example_pose_model)).
  split; constructor.
Defined.

(** ** One detection per animation frame *)
(** X17.  A session never runs more than one detection per animation
    frame: after the play event and [k] animation frames the model has
    been executed at most [k + 1] times more than before.  With a loaded
    pose model and a source that stays open the bound is reached and one
    callback is pending: the loop runs as long as the source is open. *)
Theorem X17_one_detection_per_frame (first : video) (snapshots : list video) (m : model)
  (canvasRef : canvas) (w : world) :
  (executions (stream first snapshots m canvasRef w)
   <= executions w + S (length snapshots))%nat /\
  (pose_model m -> Forall (fun v => source_closed v = false) (first :: snapshots) ->
   requested_frames w = 0%nat ->
   executions (stream first snapshots m canvasRef w)
   = (executions w + S (length snapshots))%nat /\
   requested_frames (stream first snapshots m canvasRef w) = 1%nat).
Proof.
  unfold stream.
  change (detectVideo first m canvasRef w)
    with (detectFrame first m canvasRef (session_start w)).
  destruct (tick_executions first m canvasRef (session_start w)) as [Hle Heq].
  cbv zeta in Hle, Heq.
  change (executions (session_start w)) with (executions w) in Hle, Heq.
  split.
  - pose proof (animation_executions m canvasRef snapshots
                  (snd (detectFrame first m canvasRef (session_start w)))) as H.
    lia.
  - intros Hm Hopen Hrf. inversion Hopen as [|v l Hfirst Hrest]; subst.
    pose proof (tick_returns first canvasRef (session_start w) Hm) as Hret.
    specialize (Heq Hfirst Hret).
    assert (Hone : requested_frames (snd (detectFrame first m canvasRef (session_start w)))
                   = 1%nat).
    { destruct (tick_requested_frames first m canvasRef (session_start w))
        as [(_ & _ & E)|([Hc|(e & Hthrown)] & _)].
      - rewrite E. cbn [requested_frames session_start]. now rewrite Hrf.
      - congruence.
      - rewrite Hret in Hthrown. discriminate. }
    destruct (animation_alive canvasRef Hm Hrest _ Hone) as [E1 E2].
    rewrite E1, E2, Heq. split; [lia | reflexivity].
Qed.

Lemma X17_one_detection_per_frame_witness :
  executions (stream example_video [example_video; example_video] example_model
                     example_canvas (example_world (fun _ => 0)))
  = 3%nat.
Proof.
  refine (proj1 (proj2 (@X17_one_detection_per_frame example_video
                          [example_video; example_video] example_model example_canvas
                          (example_world (fun _ => 0)))
                       example_pose_model _ eq_refl)).
  repeat constructor.
Defined.

(** ** Boxes of finite detections *)
(** X18.  A detection whose [cx], [cy], [w] and [h] are finite single
    precision numbers (of any sign) gets a box without NaN: each of
    [y1], [x1], [y2], [x2] is a single-precision number or an infinity
    (a corner that overflows).  NaN enters a box only from a raw output
    that holds NaN or an infinity. *)
Theorem X18_finite_detection_box_has_no_nan (transRes : Tensor32.tensor) (n a i : nat) :
  Tensor32.shape transRes = [1; n; a]%nat -> (4 <= a)%nat -> (i < n)%nat ->
  Float32.finite (Tensor32.get transRes (i * a + 0)) = true ->
  Float32.finite (Tensor32.get transRes (i * a + 1)) = true ->
  Float32.finite (Tensor32.get transRes (i * a + 2)) = true ->
  Float32.finite (Tensor32.get transRes (i * a + 3)) = true ->
  exists boxes y1 x1 y2 x2,
    Decoder32.decode_boxes transRes = Some boxes /\
    Decoder32.box_at boxes i = (y1, x1, y2, x2) /\
    Forall (fun v => Float32.is_value v = true /\ v <> S754_nan) [y1; x1; y2; x2].
Proof.
  intros Hs Ha Hi Hcx Hcy Hw Hh.
  destruct (Decoder32Facts.decode_boxes32_spec transRes Hs Ha) as (bx & Hbx & _ & _ & Hrow).
  exists bx. do 4 eexists. split; [exact Hbx|]. split; [exact (Hrow i Hi)|].
  destruct (Float32Facts.corner_values _ _ Hcx Hw) as [Hx1 Hx2].
  destruct (Float32Facts.corner_values _ _ Hcy Hh) as [Hy1 Hy2].
  repeat (apply Forall_cons; [assumption|]). apply Forall_nil.
Qed.

Lemma X18_finite_detection_box_has_no_nan_witness :
  exists boxes y1 x1 y2 x2,
    Decoder32.decode_boxes example_row32 = Some boxes /\
    Decoder32.box_at boxes 0 = (y1, x1, y2, x2) /\
    Forall (fun v => Float32.is_value v = true /\ v <> S754_nan) [y1; x1; y2; x2].
Proof.
  apply (@X18_finite_detection_box_has_no_nan example_row32 1 4 0 eq_refl);
    first [lia | vm_compute; reflexivity].
Defined.
